(** * Workload optimisation pipeline of lvl.ai

    A shallow embedding of
    - [optimizeWorkload] (backend organizer agent service): candidate
      selection, prompt construction, the model call, and the extraction of
      recommendations from the model's free-text reply;
    - the [POST /apply-workload-optimization] route handler, with the
      validation that comes before it.

    JavaScript strings are modelled as [string] (sequences of 8-bit code
    units), numbers that reach the program as integers as [Z], dates as their
    time value in milliseconds since the epoch. What the engine decides
    (doubles, the formats [Date.parse] accepts) and what the object-document
    mapper decides (casts) are parameters, [Runtime] and [Apply.Odm], as is
    what express-validator makes of a value that is no string
    ([Apply.Validator]); the general theorems hold for every choice of them,
    and the examples are evaluated with [Reference.runtime], [Apply.odm] and
    [Apply.validator].

    Around these two, the file embeds the rest of the path of a workload
    optimisation: the retrieval of the user's context ([Service]), the
    context prompt ([Prompt]), the choice of the provider and the chat
    ([Gateway]), the JSON that travels between the service and the page
    ([Wire]), the options of the route ([Routes]) and the handlers of the
    workload page ([Page]). *)

From Stdlib Require Import Bool Arith ZArith Lia List String Ascii.
From Stdlib Require Import Permutation Sorted QArith DecimalString.
Import ListNotations.
Local Open Scope string_scope.
Local Open Scope Z_scope.

(** ** JavaScript strings *)

Module JsString.

(** Code units matched by the regular-expression class [\s] and removed by
    [String.prototype.trim], among the code units below 256: TAB, LF, VT,
    FF, CR, SPACE and NO-BREAK SPACE. *)
Definition isSpace (c : ascii) : bool :=
  let n := nat_of_ascii c in
  ((9 <=? n) && (n <=? 13))%nat || (n =? 32)%nat || (n =? 160)%nat.

Definition anyChar (_ : ascii) : bool := true.

Definition isUpper (c : ascii) : bool :=
  let n := nat_of_ascii c in
  ((65 <=? n) && (n <=? 90))%nat
  || ((192 <=? n) && (n <=? 222) && negb (n =? 215))%nat.

Definition lowerChar (c : ascii) : ascii :=
  if isUpper c then ascii_of_nat (nat_of_ascii c + 32) else c.

(** [String.prototype.toLowerCase]. *)
Fixpoint toLowerCase (s : string) : string :=
  match s with
  | EmptyString => EmptyString
  | String c s' => String (lowerChar c) (toLowerCase s')
  end.

Fixpoint trimStart (s : string) : string :=
  match s with
  | String c s' => if isSpace c then trimStart s' else s
  | EmptyString => EmptyString
  end.

Fixpoint rev_onto (s acc : string) : string :=
  match s with
  | EmptyString => acc
  | String c s' => rev_onto s' (String c acc)
  end.

Definition rev (s : string) : string := rev_onto s EmptyString.

Definition trimEnd (s : string) : string := rev (trimStart (rev s)).

(** [String.prototype.trim]. *)
Definition trim (s : string) : string := trimEnd (trimStart s).

(** [s.substring(n)]: what is left of [s] after its first [n] code units. *)
Fixpoint drop (n : nat) (s : string) : string :=
  match n, s with
  | O, _ => s
  | S n', String _ s' => drop n' s'
  | S _, EmptyString => EmptyString
  end.

(** [s.split(sep)] for a separator made of one code unit. *)
Fixpoint splitChar (sep : ascii) (s : string) : list string :=
  match s with
  | EmptyString => [EmptyString]
  | String c s' =>
      if Ascii.eqb c sep then EmptyString :: splitChar sep s'
      else match splitChar sep s' with
           | p :: ps => String c p :: ps
           | [] => [String c EmptyString]
           end
  end.

(** [l.join(sep)]. *)
Fixpoint join (sep : string) (l : list string) : string :=
  match l with
  | [] => EmptyString
  | [x] => x
  | x :: rest => x ++ sep ++ join sep rest
  end.

Definition isEmpty (s : string) : bool :=
  match s with EmptyString => true | _ => false end.

(** The quotation mark, U+0022. *)
Definition dquote : ascii := ascii_of_nat 34.

(** Texts that contain quotation marks are written with an apostrophe in
    the place of each: [q s] is [s] with every apostrophe replaced by a
    quotation mark. *)
Fixpoint q (s : string) : string :=
  match s with
  | EmptyString => EmptyString
  | String c s' => String (if Ascii.eqb c "'" then dquote else c) (q s')
  end.

End JsString.

(** ** Regular expressions

    The fragment of ECMAScript regular expressions that the extractor uses,
    with the backtracking order of the specification: alternatives are tried
    left to right, a greedy quantifier tries the longest repetition first and
    a lazy one the shortest. *)

Module Regex.

Inductive regex : Type :=
| Lit (ignoreCase : bool) (s : string)     (* a sequence of characters *)
| Opt (r : regex)                          (* (?:r)?  *)
| Star (p : ascii -> bool)                 (* [p]*    *)
| LazyStar (p : ascii -> bool)             (* [p]*?   *)
| Cat (r1 r2 : regex)
| Group (r : regex)                        (* (r), capture 1 *)
| Bos                                      (* ^ *)
| Eos.                                     (* $ *)

(** Matcher state: the index in the subject, what is left of the subject
    from there, and the extent of capture 1. *)
Record mstate : Type := MState {
  pos : nat;
  rest : string;
  capture : option (nat * nat)
}.

Definition cont := mstate -> option mstate.

Definition sameChar (ignoreCase : bool) (a b : ascii) : bool :=
  if ignoreCase
  then Ascii.eqb (JsString.lowerChar a) (JsString.lowerChar b)
  else Ascii.eqb a b.

Fixpoint matchLit (ignoreCase : bool) (lit : string) (st : mstate) (k : cont)
  : option mstate :=
  match lit with
  | EmptyString => k st
  | String c lit' =>
      match rest st with
      | String d s' =>
          if sameChar ignoreCase c d
          then matchLit ignoreCase lit' (MState (S (pos st)) s' (capture st)) k
          else None
      | EmptyString => None
      end
  end.

Fixpoint matchStar (p : ascii -> bool) (k : cont)
         (n : nat) (s : string) (cap : option (nat * nat)) : option mstate :=
  match s with
  | String c s' =>
      if p c
      then match matchStar p k (S n) s' cap with
           | Some r => Some r
           | None => k (MState n s cap)
           end
      else k (MState n s cap)
  | EmptyString => k (MState n s cap)
  end.

Fixpoint matchLazyStar (p : ascii -> bool) (k : cont)
         (n : nat) (s : string) (cap : option (nat * nat)) : option mstate :=
  match k (MState n s cap) with
  | Some r => Some r
  | None =>
      match s with
      | String c s' => if p c then matchLazyStar p k (S n) s' cap else None
      | EmptyString => None
      end
  end.

Fixpoint run (r : regex) (st : mstate) (k : cont) : option mstate :=
  match r with
  | Lit ic s => matchLit ic s st k
  | Opt r' =>
      match run r' st k with
      | Some res => Some res
      | None => k st
      end
  | Star p => matchStar p k (pos st) (rest st) (capture st)
  | LazyStar p => matchLazyStar p k (pos st) (rest st) (capture st)
  | Cat r1 r2 => run r1 st (fun st' => run r2 st' k)
  | Group r' =>
      run r' st
          (fun st' => k (MState (pos st') (rest st') (Some (pos st, pos st'))))
  | Bos => if Nat.eqb (pos st) 0 then k st else None
  | Eos => if JsString.isEmpty (rest st) then k st else None
  end.

(** The leftmost match: start index, end index and capture 1. *)
Fixpoint search (r : regex) (n : nat) (s : string)
  : option (nat * nat * option (nat * nat)) :=
  match run r (MState n s None) Some with
  | Some st => Some (n, pos st, capture st)
  | None =>
      match s with
      | String _ s' => search r (S n) s'
      | EmptyString => None
      end
  end.

Definition slice (s : string) (b e : nat) : string := substring b (e - b) s.

(** The array [s.match(r)] returns: element 0 is the matched text, element 1
    the text of capture 1 ([None] for [undefined]). *)
Record MatchArray : Type := {
  m0 : string;
  m1 : option string
}.

(** [s.match(r)] for a regular expression without the [g] flag. *)
Definition match_ (s : string) (r : regex) : option MatchArray :=
  match search r 0 s with
  | Some (b, e, cap) =>
      Some {| m0 := slice s b e;
              m1 := option_map (fun be => slice s (fst be) (snd be)) cap |}
  | None => None
  end.

(** [s.replace(r, '')] for a regular expression without the [g] flag. *)
Definition replaceEmpty (s : string) (r : regex) : string :=
  match search r 0 s with
  | Some (b, e, _) => substring 0 b s ++ JsString.drop e s
  | None => s
  end.

(** A continuation that only returns states at or after the state it is
    given. *)
Definition forward (k : cont) : Prop :=
  forall st res, k st = Some res -> (pos st <= pos res)%nat.

Fixpoint cats (l : list regex) : regex :=
  match l with
  | [] => Lit false EmptyString
  | [r] => r
  | r :: rs => Cat r (cats rs)
  end.

End Regex.

(** ** JavaScript values and the runtime *)

(** The values [JSON.parse] produces, and [undefined]. A number keeps the
    numeral it was written as; what the engine makes of it (a double) is
    left to the [Runtime]. *)
#[warnings="-register-all"]
Inductive value : Type :=
| VUndefined
| VNull
| VBool (b : bool)
| VNum (numeral : string)
| VStr (s : string)
| VArr (elems : list value)
| VObj (fields : list (string * value)).

(** Thrown JavaScript exceptions. *)
Inductive exn : Type :=
| SyntaxError (msg : string)
| TypeError (msg : string)
| RangeError (msg : string)
| CastError (msg : string).

(** [error.message]. *)
Definition message (e : exn) : string :=
  match e with
  | SyntaxError msg | TypeError msg | RangeError msg | CastError msg => msg
  end.

(** Computations that either throw or return. *)
Definition Js (A : Type) : Type := exn + A.

Definition ret {A} (a : A) : Js A := inr a.
Definition throw {A} (e : exn) : Js A := inl e.
Definition bind {A B} (m : Js A) (f : A -> Js B) : Js B :=
  match m with
  | inl e => inl e
  | inr a => f a
  end.

Notation "x <- m ;; k" := (bind m (fun x => k))
  (at level 61, m at next level, right associativity).

(** [try { body } catch (e) { handler }]. *)
Definition try_catch {A} (body : Js A) (handler : exn -> Js A) : Js A :=
  match body with
  | inl e => handler e
  | inr a => inr a
  end.

(** [l.filter(p)] for a callback that may throw. *)
Fixpoint filterM {A} (p : A -> Js bool) (l : list A) : Js (list A) :=
  match l with
  | [] => ret []
  | x :: l' =>
      b <- p x ;;
      r <- filterM p l' ;;
      ret (if b then x :: r else r)
  end.

(** [l.map(f)] for a callback that may throw. *)
Fixpoint mapM {A B} (f : A -> Js B) (l : list A) : Js (list B) :=
  match l with
  | [] => ret []
  | x :: l' =>
      y <- f x ;;
      r <- mapM f l' ;;
      ret (y :: r)
  end.

(** What the program takes from the JavaScript engine and cannot be fixed
    by its text: the arithmetic of doubles and the implementation-defined
    part of [Date.parse]. *)
Class Runtime : Type := {
  (** [ToBoolean] of the number a numeral denotes. *)
  Number_toBoolean : string -> bool;
  (** [Number.prototype.toString] of the number a numeral denotes. *)
  Number_toString : string -> string;
  (** Time value of [new Date(n)] for the number [n] a numeral denotes;
      [None] for an invalid date. *)
  Number_toTime : string -> option Z;
  (** [Date.parse]; [None] for [NaN]. *)
  Date_parse : string -> option Z
}.

Section Values.

Context {R : Runtime}.

(** [ToBoolean]. *)
Definition truthy (v : value) : bool :=
  match v with
  | VUndefined | VNull => false
  | VBool b => b
  | VNum n => Number_toBoolean n
  | VStr s => negb (JsString.isEmpty s)
  | VArr _ | VObj _ => true
  end.

(** [a || b]. *)
Definition or_ (a b : value) : value := if truthy a then a else b.

(** The text [String(v)] returns, when it returns. For some objects the
    conversion throws, see [throwsOnString] below: the handler of the apply
    route is modelled with the conversion that may throw, [toStringJs]; in
    the extractor this text stands for the conversion, which is exact for
    every value but those objects. *)
Fixpoint String_ (v : value) : string :=
  match v with
  | VUndefined => "undefined"
  | VNull => "null"
  | VBool true => "true"
  | VBool false => "false"
  | VNum n => Number_toString n
  | VStr s => s
  | VArr l =>
      JsString.join ","
        (map (fun e => match e with
                       | VUndefined | VNull => EmptyString
                       | _ => String_ e
                       end) l)
  | VObj _ => "[object Object]"
  end.

(** Whether the conversion of [v] to a string throws. It does for an
    object with an own property [toString], which in a value read from JSON
    is no function while [valueOf] yields no primitive, and for an array
    with such an element; an element that is [null] or [undefined] is not
    converted. *)
Fixpoint throwsOnString (v : value) : bool :=
  match v with
  | VObj fields => existsb (fun kv => String.eqb (fst kv) "toString") fields
  | VArr l => existsb throwsOnString l
  | _ => false
  end.

(** [String(v)], and [v] in a template literal. *)
Definition toStringJs (v : value) : Js string :=
  if throwsOnString v
  then throw (TypeError "Cannot convert object to primitive value")
  else ret (String_ v).

(** Own property [key] of an object; with duplicate keys in the source
    text, [JSON.parse] keeps the last. *)
Fixpoint lookupField (key : string) (fields : list (string * value))
  : option value :=
  match fields with
  | [] => None
  | (k, v) :: rest =>
      match lookupField key rest with
      | Some v' => Some v'
      | None => if String.eqb k key then Some v else None
      end
  end.

(** The value of [v.key] when [v] is neither [null] nor [undefined], for the
    property names this program reads, none of which is inherited from a
    prototype. *)
Definition propOf (v : value) (key : string) : value :=
  match v with
  | VObj fields =>
      match lookupField key fields with Some x => x | None => VUndefined end
  | _ => VUndefined
  end.

(** [v.key]: reading a property of [null] or [undefined] throws. *)
Definition getProp (v : value) (key : string) : Js value :=
  match v with
  | VUndefined =>
      throw (TypeError ("Cannot read properties of undefined (reading '" ++ key ++ "')"))
  | VNull =>
      throw (TypeError ("Cannot read properties of null (reading '" ++ key ++ "')"))
  | _ => ret (propOf v key)
  end.

(** Time value of [new Date(v)]; [None] for an invalid date. *)
Definition Date_new (v : value) : option Z :=
  match v with
  | VUndefined => None
  | VNull => Some 0
  | VBool b => Some (if b then 1 else 0)
  | VNum n => Number_toTime n
  | VStr s => Date_parse s
  | VArr _ | VObj _ => Date_parse (String_ v)
  end.

End Values.

(** ** [JSON.parse]

    A recursive-descent parser for the JSON grammar. Escapes [\uXXXX] for a
    code unit of 256 or more denote text outside the alphabet of this model
    and are not accepted. *)

Module JSON.

Definition isWs (c : ascii) : bool :=
  let n := nat_of_ascii c in
  ((n =? 32) || (n =? 9) || (n =? 10) || (n =? 13))%nat.

Fixpoint skipWs (s : string) : string :=
  match s with
  | String c s' => if isWs c then skipWs s' else s
  | EmptyString => EmptyString
  end.

Definition isDigit (c : ascii) : bool :=
  let n := nat_of_ascii c in ((48 <=? n) && (n <=? 57))%nat.

Definition hexVal (c : ascii) : option nat :=
  let n := nat_of_ascii c in
  if ((48 <=? n) && (n <=? 57))%nat then Some (n - 48)%nat
  else if ((65 <=? n) && (n <=? 70))%nat then Some (n - 55)%nat
  else if ((97 <=? n) && (n <=? 102))%nat then Some (n - 87)%nat
  else None.

(** The code unit the four hexadecimal digits of a [\u] escape denote. *)
Definition hex4 (a b c d : ascii) : option ascii :=
  match hexVal a, hexVal b, hexVal c, hexVal d with
  | Some x, Some y, Some z, Some w =>
      if ((x =? 0) && (y =? 0))%nat
      then Some (ascii_of_nat (16 * z + w))
      else None
  | _, _, _, _ => None
  end.

(** The characters of a string literal after its opening quote, up to and
    including the closing quote. *)
Fixpoint parseChars (s : string) : option (string * string) :=
  match s with
  | EmptyString => None
  | String c s' =>
      if Ascii.eqb c JsString.dquote then Some (EmptyString, s')
      else if Ascii.eqb c "\" then
        match s' with
        | String e s'' =>
            let simple (ch : ascii) :=
              match parseChars s'' with
              | Some (str, r) => Some (String ch str, r)
              | None => None
              end in
            if Ascii.eqb e JsString.dquote then simple JsString.dquote
            else if Ascii.eqb e "\" then simple "\"%char
            else if Ascii.eqb e "/" then simple "/"%char
            else if Ascii.eqb e "b" then simple (ascii_of_nat 8)
            else if Ascii.eqb e "f" then simple (ascii_of_nat 12)
            else if Ascii.eqb e "n" then simple (ascii_of_nat 10)
            else if Ascii.eqb e "r" then simple (ascii_of_nat 13)
            else if Ascii.eqb e "t" then simple (ascii_of_nat 9)
            else if Ascii.eqb e "u" then
              match s'' with
              | String h1 (String h2 (String h3 (String h4 s3))) =>
                  match hex4 h1 h2 h3 h4, parseChars s3 with
                  | Some ch, Some (str, r) => Some (String ch str, r)
                  | _, _ => None
                  end
              | _ => None
              end
            else None
        | EmptyString => None
        end
      else if (nat_of_ascii c <? 32)%nat then None
      else match parseChars s' with
           | Some (str, r) => Some (String c str, r)
           | None => None
           end
  end.

(** A maximal run of digits. *)
Fixpoint digits (s : string) : string * string :=
  match s with
  | String c s' =>
      if isDigit c then let (d, r) := digits s' in (String c d, r)
      else (EmptyString, s)
  | EmptyString => (EmptyString, EmptyString)
  end.

(** What follows the character [c] at the head of [s]. *)
Definition startsWith (c : ascii) (s : string) : option string :=
  match s with
  | String d r => if Ascii.eqb d c then Some r else None
  | EmptyString => None
  end.

(** A character of the class [p] at the head of [s], if there is one, and
    what follows. *)
Definition optChar (p : ascii -> bool) (s : string) : string * string :=
  match s with
  | String c r => if p c then (String c EmptyString, r) else (EmptyString, s)
  | EmptyString => (EmptyString, s)
  end.

(** The integer part of a numeral: digits, with no leading zero before
    another digit. *)
Definition parseInt (s : string) : option (string * string) :=
  let (d, r) := digits s in
  match d with
  | EmptyString => None
  | String c rest =>
      if Ascii.eqb c "0" && negb (JsString.isEmpty rest) then None
      else Some (d, r)
  end.

(** The optional fraction: a point and at least one digit. *)
Definition parseFrac (s : string) : option (string * string) :=
  match startsWith "." s with
  | Some r =>
      let (d, r') := digits r in
      if JsString.isEmpty d then None else Some ("." ++ d, r')
  | None => Some (EmptyString, s)
  end.

(** The optional exponent: [e] or [E], an optional sign and at least one
    digit. *)
Definition parseExp (s : string) : option (string * string) :=
  let (e, r) := optChar (fun c => Ascii.eqb c "e" || Ascii.eqb c "E") s in
  if JsString.isEmpty e then Some (EmptyString, s)
  else
    let (sg, r1) := optChar (fun c => Ascii.eqb c "+" || Ascii.eqb c "-") r in
    let (d, r2) := digits r1 in
    if JsString.isEmpty d then None else Some (e ++ sg ++ d, r2).

(** A JSON numeral: an optional minus sign, the integer part, an optional
    fraction and an optional exponent. The result is the numeral as
    written. *)
Definition parseNumber (s : string) : option (string * string) :=
  let (sign, s1) := optChar (Ascii.eqb "-") s in
  match parseInt s1 with
  | None => None
  | Some (i, s2) =>
      match parseFrac s2 with
      | None => None
      | Some (f, s3) =>
          match parseExp s3 with
          | None => None
          | Some (x, s4) => Some (sign ++ i ++ f ++ x, s4)
          end
      end
  end.

Definition expect (lit : string) (s : string) : option string :=
  if prefix lit s then Some (JsString.drop (length lit) s) else None.

Fixpoint parseValue (fuel : nat) (s : string) : option (value * string) :=
  match fuel with
  | O => None
  | S fuel' =>
      match skipWs s with
      | EmptyString => None
      | String c r =>
          if Ascii.eqb c "{" then
            match startsWith "}" (skipWs r) with
            | Some r' => Some (VObj [], r')
            | None => parseMembers fuel' (skipWs r) []
            end
          else if Ascii.eqb c "[" then
            match startsWith "]" (skipWs r) with
            | Some r' => Some (VArr [], r')
            | None => parseElements fuel' (skipWs r) []
            end
          else if Ascii.eqb c JsString.dquote then
            match parseChars r with
            | Some (str, r') => Some (VStr str, r')
            | None => None
            end
          else if Ascii.eqb c "t" then
            option_map (fun r' => (VBool true, r')) (expect "rue" r)
          else if Ascii.eqb c "f" then
            option_map (fun r' => (VBool false, r')) (expect "alse" r)
          else if Ascii.eqb c "n" then
            option_map (fun r' => (VNull, r')) (expect "ull" r)
          else
            match parseNumber (String c r) with
            | Some (n, r') => Some (VNum n, r')
            | None => None
            end
      end
  end

with parseElements (fuel : nat) (s : string) (acc : list value)
  : option (value * string) :=
  match fuel with
  | O => None
  | S fuel' =>
      match parseValue fuel' s with
      | Some (v, r) =>
          match startsWith "," (skipWs r) with
          | Some r' => parseElements fuel' r' (v :: acc)
          | None =>
              match startsWith "]" (skipWs r) with
              | Some r' => Some (VArr (List.rev (v :: acc)), r')
              | None => None
              end
          end
      | None => None
      end
  end

with parseMembers (fuel : nat) (s : string) (acc : list (string * value))
  : option (value * string) :=
  match fuel with
  | O => None
  | S fuel' =>
      match startsWith JsString.dquote (skipWs s) with
      | None => None
      | Some r =>
          match parseChars r with
          | None => None
          | Some (key, r1) =>
              match startsWith ":" (skipWs r1) with
              | None => None
              | Some r2 =>
                  match parseValue fuel' r2 with
                  | None => None
                  | Some (v, r3) =>
                      match startsWith "," (skipWs r3) with
                      | Some r4 => parseMembers fuel' r4 ((key, v) :: acc)
                      | None =>
                          match startsWith "}" (skipWs r3) with
                          | Some r4 =>
                              Some (VObj (List.rev ((key, v) :: acc)), r4)
                          | None => None
                          end
                      end
                  end
              end
          end
      end
  end.

(** [JSON.parse(text)]: [throw]s a [SyntaxError] unless the whole text is
    one JSON value surrounded by white space. The fuel is enough for any
    text (lemma [parseValue_fuel]). *)
Definition parse (text : string) : Js value :=
  match parseValue (2 * length text + 2) text with
  | Some (v, r) =>
      match skipWs r with
      | EmptyString => ret v
      | _ => throw (SyntaxError "Unexpected non-whitespace character after JSON")
      end
  | None => throw (SyntaxError "Unexpected token in JSON")
  end.

End JSON.

(** ** Dates *)

Module JsDate.

Definition msPerDay : Z := 86400000.

Definition digitChar (d : Z) : ascii := ascii_of_nat (48 + Z.to_nat d).

(** The last [width] decimal digits of [n], most significant first. *)
Fixpoint padded (width : nat) (n : Z) : string :=
  match width with
  | O => EmptyString
  | S w => padded w (n / 10) ++ String (digitChar (n mod 10)) EmptyString
  end.

(** Year, month and day of the proleptic Gregorian calendar for a number of
    days since 1970-01-01. *)
Definition civilFromDays (days : Z) : Z * Z * Z :=
  let z := days + 719468 in
  let era := z / 146097 in
  let doe := z - era * 146097 in
  let yoe := (doe - doe / 1460 + doe / 36524 - doe / 146096) / 365 in
  let doy := doe - (365 * yoe + yoe / 4 - yoe / 100) in
  let mp := (5 * doy + 2) / 153 in
  let d := doy - (153 * mp + 2) / 5 + 1 in
  let m := if mp <? 10 then mp + 3 else mp - 9 in
  let y := yoe + era * 400 + (if m <=? 2 then 1 else 0) in
  (y, m, d).

(** The inverse: days since 1970-01-01 of a calendar date. *)
Definition daysFromCivil (y m d : Z) : Z :=
  let y' := if m <=? 2 then y - 1 else y in
  let era := y' / 400 in
  let yoe := y' - era * 400 in
  let mp := if m <=? 2 then m + 9 else m - 3 in
  let doy := (153 * mp + 2) / 5 + d - 1 in
  let doe := yoe * 365 + yoe / 4 - yoe / 100 + doy in
  era * 146097 + doe - 719468.

(** The year as [toISOString] writes it: four digits from 0 to 9999, a
    sign and six digits otherwise. *)
Definition isoYear (y : Z) : string :=
  if (0 <=? y) && (y <=? 9999) then padded 4 y
  else if y <? 0 then "-" ++ padded 6 (- y)
  else "+" ++ padded 6 y.

(** [date.toISOString().split('T')[0]] for a valid date with time value
    [t]: the UTC calendar date, [YYYY-MM-DD]. *)
Definition isoDate (t : Z) : string :=
  let '(y, m, d) := civilFromDays (t / msPerDay) in
  isoYear y ++ "-" ++ padded 2 m ++ "-" ++ padded 2 d.

End JsDate.

(** ** Tasks *)

(** Modelled from the spec: the enumeration [TaskPriority] of [models/Task],
    which is not part of the sources at hand; its members are the keys of
    [priorityOrder] in [optimizeWorkload]. *)
Inductive TaskPriority : Type := LOW | MEDIUM | HIGH | URGENT.

(** Modelled from the spec: the enumeration [TaskStatus] of [models/Task]. *)
Inductive TaskStatus : Type := PENDING | IN_PROGRESS | COMPLETED.

Definition TaskPriority_value (p : TaskPriority) : string :=
  match p with
  | LOW => "low"
  | MEDIUM => "medium"
  | HIGH => "high"
  | URGENT => "urgent"
  end.

Definition TaskStatus_eqb (a b : TaskStatus) : bool :=
  match a, b with
  | PENDING, PENDING | IN_PROGRESS, IN_PROGRESS | COMPLETED, COMPLETED => true
  | _, _ => false
  end.

(** [interface TaskContext]; an optional property is an [option], and a
    [Date] is its time value (the dates the store hands out are valid).
    [None] stands for a property that is absent and for one that holds
    [null], as a due date does when the store holds [null] for it: the
    program tests these properties for truthiness only and cannot tell the
    two apart. *)
Record TaskContext : Type := {
  id : string;
  title : string;
  description : option string;
  priority : TaskPriority;
  status : TaskStatus;
  taskTime : option Z;
  dueDate : option Z;
  completedAt : option Z;
  points : Z;
  tags : list string;
  createdAt : Z;
  updatedAt : Z;
  isOverdue : option bool
}.

(** [interface TaskRecommendation]. The title and the reason are whatever
    the reply held under these keys when that is truthy. *)
Record TaskRecommendation : Type := {
  taskId : string;
  taskTitle : value;
  currentDueDate : option Z;
  suggestedDueDate : option Z;
  currentPriority : string;
  suggestedPriority : option string;
  reason : value
}.

(** [interface WorkloadOptimizationResult]. *)
Record WorkloadOptimizationResult : Type := {
  analysis : string;
  recommendations : list TaskRecommendation;
  summary : string
}.

(** ** [optimizeWorkload]: the candidate tasks *)

Inductive AIProvider : Type := langchain | openrouter.

(** The [options] argument of [optimizeWorkload]; an absent property (or a
    [NaN], which the route's [parseInt] can produce) is [None]. *)
Record Options : Type := {
  provider : option AIProvider;
  days : option Z;
  maxTasks : option Z
}.

(** [options?.field || dflt] for a numeric field. *)
Definition numberOr (options : option Options) (field : Options -> option Z)
  (dflt : Z) : Z :=
  match options with
  | Some o =>
      match field o with
      | Some n => if n =? 0 then dflt else n
      | None => dflt
      end
  | None => dflt
  end.

Definition isPendingOrInProgress (t : TaskContext) : bool :=
  TaskStatus_eqb (status t) PENDING || TaskStatus_eqb (status t) IN_PROGRESS.

(** [const priorityOrder = { urgent: 4, high: 3, medium: 2, low: 1 }]; every
    member of [TaskPriority] is a key, so [priorityOrder[p] || 0] is
    [priorityOrder[p]]. *)
Definition priorityOrder (p : TaskPriority) : Z :=
  match p with
  | URGENT => 4
  | HIGH => 3
  | MEDIUM => 2
  | LOW => 1
  end.

(** The comparison callback passed to [sort]. *)
Definition compareTasks (a b : TaskContext) : Z :=
  let priorityDiff := priorityOrder (priority b) - priorityOrder (priority a) in
  if negb (priorityDiff =? 0) then priorityDiff
  else
    match dueDate a, dueDate b with
    | Some ta, Some tb => ta - tb
    | Some _, None => -1
    | None, Some _ => 1
    | None, None => 0
    end.

(** [Array.prototype.sort] is stable (ECMAScript 2019). The algorithm is the
    engine's; for a callback that orders the elements consistently, as
    [compareTasks] does, the result is the same whatever the algorithm
    (lemma [stable_sort_unique]). Here an element is placed before the first
    element it must precede, after every element it compares equal to that
    came before it. *)
Fixpoint insertSorted {A} (cmp : A -> A -> Z) (x : A) (l : list A) : list A :=
  match l with
  | [] => [x]
  | y :: l' => if cmp x y <=? 0 then x :: l else y :: insertSorted cmp x l'
  end.

Definition Array_sort {A} (cmp : A -> A -> Z) (l : list A) : list A :=
  fold_right (insertSorted cmp) [] l.

(** [l.slice(0, stop)]: a negative [stop] counts from the end. *)
Definition Array_slice0 {A} (stop : Z) (l : list A) : list A :=
  if stop <? 0
  then firstn (Z.to_nat (Z.max (Z.of_nat (List.length l) + stop) 0)) l
  else firstn (Z.to_nat stop) l.

(** The tasks offered to the model: [pendingTasks] after the [filter], the
    [sort] and the [slice]. *)
Definition selectCandidates (tasks : list TaskContext) (maxTasks : Z)
  : list TaskContext :=
  Array_slice0 maxTasks
    (Array_sort compareTasks (filter isPendingOrInProgress tasks)).

(** ** [optimizeWorkload]: the prompt and the call of the model *)

(** [String(n)] for an integer [n]. *)
Definition Z_toString (n : Z) : string :=
  NilZero.string_of_int (Z.to_int n).

Definition newline : string := String (ascii_of_nat 10) EmptyString.

(** The options [optimizeWorkload] passes to [chatWithOrganizer]. *)
Record ChatOptions : Type := {
  temperature : Q;
  maxTokens : Z;
  chatProvider : option AIProvider
}.

(** What [optimizeWorkload] awaits from the rest of the service. A rejected
    promise is the environment not resuming the program. *)
Inductive Prog (A : Type) : Type :=
| Return (a : A)
| Raise (e : exn)
| RetrieveUserTasks (userId : string) (k : list TaskContext -> Prog A)
| ChatWithOrganizer (userId : string) (message : string)
    (options : ChatOptions) (k : string -> Prog A).

Arguments Return {A} a.
Arguments Raise {A} e.
Arguments RetrieveUserTasks {A} userId k.
Arguments ChatWithOrganizer {A} userId message options k.

Definition liftJs {A} (m : Js A) : Prog A :=
  match m with
  | inl e => Raise e
  | inr a => Return a
  end.

(** One line of [taskList]. *)
Definition taskLine (idx : nat) (task : TaskContext) : string :=
  let dueDateStr :=
    match dueDate task with
    | Some t => JsDate.isoDate t
    | None => "No due date"
    end in
  let taskId := id task in
  Z_toString (Z.of_nat idx + 1) ++ ". [ID: " ++ taskId ++ "] "
    ++ JsString.q "'" ++ title task ++ JsString.q "'"
    ++ " - Priority: " ++ TaskPriority_value (priority task)
    ++ ", Due: " ++ dueDateStr.

Fixpoint mapi_from {A B} (i : nat) (f : nat -> A -> B) (l : list A) : list B :=
  match l with
  | [] => []
  | x :: l' => f i x :: mapi_from (S i) f l'
  end.

Definition taskList (pendingTasks : list TaskContext) : string :=
  JsString.join newline (mapi_from 0 taskLine pendingTasks).

Definition promptFormat : string := JsString.q
"You MUST respond with ONLY this JSON format (no other text):
{
  'recommendations': [
    {
      'taskId': 'exact_id_from_list',
      'taskTitle': 'exact title',
      'currentDueDate': 'YYYY-MM-DD or null',
      'suggestedDueDate': 'YYYY-MM-DD',
      'currentPriority': 'low/medium/high/urgent',
      'suggestedPriority': 'low/medium/high/urgent',
      'reason': 'reason'
    }
  ]
}

CRITICAL RULES:
- Find tasks on overloaded days (5+ tasks) and move some to lighter days (1-2 tasks)
- Schedule tasks with 'No due date' to balance workload
- Prioritize overdue tasks (negative days)
- Suggested dates must be YYYY-MM-DD format within next ".

Definition promptTail : string :=
" days
- Include at least 5-10 recommendations if there are imbalances
- Return ONLY the JSON, no markdown, no code blocks, no explanations".

Definition prompt (pendingTasks : list TaskContext) (days : Z) : string :=
  "Analyze these " ++ Z_toString (Z.of_nat (List.length pendingTasks))
    ++ " tasks and redistribute them to balance workload over the next "
    ++ Z_toString days ++ " days." ++ newline ++ newline
    ++ "TASKS:" ++ newline ++ taskList pendingTasks ++ newline ++ newline
    ++ promptFormat ++ Z_toString days ++ promptTail.

(** ** [optimizeWorkload]: extracting the recommendations from the reply *)

Section Extraction.

Context {R : Runtime}.

Import Regex.

Definition fence : string := "```".

(** [/```(?:json)?\s*(\{[\s\S]*?\})\s*```/] *)
Definition codeBlockPattern : regex :=
  cats [Lit false fence; Opt (Lit false "json"); Star JsString.isSpace;
        Group (cats [Lit false "{"; LazyStar JsString.anyChar; Lit false "}"]);
        Star JsString.isSpace; Lit false fence].

(** [/\{[\s\S]*?"recommendations"[\s\S]*?\}/] *)
Definition jsonObjectPattern : regex :=
  cats [Lit false "{"; LazyStar JsString.anyChar;
        Lit false (JsString.q "'recommendations'");
        LazyStar JsString.anyChar; Lit false "}"].

(** [/\{[\s\S]*\}/] *)
Definition anyJsonPattern : regex :=
  cats [Lit false "{"; Star JsString.anyChar; Lit false "}"].

(** The variables [jsonString] and [jsonMatch]; [None] is [null]. *)
Record Found : Type := {
  jsonString : string;
  jsonMatch : option string
}.

Definition notFound : Found :=
  {| jsonString := EmptyString; jsonMatch := None |}.

(** Pattern 1: JSON wrapped in a code block. *)
Definition tryCodeBlock (aiResponse : string) (st : Found) : Found :=
  match match_ aiResponse codeBlockPattern with
  | Some codeBlockMatch =>
      match m1 codeBlockMatch with
      | Some group =>
          if negb (JsString.isEmpty group)
          then {| jsonString := group; jsonMatch := Some (m0 codeBlockMatch) |}
          else st
      | None => st
      end
  | None => st
  end.

(** Pattern 2: an object that contains ["recommendations"]. *)
Definition tryJsonObject (aiResponse : string) (st : Found) : Found :=
  if JsString.isEmpty (jsonString st) then
    match match_ aiResponse jsonObjectPattern with
    | Some jsonObjectMatch =>
        {| jsonString := m0 jsonObjectMatch;
           jsonMatch := Some (m0 jsonObjectMatch) |}
    | None => st
    end
  else st.

(** Pattern 3: any object. *)
Definition tryAnyJson (aiResponse : string) (st : Found) : Found :=
  if JsString.isEmpty (jsonString st) then
    match match_ aiResponse anyJsonPattern with
    | Some anyJsonMatch =>
        {| jsonString := m0 anyJsonMatch; jsonMatch := Some (m0 anyJsonMatch) |}
    | None => st
    end
  else st.

Definition findJson (aiResponse : string) : Found :=
  tryAnyJson aiResponse
    (tryJsonObject aiResponse (tryCodeBlock aiResponse notFound)).

(** [jsonString.trim()] and the three [replace] calls that remove code-block
    markers. *)
Definition cleanJson (s : string) : string :=
  let s0 := JsString.trim s in
  let s1 := replaceEmpty s0 (cats [Bos; Lit true "```json"; Star JsString.isSpace]) in
  let s2 := replaceEmpty s1 (cats [Bos; Lit false fence; Star JsString.isSpace]) in
  replaceEmpty s2 (cats [Star JsString.isSpace; Lit false fence; Eos]).

Definition optionString_eqb (a b : option string) : bool :=
  match a, b with
  | Some x, Some y => String.eqb x y
  | None, None => true
  | _, _ => false
  end.

(** The callback of the first [filter]: is the entry's task among the
    candidates? *)
Definition hasValidTaskId (validTaskIds : list string) (rec : value) : Js bool :=
  recTaskId <- getProp rec "taskId" ;;
  let taskId := String_ (or_ recTaskId (VStr EmptyString)) in
  let isValid := existsb (String.eqb taskId) validTaskIds in
  ret isValid.

(** The object the callback of [map] returns for an entry it keeps. *)
Definition makeRecommendation (originalTask : TaskContext)
  (recTaskId recTaskTitle recCurrentPriority recSuggestedPriority recReason : value)
  (currentDueDate suggestedDueDate : option Z) : TaskRecommendation :=
  let originalPriority := VStr (TaskPriority_value (priority originalTask)) in
  {| taskId := String_ (or_ recTaskId (VStr (id originalTask)));
     taskTitle :=
       or_ (or_ recTaskTitle (VStr (title originalTask))) (VStr EmptyString);
     currentDueDate := currentDueDate;
     suggestedDueDate := suggestedDueDate;
     currentPriority :=
       String_ (or_ (or_ recCurrentPriority originalPriority) (VStr "medium"));
     suggestedPriority :=
       if truthy recSuggestedPriority
       then Some (String_ recSuggestedPriority) else None;
     reason := or_ recReason (VStr "Balance workload distribution") |}.

(** The callback of [map]: the recommendation an entry stands for, or
    [None] for [null]. *)
Definition toRecommendation (pendingTasks : list TaskContext) (rec : value)
  : Js (option TaskRecommendation) :=
  recTaskId <- getProp rec "taskId" ;;
  match find (fun t => String.eqb (id t) (String_ recTaskId)) pendingTasks with
  | None => ret None
  | Some originalTask =>
      let currentDueDate := dueDate originalTask in
      recSuggestedDueDate <- getProp rec "suggestedDueDate" ;;
      let suggestedDueDate :=
        if truthy recSuggestedDueDate then Date_new recSuggestedDueDate
        else None in
      let currentDateStr := option_map JsDate.isoDate currentDueDate in
      let suggestedDateStr := option_map JsDate.isoDate suggestedDueDate in
      let hasDateChange := negb (optionString_eqb currentDateStr suggestedDateStr) in
      recSuggestedPriority <- getProp rec "suggestedPriority" ;;
      recCurrentPriority <- getProp rec "currentPriority" ;;
      let originalPriority := VStr (TaskPriority_value (priority originalTask)) in
      let hasPriorityChange :=
        truthy recSuggestedPriority
        && negb (String.eqb
                   (JsString.toLowerCase
                      (String_ (or_ recCurrentPriority originalPriority)))
                   (JsString.toLowerCase (String_ recSuggestedPriority))) in
      if negb hasDateChange && negb hasPriorityChange then ret None
      else
        recTaskTitle <- getProp rec "taskTitle" ;;
        recReason <- getProp rec "reason" ;;
        ret (Some (makeRecommendation originalTask recTaskId recTaskTitle
                     recCurrentPriority recSuggestedPriority recReason
                     currentDueDate suggestedDueDate))
  end.

(** The last [filter]: [rec !== null]. *)
Fixpoint dropNull {A} (l : list (option A)) : list A :=
  match l with
  | [] => []
  | Some x :: l' => x :: dropNull l'
  | None :: l' => dropNull l'
  end.

(** [jsonData.recommendations.filter(...).map(...).filter(...)]. *)
Definition mapRecommendations (pendingTasks : list TaskContext)
  (entries : list value) : Js (list TaskRecommendation) :=
  let validTaskIds := map id pendingTasks in
  valid <- filterM (hasValidTaskId validTaskIds) entries ;;
  mapped <- mapM (toRecommendation pendingTasks) valid ;;
  ret (dropNull mapped).

(** What the function returns when nothing was extracted: the variables
    [analysis], [recommendations] and [summary] as first assigned. *)
Definition degraded (aiResponse : string) : WorkloadOptimizationResult :=
  {| analysis := aiResponse; recommendations := []; summary := EmptyString |}.

(** The texts around the match; [jsonMatch] is a string, so [jsonMatch[0]]
    is its first code unit and the reply is split at that code unit. *)
Definition splitAround (aiResponse : string) (jsonMatch : option string)
  : string * string :=
  match jsonMatch with
  | Some (String c _) =>
      let parts := JsString.splitChar c aiResponse in
      (match nth_error parts 0 with
       | Some p => JsString.trim p
       | None => EmptyString
       end,
       match nth_error parts 1 with
       | Some p => JsString.trim p
       | None => EmptyString
       end)
  | _ => (aiResponse, EmptyString)
  end.

(** The body of the [try] block. Every assignment to [recommendations],
    [analysis] and [summary] comes after the last operation that can throw. *)
Definition extractBody (aiResponse : string) (pendingTasks : list TaskContext)
  : Js WorkloadOptimizationResult :=
  let found := findJson aiResponse in
  if negb (JsString.isEmpty (jsonString found)) then
    jsonData <- JSON.parse (cleanJson (jsonString found)) ;;
    recs <- getProp jsonData "recommendations" ;;
    match recs with
    | VArr entries =>
        recommendations <- mapRecommendations pendingTasks entries ;;
        let (analysis, summary) := splitAround aiResponse (jsonMatch found) in
        ret {| analysis := analysis;
               recommendations := recommendations;
               summary := summary |}
    | _ => ret (degraded aiResponse)
    end
  else ret (degraded aiResponse).

(** The [try] statement with its [catch] block, and the [return]. *)
Definition extractRecommendations (aiResponse : string)
  (pendingTasks : list TaskContext) : Js WorkloadOptimizationResult :=
  try_catch (extractBody aiResponse pendingTasks)
    (fun parseError => ret (degraded aiResponse)).

(** [optimizeWorkload(userId, options)]. *)
Definition optimizeWorkload (userId : string) (options : option Options)
  : Prog WorkloadOptimizationResult :=
  let days := numberOr options days 7 in
  let maxTasks := numberOr options maxTasks 15 in
  RetrieveUserTasks userId (fun tasks =>
    let pendingTasks := selectCandidates tasks maxTasks in
    if (List.length pendingTasks =? 0)%nat then
      Return {| analysis := "No pending tasks found to optimize.";
                recommendations := [];
                summary := EmptyString |}
    else
      ChatWithOrganizer userId (prompt pendingTasks days)
        {| temperature := 2 # 10;
           maxTokens := 2000;
           chatProvider := match options with
                           | Some o => provider o
                           | None => None
                           end |}
        (fun aiResponse =>
           liftJs (extractRecommendations aiResponse pendingTasks))).

End Extraction.

(** ** A runtime to evaluate the model with

    Numerals are read as the integers they denote when they have neither a
    fraction nor an exponent, and [Date.parse] reads the two forms of the
    ECMAScript date-time format that the service itself produces:
    [YYYY-MM-DD] and [YYYY-MM-DDTHH:mm:ss.sssZ]. *)

Module Reference.

Fixpoint natOfDigits (acc : Z) (s : string) : option Z :=
  match s with
  | EmptyString => Some acc
  | String c s' =>
      if JSON.isDigit c
      then natOfDigits (10 * acc + Z.of_nat (nat_of_ascii c - 48)) s'
      else None
  end.

(** A run of exactly [n] digits and what follows it. *)
Definition fixedDigits (n : nat) (s : string) : option (Z * string) :=
  let d := substring 0 n s in
  if (String.length d =? n)%nat then
    match natOfDigits 0 d with
    | Some v => Some (v, JsString.drop n s)
    | None => None
    end
  else None.

Definition integerOfNumeral (numeral : string) : option Z :=
  match numeral with
  | String "-" s =>
      match s with
      | EmptyString => None
      | _ => option_map Z.opp (natOfDigits 0 s)
      end
  | EmptyString => None
  | _ => natOfDigits 0 numeral
  end.

Definition maxTime : Z := 8640000000000000.

Definition timeClip (t : Z) : option Z :=
  if Z.abs t <=? maxTime then Some t else None.

Definition isLeap (y : Z) : bool :=
  ((y mod 4 =? 0) && negb (y mod 100 =? 0)) || (y mod 400 =? 0).

Definition daysInMonth (y m : Z) : Z :=
  if m =? 2 then (if isLeap y then 29 else 28)
  else if (m =? 4) || (m =? 6) || (m =? 9) || (m =? 11) then 30
  else 31.

Definition parseDate (s : string) : option (Z * string) :=
  match fixedDigits 4 s with
  | Some (y, String "-" s1) =>
      match fixedDigits 2 s1 with
      | Some (m, String "-" s2) =>
          match fixedDigits 2 s2 with
          | Some (d, s3) =>
              if (1 <=? m) && (m <=? 12) && (1 <=? d) && (d <=? daysInMonth y m)
              then Some (JsDate.daysFromCivil y m d * JsDate.msPerDay, s3)
              else None
          | None => None
          end
      | _ => None
      end
  | _ => None
  end.

Definition parseTime (s : string) : option Z :=
  match fixedDigits 2 s with
  | Some (h, String ":" s1) =>
      match fixedDigits 2 s1 with
      | Some (mi, String ":" s2) =>
          match fixedDigits 2 s2 with
          | Some (sec, String "." s3) =>
              match fixedDigits 3 s3 with
              | Some (ms, String "Z" EmptyString) =>
                  if (h <=? 23) && (mi <=? 59) && (sec <=? 59)
                  then Some (((h * 60 + mi) * 60 + sec) * 1000 + ms)
                  else None
              | _ => None
              end
          | _ => None
          end
      | _ => None
      end
  | _ => None
  end.

Definition parseDateTime (s : string) : option Z :=
  match parseDate s with
  | Some (day, EmptyString) => timeClip day
  | Some (day, String "T" s') =>
      match parseTime s' with
      | Some t => timeClip (day + t)
      | None => None
      end
  | _ => None
  end.

#[export] Instance runtime : Runtime := {
  Number_toBoolean numeral :=
    match integerOfNumeral numeral with
    | Some n => negb (n =? 0)
    | None => true
    end;
  Number_toString numeral :=
    match integerOfNumeral numeral with
    | Some n => Z_toString n
    | None => numeral
    end;
  Number_toTime numeral :=
    match integerOfNumeral numeral with
    | Some n => timeClip n
    | None => None
    end;
  Date_parse := parseDateTime
}.

End Reference.

(** ** The route [POST /apply-workload-optimization] *)

Module Apply.

(** Modelled from the spec: the task document of [models/Task], which is not
    part of the sources at hand, with the fields the spec's data model
    lists. The priority is the string the store holds. *)
Record Task : Type := {
  _id : string;
  userId : string;
  title : string;
  description : option string;
  priority : string;
  status : TaskStatus;
  dueDate : option Z;
  completedAt : option Z;
  points : Z;
  tags : list string;
  createdAt : Z;
  updatedAt : Z
}.

(** The collection of task documents, and the number of writes made to it
    (kept to state how many updates a request performed). *)
Record Store : Type := {
  docs : list Task;
  writes : nat
}.

(** What the handler takes from the object-document mapper: how it casts a
    value to the type of a schema path. [None] is a cast failure, which
    rejects the query's promise. *)
Class Odm : Type := {
  castObjectId : value -> option string;
  castString : value -> option string;
  (** The message of the error for a failed cast at a schema path. *)
  castErrorMessage : string -> string
}.

(** The object [updateData]: the keys that were assigned. *)
Record UpdateData : Type := {
  u_dueDate : option (option Z);     (* [Some None] is an invalid [Date] *)
  u_priority : option value
}.

(** [Object.keys(updateData).length]. *)
Definition keysLength (u : UpdateData) : nat :=
  (match u_dueDate u with Some _ => 1 | None => 0 end)
  + (match u_priority u with Some _ => 1 | None => 0 end).

(** The state of the loop over [recommendations]. *)
Record LoopState : Type := {
  store : Store;
  updatedTasks : list (option Task);
  errors_list : list string
}.

(** The response: [res.json] with [success: true], or one of the failure
    replies. The reply with status 400 carries [errors.array()], of which
    the message of each error is kept. *)
Inductive Response : Type :=
| Success (updated : nat) (errors : option (list string)) (msg : string)
| Status400 (errors : list string)
| Status401 (msg : string)
| Status500 (msg : string) (error : string).

(** What the route takes from express-validator and the text of its two
    chains does not fix: whether [notEmpty()] refuses a value that is
    neither a string nor absent (the package makes a text of the value
    first, in its own way for an array or an object). *)
Class Validator : Type := {
  refusedAsEmpty : value -> bool
}.

Section Handler.

Context {R : Runtime} {O : Odm}.

(** Modelled from the spec: [Task.findOne({ _id, userId })], the lookup of a
    task by identifier scoped to the requesting user. *)
Definition Task_findOne (s : Store) (idValue : value) (user : string)
  : Js (option Task) :=
  match castObjectId idValue with
  | None => throw (CastError (castErrorMessage "_id"))
  | Some oid =>
      ret (find (fun t => String.eqb (_id t) oid && String.eqb (userId t) user)
                (docs s))
  end.

(** The document after the fields of [updateData] are set. *)
Definition setFields (t : Task) (newDueDate : option Z)
  (newPriority : option string) : Task :=
  {| _id := _id t;
     userId := userId t;
     title := title t;
     description := description t;
     priority := match newPriority with Some p => p | None => priority t end;
     status := status t;
     dueDate := match newDueDate with Some d => Some d | None => dueDate t end;
     completedAt := completedAt t;
     points := points t;
     tags := tags t;
     createdAt := createdAt t;
     updatedAt := updatedAt t |}.

(** The first document with identifier [oid] replaced by [f] of it. *)
Fixpoint updateFirst (oid : string) (f : Task -> Task) (l : list Task)
  : list Task * option Task :=
  match l with
  | [] => ([], None)
  | t :: l' =>
      if String.eqb (_id t) oid then (f t :: l', Some (f t))
      else let (r, u) := updateFirst oid f l' in (t :: r, u)
  end.

(** Modelled from the spec: [Task.findByIdAndUpdate(id, updateData,
    { new: true })], a partial update that sets the supplied fields of the
    task with that identifier and returns the updated document, or [null]
    when there is none. *)
Definition Task_findByIdAndUpdate (s : Store) (idValue : value)
  (u : UpdateData) : Js (Store * option Task) :=
  match castObjectId idValue with
  | None => throw (CastError (castErrorMessage "_id"))
  | Some oid =>
      match u_dueDate u with
      | Some None => throw (CastError (castErrorMessage "dueDate"))
      | newDate =>
          let newDueDate := match newDate with Some d => d | None => None end in
          match u_priority u with
          | Some p =>
              match castString p with
              | None => throw (CastError (castErrorMessage "priority"))
              | Some ps =>
                  let (docs', updated) :=
                    updateFirst oid (fun t => setFields t newDueDate (Some ps))
                                (docs s) in
                  ret ({| docs := docs'; writes := S (writes s) |}, updated)
              end
          | None =>
              let (docs', updated) :=
                updateFirst oid (fun t => setFields t newDueDate None) (docs s) in
              ret ({| docs := docs'; writes := S (writes s) |}, updated)
          end
      end
  end.

Definition pushError (st : LoopState) (e : string) : LoopState :=
  {| store := store st;
     updatedTasks := updatedTasks st;
     errors_list := errors_list st ++ [e] |}.

(** The [try] block of one iteration. The store is written by its last
    operation only, so a throw leaves the loop state as it was. *)
Definition tryUpdate (user : string) (rec : value) (st : LoopState)
  : Js LoopState :=
  recTaskId <- getProp rec "taskId" ;;
  task <- Task_findOne (store st) recTaskId user ;;
  match task with
  | None =>
      text <- toStringJs recTaskId ;;
      ret (pushError st ("Task " ++ text ++ " not found"))
  | Some _ =>
      recSuggestedDueDate <- getProp rec "suggestedDueDate" ;;
      recSuggestedPriority <- getProp rec "suggestedPriority" ;;
      let updateData :=
        {| u_dueDate :=
             if truthy recSuggestedDueDate
             then Some (Date_new recSuggestedDueDate) else None;
           u_priority :=
             if truthy recSuggestedPriority
             then Some recSuggestedPriority else None |} in
      if (0 <? keysLength updateData)%nat then
        r <- Task_findByIdAndUpdate (store st) recTaskId updateData ;;
        ret {| store := fst r;
               updatedTasks := updatedTasks st ++ [snd r];
               errors_list := errors_list st |}
      else ret st
  end.

(** One iteration: the [try] block and its [catch] block, which throws
    when the task identifier cannot be written into the message. *)
Definition applyOne (user : string) (rec : value) (st : LoopState)
  : Js LoopState :=
  try_catch (tryUpdate user rec st)
    (fun taskError =>
       recTaskId <- getProp rec "taskId" ;;
       text <- toStringJs recTaskId ;;
       ret (pushError st
              ("Failed to update task " ++ text ++ ": "
               ++ message taskError))).

(** The [for] loop. An exception that leaves an iteration ends the loop; the
    writes made so far stay. *)
Fixpoint applyAll (user : string) (recommendations : list value)
  (st : LoopState) : exn * LoopState + LoopState :=
  match recommendations with
  | [] => inr st
  | rec :: rest =>
      match applyOne user rec st with
      | inl e => inl (e, st)
      | inr st' => applyAll user rest st'
      end
  end.

(** The handler from the point where validation has passed, for a body
    whose [recommendations] are an array: [userId] is [req.user?._id],
    [None] when there is none. *)
Definition applyWorkloadOptimization (userId : option string)
  (recommendations : list value) (s : Store) : Response * Store :=
  match userId with
  | None => (Status401 "User not authenticated", s)
  | Some user =>
      match applyAll user recommendations
              {| store := s; updatedTasks := []; errors_list := [] |} with
      | inr st =>
          (Success (List.length (updatedTasks st))
             (if (0 <? List.length (errors_list st))%nat
              then Some (errors_list st) else None)
             ("Successfully updated "
                ++ Z_toString (Z.of_nat (List.length (updatedTasks st)))
                ++ " task(s)"),
           store st)
      | inl (e, st) =>
          (Status500 "Failed to apply workload optimization" (message e),
           store st)
      end
  end.

End Handler.

Section Route.

Context {R : Runtime} {O : Odm} {V : Validator}.

(** [notEmpty()]: a field that is absent, [null] or the empty string is
    refused. *)
Definition isEmptyField (v : value) : bool :=
  match v with
  | VUndefined | VNull => true
  | VStr s => JsString.isEmpty s
  | _ => refusedAsEmpty v
  end.

(** The values the wildcard of [recommendations.*.taskId] goes through:
    the elements of an array, the values of the keys of an object, and
    nothing for any other value. *)
Definition wildcard (v : value) : list value :=
  match v with
  | VArr elems => elems
  | VObj fields =>
      map (propOf v) (nodup string_dec (map fst fields))
  | _ => []
  end.

(** [validationResult(req).array()] for the two chains of the route, by the
    messages of the errors: [recommendations] must be an array, and the
    [taskId] of each of its elements must not be empty. *)
Definition validationErrors (body : value) : list string :=
  let recommendations := propOf body "recommendations" in
  ((match recommendations with
    | VArr _ => []
    | _ => ["Recommendations must be an array"]
    end)
   ++ flat_map (fun element =>
                  if isEmptyField (propOf element "taskId")
                  then ["Task ID is required"] else [])
        (wildcard recommendations))%list.

(** The handler of the route. A body that fails validation is answered with
    status 400 before anything else is looked at; [recommendations] that are
    no array have failed it. *)
Definition postApplyWorkloadOptimization (userId : option string)
  (body : value) (s : Store) : Response * Store :=
  match propOf body "recommendations" with
  | VArr recommendations =>
      match validationErrors body with
      | [] => applyWorkloadOptimization userId recommendations s
      | errors => (Status400 errors, s)
      end
  | _ => (Status400 (validationErrors body), s)
  end.

End Route.

(** An object-document mapper to evaluate the model with: identifiers are
    strings of 24 hexadecimal digits, and numbers, booleans and strings cast
    to strings. *)
Definition isObjectIdString (s : string) : bool :=
  (String.length s =? 24)%nat
  && forallb (fun c => match JSON.hexVal c with Some _ => true | None => false end)
       (list_ascii_of_string s).

#[export] Instance odm {R : Runtime} : Odm := {
  castObjectId v :=
    match v with
    | VStr s => if isObjectIdString s then Some s else None
    | _ => None
    end;
  castString v :=
    match v with
    | VStr _ | VNum _ | VBool _ => Some (String_ v)
    | _ => None
    end;
  castErrorMessage path := "Cast failed at path " ++ path
}.

(** A validator to evaluate the model with: numbers, booleans and objects
    have a text that is not empty, and an array is refused when one of its
    elements has an empty text. *)
#[export] Instance validator {R : Runtime} : Validator := {
  refusedAsEmpty v :=
    match v with
    | VArr elems =>
        existsb (fun e => match e with
                          | VUndefined | VNull => true
                          | _ => JsString.isEmpty (String_ e)
                          end) elems
    | _ => false
    end
}.

End Apply.

(** ** Running [optimizeWorkload] *)

(** The rest of the service as [optimizeWorkload] sees it when no call
    fails: the tasks the store holds for a user and the reply of the model. *)
Record Env : Type := {
  tasksOf : string -> list TaskContext;
  replyOf : string -> string -> ChatOptions -> string
}.

(** The outcome of a program in an environment, with the messages it sent
    to the model, in order. *)
Fixpoint runProg {A} (env : Env) (p : Prog A) : Js A * list string :=
  match p with
  | Return a => (inr a, [])
  | Raise e => (inl e, [])
  | RetrieveUserTasks userId k => runProg env (k (tasksOf env userId))
  | ChatWithOrganizer userId msg options k =>
      let (r, sent) := runProg env (k (replyOf env userId msg options)) in
      (r, msg :: sent)
  end.

(** The test the callback of [map] makes before it keeps an entry, read on
    the recommendation it would return: the date-only forms of the two due
    dates differ, an absent one differing from any date, or there is a
    suggested priority and it differs, letter case aside, from what the
    recommendation carries as current priority (the reply's value when the
    reply gives one). *)
Definition proposesChange (r : TaskRecommendation) : bool :=
  negb (optionString_eqb (option_map JsDate.isoDate (currentDueDate r))
                         (option_map JsDate.isoDate (suggestedDueDate r)))
  || match suggestedPriority r with
     | Some p =>
         negb (String.eqb (JsString.toLowerCase (currentPriority r))
                          (JsString.toLowerCase p))
     | None => false
     end.

(** ** The properties, as the specification words them *)

Section Suggested.

Context {R : Runtime}.




End Suggested.

(** A task may stand before another in the candidate order: higher priority
    first, then the earlier due date, a task with a due date before one
    without. *)
Definition precedes (a b : TaskContext) : Prop :=
  priorityOrder (priority b) < priorityOrder (priority a)
  \/ (priority a = priority b
      /\ match dueDate a, dueDate b with
         | Some ta, Some tb => ta <= tb
         | Some _, None => True
         | None, Some _ => False
         | None, None => True
         end).

(** Two tasks are ordered equally: same priority and same due date. *)
Definition sameRank (a b : TaskContext) : bool := compareTasks a b =? 0.

(** The days since 1970-01-01 on which two time values fall are the same:
    their date-only forms do not differ. *)
Definition sameDay (a b : Z) : bool :=
  a / JsDate.msPerDay =? b / JsDate.msPerDay.


(** Two code units are the same letter: equal, or a capital and its small
    letter. *)
Definition sameLetter (c d : ascii) : bool :=
  Ascii.eqb c d
  || (JsString.isUpper c && Ascii.eqb d (ascii_of_nat (nat_of_ascii c + 32)))
  || (JsString.isUpper d && Ascii.eqb c (ascii_of_nat (nat_of_ascii d + 32))).

(** Two texts are equal under case-insensitive comparison. *)
Fixpoint equalIgnoringCase (a b : string) : bool :=
  match a, b with
  | EmptyString, EmptyString => true
  | String c a', String d b' => sameLetter c d && equalIgnoringCase a' b'
  | _, _ => false
  end.

(** An entry proposes an actual change to a task, relative to the task's
    current values: it suggests a due date that falls on another day than
    the task's due date (or any, for a task that has none), or it suggests a
    priority that differs from the task's priority under case-insensitive
    comparison. An entry that suggests nothing proposes no change. *)
Definition actualChange (task : TaskContext) (suggestedDueDate : option Z)
  (suggestedPriority : option string) : bool :=
  match suggestedDueDate with
  | Some suggested =>
      match dueDate task with
      | Some current => negb (sameDay current suggested)
      | None => true
      end
  | None => false
  end
  || match suggestedPriority with
     | Some p =>
         negb (equalIgnoringCase (TaskPriority_value (priority task)) p)
     | None => false
     end.

(** The three extraction strategies of the specification, each with what it
    yields: a non-empty text or nothing. *)
Definition nonEmpty (s : string) : option string :=
  if JsString.isEmpty s then None else Some s.

Definition codeBlockStrategy (aiResponse : string) : option string :=
  match Regex.match_ aiResponse codeBlockPattern with
  | Some m => match Regex.m1 m with Some g => nonEmpty g | None => None end
  | None => None
  end.

Definition jsonObjectStrategy (aiResponse : string) : option string :=
  match Regex.match_ aiResponse jsonObjectPattern with
  | Some m => Some (Regex.m0 m)
  | None => None
  end.

Definition anyJsonStrategy (aiResponse : string) : option string :=
  match Regex.match_ aiResponse anyJsonPattern with
  | Some m => Some (Regex.m0 m)
  | None => None
  end.

(** A text is parseable JSON once cleaned as the extractor cleans it. *)
Definition parseable (s : string) : bool :=
  match JSON.parse (cleanJson s) with
  | inr _ => true
  | inl _ => false
  end.

(** The specification's reading of the extraction: the strategies are tried
    in order until one yields parseable JSON. *)
Definition firstParseable (aiResponse : string) : option string :=
  find parseable
    (List.concat
       (map (fun o : option string => match o with Some s => [s] | None => [] end)
            [codeBlockStrategy aiResponse; jsonObjectStrategy aiResponse;
             anyJsonStrategy aiResponse])).

(** Every field of a task document but the due date and the priority. *)
Definition otherFields (t : Apply.Task)
  : string * string * string * option string * TaskStatus * option Z
    * Z * list string * Z * Z :=
  (Apply._id t, Apply.userId t, Apply.title t, Apply.description t,
   Apply.status t, Apply.completedAt t, Apply.points t, Apply.tags t,
   Apply.createdAt t, Apply.updatedAt t).

(** A value the property accessor does not throw on. *)
Definition notNullish (v : value) : bool :=
  match v with
  | VUndefined | VNull => false
  | _ => true
  end.

(** An entry the handler can name in a message: it is not [null], and its
    task identifier converts to a string. *)
Definition nameable (rec : value) : bool :=
  notNullish rec && negb (throwsOnString (propOf rec "taskId")).

Section AsSpecified.

Context {R : Runtime}.

(** The entry names a task of the user's: the store holds a task with the
    identifier the entry gives whose owner is the user. *)
Definition resolves (s : Apply.Store) (user : string) (rec : value) : bool :=
  existsb (fun t => String.eqb (Apply._id t) (String_ (propOf rec "taskId"))
                    && String.eqb (Apply.userId t) user)
    (Apply.docs s).

Definition sameDueDate (a b : option Z) : bool :=
  match a, b with
  | Some x, Some y => x =? y
  | None, None => true
  | _, _ => false
  end.

(** The number of tasks a request has updated: the documents whose due date
    or priority is not what it was. *)
Definition tasksUpdated (s s' : Apply.Store) : nat :=
  List.length
    (filter (fun tt => negb (String.eqb (Apply.priority (fst tt))
                                        (Apply.priority (snd tt))
                             && sameDueDate (Apply.dueDate (fst tt))
                                            (Apply.dueDate (snd tt))))
       (combine (Apply.docs s) (Apply.docs s'))).

(** The report of the apply endpoint as the specification words it, for a
    batch and the reply to it: the batch is not refused, each entry that
    names no task of the user's is reported as [Task <id> not found], and
    [updated] is the number of tasks updated. *)
Definition reportedAsSpecified (user : string) (recs : list value)
  (s : Apply.Store) (reply : Apply.Response * Apply.Store) : Prop :=
  exists updated errors msg,
    fst reply = Apply.Success updated errors msg
    /\ updated = tasksUpdated s (snd reply)
    /\ forall rec,
         In rec recs ->
         resolves s user rec = false ->
         exists l, errors = Some l
           /\ In ("Task " ++ String_ (propOf rec "taskId") ++ " not found") l.

End AsSpecified.

(** ** Example data *)

Module Examples.

Import JsString.

Definition task (i : string) (p : TaskPriority) (s : TaskStatus)
  (due : option Z) : TaskContext :=
  {| id := i; title := "Task " ++ i; description := None; priority := p;
     status := s; taskTime := None; dueDate := due; completedAt := None;
     points := 10; tags := []; createdAt := 0; updatedAt := 0;
     isOverdue := None |}.

(** 2024-01-01T00:00:00.000Z *)
Definition jan1 : Z := 1704067200000.

Definition taskA : TaskContext := task "A" URGENT PENDING (Some jan1).
Definition taskB : TaskContext := task "B" URGENT IN_PROGRESS (Some jan1).
Definition taskC : TaskContext := task "C" LOW PENDING None.
Definition taskD : TaskContext := task "D" HIGH COMPLETED (Some jan1).

(** A reply that wraps its JSON in a code block. *)
Definition fenced (json : string) : string :=
  "Here is the plan:" ++ newline ++ "```json" ++ newline ++ json ++ newline
    ++ "```" ++ newline ++ "Done.".

(** The model suggests for task A the due date and the priority it has. *)
Definition replyNoChange : string :=
  fenced (q "{'recommendations':[{'taskId':'A','suggestedDueDate':'2024-01-01','suggestedPriority':'urgent','reason':'keep'}]}").

(** Task A moved to 2024-01-05, a task the model invented, and task B
    unchanged. *)
Definition replyMixed : string :=
  fenced (q "{'recommendations':[{'taskId':'A','suggestedDueDate':'2024-01-05','suggestedPriority':'high'},{'taskId':'Z','suggestedDueDate':'2024-01-05'},{'taskId':'B','suggestedDueDate':'2024-01-01T09:30:00.000Z','suggestedPriority':'URGENT'}]}").


(** The model suggests for task A the priority it has, and no due date. *)
Definition replyPriorityOnly : string :=
  fenced (q "{'recommendations':[{'taskId':'A','suggestedPriority':'urgent','reason':'keep'}]}").

(** The model reports task C, whose priority is low, as high, and suggests
    low. *)
Definition replyEcho : string :=
  fenced (q "{'recommendations':[{'taskId':'C','currentPriority':'high','suggestedPriority':'low'}]}").

(** A reply that is the JSON object and nothing else. *)
Definition replyBare : string :=
  q "{'recommendations':[{'taskId':'A','suggestedDueDate':'2024-01-05'}]}".

(** A JSON object, then a code block that holds no JSON. *)
Definition replyTwoObjects : string :=
  q "{'recommendations':[]} as in ```{see above}```".


Definition env (tasks : list TaskContext) (reply : string) : Env :=
  {| tasksOf := fun _ => tasks; replyOf := fun _ _ _ => reply |}.

(** Two users and their tasks in the store. *)
Definition alice : string := "64b000000000000000000001".
Definition bob : string := "64b000000000000000000002".

Definition doc (i owner p : string) (due : option Z) : Apply.Task :=
  {| Apply._id := i; Apply.userId := owner; Apply.title := "Task " ++ i;
     Apply.description := None; Apply.priority := p; Apply.status := PENDING;
     Apply.dueDate := due; Apply.completedAt := None; Apply.points := 10;
     Apply.tags := []; Apply.createdAt := 0; Apply.updatedAt := 0 |}.

Definition id1 : string := "64a000000000000000000001".
Definition id2 : string := "64a000000000000000000002".
Definition id3 : string := "64a000000000000000000003".
Definition idMissing : string := "64a0000000000000000000ff".

Definition store0 : Apply.Store :=
  {| Apply.docs := [doc id1 alice "low" (Some jan1);
                    doc id2 bob "high" (Some jan1);
                    doc id3 alice "medium" None];
     Apply.writes := 0 |}.

Definition entry (i : string) (fields : list (string * value)) : value :=
  VObj (("taskId", VStr i) :: fields).

(** The state in which the loop of the handler starts. *)
Definition loop0 : Apply.LoopState :=
  {| Apply.store := store0; Apply.updatedTasks := []; Apply.errors_list := [] |}.

(** The body of a request that submits a batch. *)
Definition batch (recs : list value) : value :=
  VObj [("recommendations", VArr recs)].

(** A batch whose second entry has no task identifier. *)
Definition recsNoId : list value :=
  [entry id1 [("suggestedPriority", VStr "urgent")];
   VObj [("suggestedPriority", VStr "low")]].

(** A batch for a task that does not exist, under an identifier that is not
    one of the store's. *)
Definition recsNope : list value :=
  [entry "nope" [("suggestedPriority", VStr "low")]].

(** A batch whose second entry has an object for a task identifier, one
    that does not convert to a string. *)
Definition recsUnnameable : list value :=
  [entry id1 [("suggestedPriority", VStr "urgent")];
   VObj [("taskId", VObj [("toString", VNum "1")]);
         ("suggestedPriority", VStr "low")]].

(** The scenario of the specification and more: a task of the user's, a
    task that does not exist, a task of another user, and an identifier that
    is not one of the store's. *)
Definition recsScenario : list value :=
  [entry id1 [("suggestedPriority", VStr "urgent")];
   entry idMissing [("suggestedPriority", VStr "low")];
   entry id2 [("suggestedPriority", VStr "low")];
   entry "nope" [("suggestedPriority", VStr "low")]].

(** A batch that names the same task twice. *)
Definition recsTwice : list value :=
  [entry id1 [("suggestedPriority", VStr "urgent")];
   entry id1 [("suggestedDueDate", VStr "2024-01-05")]].

End Examples.

(** A document [t'] is [t] after a partial update: every other field is
    kept, the due date is kept when [keepDueDate], the priority when
    [keepPriority], and a due date is never removed. *)
Definition partialUpdate (keepDueDate keepPriority : bool)
  (t t' : Apply.Task) : Prop :=
  otherFields t' = otherFields t
  /\ (keepDueDate = true -> Apply.dueDate t' = Apply.dueDate t)
  /\ (keepPriority = true -> Apply.priority t' = Apply.priority t)
  /\ (Apply.dueDate t <> None -> Apply.dueDate t' <> None).

(** ** The organizer service: context retrieval *)

Module Service.

(** Modelled from the spec: the user document of [models/User], which is not
    part of the sources at hand, with the fields [retrieveUserData] reads. *)
Record User : Type := {
  _id : string;
  name : string;
  email : string;
  level : Z;
  xp : Z;
  totalTasksCompleted : Z;
  timezone : string;
  dailyGoalXP : Z
}.

(** [interface UserContext]; [preferences] is flattened. *)
Record UserContext : Type := {
  userId : string;
  userName : string;
  userEmail : string;
  userLevel : Z;
  userXp : Z;
  userTotalTasksCompleted : Z;
  preferencesTimezone : string;
  preferencesDailyGoalXP : Z
}.

(** The [stats] of [interface RetrievedContext]. *)
Record Stats : Type := {
  totalTasks : nat;
  pendingTasks : nat;
  inProgressTasks : nat;
  completedTasks : nat;
  overdueTasks : nat
}.

(** [interface RetrievedContext]. *)
Record RetrievedContext : Type := {
  user : UserContext;
  tasks : list TaskContext;
  stats : Stats
}.

(** The two collections the service reads. *)
Record Database : Type := {
  users : list User;
  taskDocs : list Apply.Task
}.

(** A computation that throws an [Error] with a message, or returns. *)
Definition Result (A : Type) : Type := string + A.

Section Retrieval.

Context {O : Apply.Odm}.

(** [mongoose.Types.ObjectId.isValid]. *)
Variable ObjectId_isValid : string -> bool.

(** The stored priority at the type the document interface gives it,
    [TaskPriority]. *)
Variable asPriority : string -> TaskPriority.

(** The clock: the time value of [new Date()] when the [n]-th document of
    a query is looked at. *)
Variable clock : nat -> Z.

(** [retrieveUserData]. A query whose identifier cannot be cast rejects
    with the message of the cast error. *)
Definition retrieveUserData (db : Database) (userId : string)
  : Result (option UserContext) :=
  if negb (ObjectId_isValid userId) then inl "Invalid user ID format"
  else
    match Apply.castObjectId (VStr userId) with
    | None => inl (Apply.castErrorMessage "_id")
    | Some oid =>
        inr (option_map
               (fun u =>
                  {| userId := _id u;
                     userName := name u;
                     userEmail := email u;
                     userLevel := level u;
                     userXp := xp u;
                     userTotalTasksCompleted := totalTasksCompleted u;
                     preferencesTimezone := timezone u;
                     preferencesDailyGoalXP := dailyGoalXP u |})
               (find (fun u => String.eqb (_id u) oid) (users db)))
    end.

(** The order of [sort({ createdAt: -1 })]. *)
Definition newerFirst (a b : Apply.Task) : Z :=
  Apply.createdAt b - Apply.createdAt a.

(** [Task.find({ userId }).sort({ createdAt: -1 })]: the documents of the
    user, newest first. (The order the store gives to documents created at
    the same time is its own; here they keep their order of storage.) *)
Definition findTasksOf (db : Database) (oid : string) : list Apply.Task :=
  Array_sort newerFirst
    (filter (fun t => String.eqb (Apply.userId t) oid) (taskDocs db)).

(** The callback of [tasks.map]: the context of the [n]-th document (the
    first is document 0), for which [new Date()] reads [clock n]. With a
    due date that is absent or [null], [task.dueDate && ...] is that
    [undefined] or [null], and so is the flag: [None]; with a due date it
    is a boolean. The document type of the spec has no task time. *)
Definition toTaskContext (n : nat) (task : Apply.Task) : TaskContext :=
  let isOverdue :=
    match Apply.dueDate task with
    | Some due =>
        Some ((due <? clock n)
              && negb (TaskStatus_eqb (Apply.status task) COMPLETED))
    | None => None
    end in
  {| id := Apply._id task;
     title := Apply.title task;
     description := Apply.description task;
     priority := asPriority (Apply.priority task);
     status := Apply.status task;
     taskTime := None;
     dueDate := Apply.dueDate task;
     completedAt := Apply.completedAt task;
     points := Apply.points task;
     tags := Apply.tags task;
     createdAt := Apply.createdAt task;
     updatedAt := Apply.updatedAt task;
     isOverdue := isOverdue |}.

(** [retrieveUserTasks]. *)
Definition retrieveUserTasks (db : Database) (userId : string)
  : Result (list TaskContext) :=
  if negb (ObjectId_isValid userId) then inl "Invalid user ID format"
  else
    match Apply.castObjectId (VStr userId) with
    | None => inl (Apply.castErrorMessage "userId")
    | Some oid => inr (mapi_from 0 toTaskContext (findTasksOf db oid))
    end.

Definition countIf {A} (p : A -> bool) (l : list A) : nat :=
  List.length (filter p l).

(** [retrieveCompleteContext]. Of two rejections [Promise.all] reports the
    first, that of [retrieveUserData]. *)
Definition retrieveCompleteContext (db : Database) (userId : string)
  : Result RetrievedContext :=
  match retrieveUserData db userId, retrieveUserTasks db userId with
  | inl e, _ => inl e
  | inr _, inl e => inl e
  | inr None, inr _ => inl "User not found"
  | inr (Some u), inr ts =>
      inr {| user := u;
             tasks := ts;
             stats :=
               {| totalTasks := List.length ts;
                  pendingTasks :=
                    countIf (fun t => TaskStatus_eqb (status t) PENDING) ts;
                  inProgressTasks :=
                    countIf (fun t => TaskStatus_eqb (status t) IN_PROGRESS) ts;
                  completedTasks :=
                    countIf (fun t => TaskStatus_eqb (status t) COMPLETED) ts;
                  overdueTasks :=
                    countIf (fun t => match isOverdue t with
                                      | Some b => b
                                      | None => false
                                      end) ts |} |}
  end.

End Retrieval.

(** A document is not older than another. *)
Definition notOlder (a b : Apply.Task) : Prop :=
  Apply.createdAt b <= Apply.createdAt a.

End Service.

(** ** The organizer service: the prompt context *)

Module Prompt.

Import Service.

(** [s.toUpperCase()] for a text of ASCII letters, as the values of
    [TaskPriority] are. *)
Fixpoint upperAscii (s : string) : string :=
  match s with
  | EmptyString => EmptyString
  | String c s' =>
      let n := nat_of_ascii c in
      String (if ((97 <=? n) && (n <=? 122))%nat then ascii_of_nat (n - 32) else c)
             (upperAscii s')
  end.

(** The warning sign of the overdue mark, U+26A0 U+FE0F, in its UTF-8
    encoding. *)
Definition warningSign : string :=
  string_of_list_ascii
    (map ascii_of_nat [226; 154; 160; 239; 184; 143]%nat).

(** [formatTask(task, index)]. *)
Definition formatTask (task : TaskContext) (index : Z) : string :=
  let line1 :=
    Z_toString index ++ ". [" ++ upperAscii (TaskPriority_value (priority task))
      ++ "] " ++ title task ++ newline in
  let withDescription :=
    match description task with
    | Some d =>
        if JsString.isEmpty d then line1
        else line1 ++ "   Description: " ++ d ++ newline
    | None => line1
    end in
  let withDue :=
    match dueDate task with
    | Some due =>
        withDescription ++ "   Due: " ++ JsDate.isoDate due
          ++ (match isOverdue task with
              | Some true => " " ++ warningSign ++ " OVERDUE"
              | _ => EmptyString
              end)
          ++ newline
    | None => withDescription
    end in
  let withTags :=
    match tags task with
    | [] => withDue
    | _ => withDue ++ "   Tags: " ++ JsString.join ", " (tags task) ++ newline
    end in
  withTags ++ "   Points: " ++ Z_toString (points task) ++ " XP" ++ newline.

(** The [forEach] loops: [prompt += formatTask(task, idx + 1)]. *)
Definition formatTasks (ts : list TaskContext) : string :=
  String.concat EmptyString
    (mapi_from 0 (fun idx task => formatTask task (Z.of_nat idx + 1)) ts).

Definition natString (n : nat) : string := Z_toString (Z.of_nat n).

Definition withStatus (s : TaskStatus) (t : TaskContext) : bool :=
  TaskStatus_eqb (status t) s.

(** The part of the prompt under [# TASK LIST]. *)
Definition formatTaskList (ts : list TaskContext) : string :=
  match ts with
  | [] => "No tasks found." ++ newline
  | _ =>
      let pending := filter (withStatus PENDING) ts in
      let inProgress := filter (withStatus IN_PROGRESS) ts in
      let completed := filter (withStatus COMPLETED) ts in
      (match pending with
       | [] => EmptyString
       | _ => "## PENDING TASKS (" ++ natString (List.length pending) ++ ")"
                ++ newline ++ formatTasks pending ++ newline
       end)
      ++ (match inProgress with
          | [] => EmptyString
          | _ => "## IN PROGRESS TASKS (" ++ natString (List.length inProgress)
                   ++ ")" ++ newline ++ formatTasks inProgress ++ newline
          end)
      ++ (match completed with
          | [] => EmptyString
          | _ => "## COMPLETED TASKS (" ++ natString (List.length completed)
                   ++ ")" ++ newline ++ formatTasks (firstn 10 completed)
                   ++ (if (10 <? List.length completed)%nat
                       then "... and " ++ natString (List.length completed - 10)
                              ++ " more completed tasks" ++ newline
                       else EmptyString)
                   ++ newline
          end)
  end.

(** [formatContextForPrompt(context)]. *)
Definition formatContextForPrompt (context : RetrievedContext) : string :=
  let u := user context in
  let st := stats context in
  "# USER PROFILE" ++ newline
  ++ "Name: " ++ userName u ++ newline
  ++ "Level: " ++ Z_toString (userLevel u) ++ " | XP: " ++ Z_toString (userXp u)
  ++ newline
  ++ "Completed Tasks: " ++ Z_toString (userTotalTasksCompleted u) ++ newline
  ++ "Daily Goal: " ++ Z_toString (preferencesDailyGoalXP u) ++ " XP" ++ newline
  ++ "Timezone: " ++ preferencesTimezone u ++ newline ++ newline
  ++ "# TASK STATISTICS" ++ newline
  ++ "Total Tasks: " ++ natString (totalTasks st) ++ newline
  ++ "Pending: " ++ natString (pendingTasks st) ++ " | In Progress: "
  ++ natString (inProgressTasks st) ++ newline
  ++ "Completed: " ++ natString (completedTasks st) ++ " | Overdue: "
  ++ natString (overdueTasks st) ++ newline ++ newline
  ++ "# TASK LIST" ++ newline
  ++ formatTaskList (tasks context).

(** The system prompt of [chatWithOrganizer], up to the context. *)
Definition systemPromptHead : string :=
"You are an intelligent task organization assistant for LVL.AI, a gamified task management platform.

You have access to the user's complete profile and task data. Use this information to provide personalized, actionable advice on task organization, prioritization, and productivity.

CAPABILITIES:
- Analyze task lists and identify patterns
- Suggest task prioritization strategies
- Recommend task breakdown for complex items
- Identify overdue tasks and suggest recovery plans
- Provide time management insights
- Suggest task groupings by tags/categories
- Motivate users based on their progress

GUIDELINES:
- Be specific and reference actual tasks when relevant
- Consider the user's level, XP, and goals
- Acknowledge overdue tasks with empathy
- Suggest realistic, achievable action plans
- Use the gamification elements (XP, levels) for motivation
- Keep responses concise but informative

CONTEXT:
".

Definition systemPrompt (contextPrompt : string) : string :=
  systemPromptHead ++ contextPrompt.

(** A text occurs in another. *)
Definition occursIn (part whole : string) : Prop :=
  exists before after, whole = before ++ part ++ after.

End Prompt.

(** ** The organizer service: the model gateway *)

Module Gateway.

Import Service Prompt.

(** The credentials of the configuration; [None] is an unset variable. *)
Record Keys : Type := {
  DEEPSEEK_API_KEY : option string;
  OPENROUTER_API_KEY : option string
}.

Definition isSet (key : option string) : bool :=
  match key with
  | Some s => negb (JsString.isEmpty s)
  | None => false
  end.

Definition noProviderMessage : string :=
  "No AI provider configured. Please set either DEEPSEEK_API_KEY or OPENROUTER_API_KEY".

(** [getPreferredAIProvider()]. *)
Definition getPreferredAIProvider (env : Keys) : Result AIProvider :=
  if isSet (DEEPSEEK_API_KEY env) then inr langchain
  else if isSet (OPENROUTER_API_KEY env) then inr openrouter
  else inl noProviderMessage.

(** A JavaScript number: a finite one, by the value its numeral denotes,
    [NaN], or an infinity. *)
Inductive Number : Type :=
| Finite (q : Q)
| NaN
| Infinity (negative : bool).

(** The [options] of [chatWithOrganizer]; [None] is an absent property. *)
Record ChatWith : Type := {
  withTemperature : option Number;
  withMaxTokens : option Number;
  withProvider : option AIProvider
}.

(** The argument of [client.chat.completions.create]. *)
Record CompletionRequest : Type := {
  model : string;
  systemContent : string;
  userContent : string;
  requestTemperature : Number;
  max_tokens : Number
}.

(** What the gateway awaits: the context of the user, the client of the
    OpenAI package, and one of the two providers. *)
Inductive Agent (A : Type) : Type :=
| Resolve (a : A)
| Reject (msg : string)
| RetrieveContext (userId : string) (k : RetrievedContext -> Agent A)
| AskLVLBot (systemPrompt userMessage : string) (temperature : option Number)
    (k : string -> Agent A)
| NewOpenAI (apiKey : option string) (baseURL : string) (k : Agent A)
| CreateCompletion (request : CompletionRequest) (k : option string -> Agent A).

Arguments Resolve {A} a.
Arguments Reject {A} msg.
Arguments RetrieveContext {A} userId k.
Arguments AskLVLBot {A} systemPrompt userMessage temperature k.
Arguments NewOpenAI {A} apiKey baseURL k.
Arguments CreateCompletion {A} request k.

(** [callOpenRouterWithContext]: the client is made with the key of the
    configuration, whether it is set or not, and then the completion is
    asked for; the content of the first choice is [None] when there is
    none. The [catch] block throws the error again. *)
Definition callOpenRouterWithContext (env : Keys)
  (systemPrompt userMessage : string)
  (temperature maxTokens : option Number) : Agent string :=
  NewOpenAI (OPENROUTER_API_KEY env) "https://openrouter.ai/api/v1"
    (CreateCompletion
       {| model := "deepseek/deepseek-chat";
          systemContent := systemPrompt;
          userContent := userMessage;
          requestTemperature :=
            match temperature with Some t => t | None => Finite (7 # 10) end;
          max_tokens :=
            match maxTokens with Some n => n | None => Finite (inject_Z 1000) end |}
       (fun content =>
          match content with
          | Some aiResponse =>
              if JsString.isEmpty aiResponse
              then Reject "No response from OpenRouter AI model"
              else Resolve aiResponse
          | None => Reject "No response from OpenRouter AI model"
          end)).

(** [chatWithOrganizer(userId, userMessage, options)]. *)
Definition chatWithOrganizer (env : Keys) (userId userMessage : string)
  (options : option ChatWith) : Agent string :=
  RetrieveContext userId (fun context =>
    let contextPrompt := formatContextForPrompt context in
    let system := systemPrompt contextPrompt in
    let chosen :=
      match options with
      | Some o =>
          match withProvider o with
          | Some p => inr p
          | None => getPreferredAIProvider env
          end
      | None => getPreferredAIProvider env
      end in
    match chosen with
    | inl e => Reject e
    | inr langchain =>
        AskLVLBot system userMessage
          (match options with Some o => withTemperature o | None => None end)
          Resolve
    | inr openrouter =>
        callOpenRouterWithContext env system userMessage
          (match options with Some o => withTemperature o | None => None end)
          (match options with Some o => withMaxTokens o | None => None end)
    end).

(** The provider the caller of [chatWithOrganizer] asked for. *)
Definition requested (options : option ChatWith) : option AIProvider :=
  match options with
  | Some o => withProvider o
  | None => None
  end.

(** The options [optimizeWorkload] passes, as [chatWithOrganizer] reads
    them. *)
Definition chatWithOf (o : ChatOptions) : ChatWith :=
  {| withTemperature := Some (Finite (temperature o));
     withMaxTokens := Some (Finite (inject_Z (maxTokens o)));
     withProvider := chatProvider o |}.

(** A request handed to a provider: a call of [askLVLBot], whose code is
    not part of the sources at hand, or a completion asked of the client of
    OpenRouter. *)
Inductive ProviderCall : Type :=
| ViaLangchain (systemPrompt userMessage : string)
    (temperature : option Number)
| ViaOpenRouter (request : CompletionRequest).

Definition callProvider (c : ProviderCall) : AIProvider :=
  match c with
  | ViaLangchain _ _ _ => langchain
  | ViaOpenRouter _ => openrouter
  end.

Definition callSystemPrompt (c : ProviderCall) : string :=
  match c with
  | ViaLangchain system _ _ => system
  | ViaOpenRouter request => systemContent request
  end.

Definition callUserMessage (c : ProviderCall) : string :=
  match c with
  | ViaLangchain _ msg _ => msg
  | ViaOpenRouter request => userContent request
  end.

Definition callTemperature (c : ProviderCall) : option Number :=
  match c with
  | ViaLangchain _ _ t => t
  | ViaOpenRouter request => Some (requestTemperature request)
  end.


(** The world around the service: the database, the configuration, the
    constructor of the OpenAI package and the two providers, each of which
    replies or fails with a message. [clientError apiKey] is the message of
    the error that making the client throws, in the import of the package
    or in [new OpenAI({ apiKey, baseURL })], and [None] when a client is
    returned: the package refuses an [apiKey] that is undefined unless its
    own variable [OPENAI_API_KEY] is set. *)
Record World : Type := {
  database : Database;
  keys : Keys;
  clientError : option string -> option string;
  langchainReply : string -> string -> option Number -> Result string;
  completionContent : CompletionRequest -> Result (option string)
}.

Section Run.

Context {O : Apply.Odm}.
Variable ObjectId_isValid : string -> bool.
Variable asPriority : string -> TaskPriority.
Variable clock : nat -> Z.

(** The outcome of a gateway program and the requests that reached a
    provider, in order. *)
Fixpoint runAgent {A} (w : World) (p : Agent A) : Result A * list ProviderCall :=
  match p with
  | Resolve a => (inr a, [])
  | Reject e => (inl e, [])
  | RetrieveContext userId k =>
      match retrieveCompleteContext ObjectId_isValid asPriority clock
              (database w) userId with
      | inl e => (inl e, [])
      | inr context => runAgent w (k context)
      end
  | AskLVLBot system msg t k =>
      match langchainReply w system msg t with
      | inl e => (inl e, [ViaLangchain system msg t])
      | inr reply =>
          let (r, calls) := runAgent w (k reply) in
          (r, ViaLangchain system msg t :: calls)
      end
  | NewOpenAI apiKey _ k =>
      match clientError w apiKey with
      | Some e => (inl e, [])
      | None => runAgent w k
      end
  | CreateCompletion request k =>
      match completionContent w request with
      | inl e => (inl e, [ViaOpenRouter request])
      | inr content =>
          let (r, calls) := runAgent w (k content) in
          (r, ViaOpenRouter request :: calls)
      end
  end.

(** [optimizeWorkload] with its two awaited calls carried out by
    [retrieveUserTasks] and [chatWithOrganizer]. *)
Fixpoint runOptimize {A} (w : World) (p : Prog A)
  : Result A * list ProviderCall :=
  match p with
  | Return a => (inr a, [])
  | Raise e => (inl (message e), [])
  | RetrieveUserTasks userId k =>
      match retrieveUserTasks ObjectId_isValid asPriority clock
              (database w) userId with
      | inl e => (inl e, [])
      | inr ts => runOptimize w (k ts)
      end
  | ChatWithOrganizer userId msg options k =>
      match runAgent w (chatWithOrganizer (keys w) userId msg
                          (Some (chatWithOf options))) with
      | (inl e, calls) => (inl e, calls)
      | (inr reply, calls) =>
          let (r, calls') := runOptimize w (k reply) in
          (r, (calls ++ calls')%list)
      end
  end.


End Run.

End Gateway.

(** ** From the service to the page and back: the JSON of a response *)

Module Wire.

(** [date.toISOString()] for a valid date with time value [t]. *)
Definition toISOString (t : Z) : string :=
  let ms := t mod JsDate.msPerDay in
  JsDate.isoDate t ++ "T" ++ JsDate.padded 2 (ms / 3600000)
    ++ ":" ++ JsDate.padded 2 (ms / 60000 mod 60)
    ++ ":" ++ JsDate.padded 2 (ms / 1000 mod 60)
    ++ "." ++ JsDate.padded 3 (ms mod 1000) ++ "Z".

Section Encode.

Context {R : Runtime}.

(** A value after [JSON.stringify] and [JSON.parse]: a number is written
    anew, [undefined] becomes [null] in an array and is left out of an
    object. *)
Fixpoint throughJSON (v : value) : value :=
  match v with
  | VUndefined => VNull
  | VNull => VNull
  | VBool b => VBool b
  | VNum n => VNum (Number_toString n)
  | VStr s => VStr s
  | VArr l => VArr (map throughJSON l)
  | VObj fields =>
      VObj (flat_map (fun kv =>
                        match kv with
                        | (_, VUndefined) => []
                        | (k, x) => [(k, throughJSON x)]
                        end) fields)
  end.

(** A [Date | null] property. *)
Definition dateToJSON (d : option Z) : value :=
  match d with
  | Some t => VStr (toISOString t)
  | None => VNull
  end.

(** A recommendation as [res.json] sends it and the page receives it: the
    dates in their ISO form, and no [suggestedPriority] when it is
    [undefined]. *)
Definition recommendationToJSON (r : TaskRecommendation) : value :=
  VObj ([("taskId", VStr (taskId r));
         ("taskTitle", throughJSON (taskTitle r));
         ("currentDueDate", dateToJSON (currentDueDate r));
         ("suggestedDueDate", dateToJSON (suggestedDueDate r));
         ("currentPriority", VStr (currentPriority r))]
        ++ match suggestedPriority r with
           | Some p => [("suggestedPriority", VStr p)]
           | None => []
           end
        ++ [("reason", throughJSON (reason r))])%list.

(** The body of the reply of [POST /apply-workload-optimization]; a
    property that is [undefined] is not sent, and of a validation error the
    message is shown. *)
Definition applyResponseBody (response : Apply.Response) : value :=
  match response with
  | Apply.Success updated errors msg =>
      VObj ([("success", VBool true);
             ("updated", VNum (Z_toString (Z.of_nat updated)))]
            ++ match errors with
               | Some l => [("errors", VArr (map VStr l))]
               | None => []
               end
            ++ [("message", VStr msg)])%list
  | Apply.Status400 errors =>
      VObj [("success", VBool false);
            ("errors", VArr (map (fun m => VObj [("msg", VStr m)]) errors))]
  | Apply.Status401 msg =>
      VObj [("success", VBool false); ("message", VStr msg)]
  | Apply.Status500 msg error =>
      VObj [("success", VBool false); ("message", VStr msg);
            ("error", VStr error)]
  end.

End Encode.

(** The priority a recommendation makes the handler write: the handler
    skips an empty one. *)
Definition writtenPriority (r : TaskRecommendation) : option string :=
  match suggestedPriority r with
  | Some p => if JsString.isEmpty p then None else Some p
  | None => None
  end.

(** Does the recommendation make the handler write a field? *)
Definition writesSomething (r : TaskRecommendation) : bool :=
  match suggestedDueDate r, writtenPriority r with
  | None, None => false
  | _, _ => true
  end.

(** The identifier and the owner of each document, in order. *)
Definition keysOf (l : list Apply.Task) : list (string * string) :=
  map (fun d => (Apply._id d, Apply.userId d)) l.

End Wire.

(** ** The routes [GET /workload-optimization] and [POST /chat] *)

Module Routes.

(** *** The options of [GET /workload-optimization] *)

Section Query.

(** The global [parseInt] on a string; [None] is [NaN]. *)
Variable parseInt : string -> option Z.

(** [req.query[name] ? parseInt(req.query[name]) : dflt], for a parameter
    given at most once: absent, or a string. *)
Definition queryNumber (q : option string) (dflt : Z) : option Z :=
  match q with
  | Some s => if JsString.isEmpty s then Some dflt else parseInt s
  | None => Some dflt
  end.

(** The options the handler passes to [optimizeWorkload]: [{ days,
    maxTasks }]. *)
Definition optimizationOptions (queryDays queryMaxTasks : option string)
  : Options :=
  {| provider := None;
     days := queryNumber queryDays 7;
     maxTasks := queryNumber queryMaxTasks 15 |}.

End Query.

(** *** [POST /chat] *)

Section Chat.

Context {R : Runtime} {O : Apply.Odm}.
Variable ObjectId_isValid : string -> bool.
Variable asPriority : string -> TaskPriority.
Variable clock : nat -> Z.

(** The globals [parseFloat] and [parseInt] on a string. *)
Variable parseFloat : string -> Gateway.Number.
Variable parseInt : string -> Gateway.Number.

(** The provider [chatWithOrganizer] makes of [options.provider], which
    the handler passes on as it came: the service compares it with
    ['langchain'] and takes every other value to its [else] branch. *)
Definition providerOf (provider : value) : AIProvider :=
  match provider with
  | VStr s => if String.eqb s "langchain" then langchain else openrouter
  | _ => openrouter
  end.

(** The third argument of the call of [chatWithOrganizer]: [options], or
    [undefined] when it has no key. *)
Definition chatOptions (body : value) : option Gateway.ChatWith :=
  let temperature := propOf body "temperature" in
  let maxTokens := propOf body "maxTokens" in
  let provider := propOf body "provider" in
  if truthy temperature || truthy maxTokens || truthy provider then
    Some {| Gateway.withTemperature :=
              if truthy temperature
              then Some (parseFloat (String_ temperature)) else None;
            Gateway.withMaxTokens :=
              if truthy maxTokens
              then Some (parseInt (String_ maxTokens)) else None;
            Gateway.withProvider :=
              if truthy provider then Some (providerOf provider) else None |}
  else None.

(** The replies of the handler: [res.json] with the response of the model,
    status 401, or status 500 with the message of the error. *)
Inductive ChatReply : Type :=
| ChatOk (response : string)
| ChatUnauthenticated
| ChatFailed (error : string).

(** The handler from the point where validation has passed: the body is an
    object whose [message] is a string. *)
Definition chat (w : Gateway.World) (userId : option string) (body : value)
  : ChatReply * list Gateway.ProviderCall :=
  match userId with
  | None => (ChatUnauthenticated, [])
  | Some user =>
      match Gateway.runAgent ObjectId_isValid asPriority clock w
              (Gateway.chatWithOrganizer (Gateway.keys w) user
                 (String_ (propOf body "message")) (chatOptions body)) with
      | (inr response, calls) => (ChatOk response, calls)
      | (inl error, calls) => (ChatFailed error, calls)
      end
  end.

End Chat.

End Routes.

(** ** The workload page *)

Module Page.

(** [new Set(ids)]: the identifiers in the order they were first added. *)
Fixpoint Set_of (ids : list string) : list string :=
  match ids with
  | [] => []
  | i :: rest => i :: filter (fun j => negb (String.eqb j i)) (Set_of rest)
  end.

Definition Set_has (s : list string) (i : string) : bool :=
  existsb (String.eqb i) s.

Definition Set_delete (s : list string) (i : string) : list string :=
  filter (fun j => negb (String.eqb j i)) s.

Definition Set_add (s : list string) (i : string) : list string :=
  if Set_has s i then s else (s ++ [i])%list.

Section Handlers.

Context {R : Runtime}.

(** The state of the page that the handlers of the recommendations
    write. *)
Record State : Type := {
  recommendations : list value;
  selectedRecommendations : list string;
  error : option string;
  success : option string
}.

(** [r.taskId] of a recommendation the page holds; the interface of the
    client types it as a string. *)
Definition taskIdOf (r : value) : string := String_ (propOf r "taskId").

(** [handleOptimize] once the response is there: [recs] is
    [response.recommendations || []]. *)
Definition handleOptimize (recs : list value) : State :=
  {| recommendations := recs;
     selectedRecommendations :=
       match recs with
       | [] => []
       | _ => Set_of (map taskIdOf recs)
       end;
     error :=
       match recs with
       | [] => Some "No optimization recommendations found. Your workload may already be well-balanced, or there were no tasks to optimize."
       | _ => None
       end;
     success := None |}.

(** [handleToggleRecommendation(taskId)]. *)
Definition handleToggleRecommendation (st : State) (taskId : string) : State :=
  {| recommendations := recommendations st;
     selectedRecommendations :=
       if Set_has (selectedRecommendations st) taskId
       then Set_delete (selectedRecommendations st) taskId
       else Set_add (selectedRecommendations st) taskId;
     error := error st;
     success := success st |}.

(** The buttons [Select All] and [Deselect All]. *)
Definition selectAll (st : State) : State :=
  {| recommendations := recommendations st;
     selectedRecommendations := Set_of (map taskIdOf (recommendations st));
     error := error st;
     success := success st |}.

Definition deselectAll (st : State) : State :=
  {| recommendations := recommendations st;
     selectedRecommendations := [];
     error := error st;
     success := success st |}.

(** [handleApplyChanges] up to the request: the recommendations it posts,
    or [None] when it posts nothing. *)
Definition recommendationsToApply (st : State) : option (list value) :=
  match selectedRecommendations st with
  | [] => None
  | _ =>
      Some (filter (fun r => Set_has (selectedRecommendations st) (taskIdOf r))
              (recommendations st))
  end.

(** [normalizeDate(date)] for a date of a response: a string or [null]. *)
Definition normalizeDate (date : value) : option string :=
  if truthy date then option_map JsDate.isoDate (Date_new date) else None.

(** The flags of a row of the table. The two priorities are compared as
    the strings the interface of the client says they are. *)
Definition dueDateChanged (rec : value) : bool :=
  negb (optionString_eqb (normalizeDate (propOf rec "currentDueDate"))
                         (normalizeDate (propOf rec "suggestedDueDate"))).

Definition priorityChanged (rec : value) : bool :=
  truthy (propOf rec "suggestedPriority")
  && negb (String.eqb (String_ (propOf rec "currentPriority"))
                      (String_ (propOf rec "suggestedPriority"))).

Definition hasChanges (rec : value) : bool :=
  dueDateChanged rec || priorityChanged rec.

(** [v?.length]. *)
Definition optionalLength (v : value) : value :=
  match v with
  | VUndefined | VNull => VUndefined
  | VStr s => VNum (Z_toString (Z.of_nat (String.length s)))
  | VArr l => VNum (Z_toString (Z.of_nat (List.length l)))
  | VObj _ => propOf v "length"
  | VBool _ | VNum _ => VUndefined
  end.

(** The message [handleApplyChanges] shows for the body of a successful
    response: the number in it is [response.updatedTasks?.length || 0]. *)
Definition successMessage (response : value) : string :=
  let count := optionalLength (propOf response "updatedTasks") in
  "Successfully updated " ++ (if truthy count then String_ count else "0")
    ++ " task(s)".

End Handlers.

End Page.

(** ** What a pattern matches *)

Module Matching.

Import Regex.

(** The texts a literal matches. *)
Fixpoint litMatches (ignoreCase : bool) (lit txt : string) : Prop :=
  match lit, txt with
  | EmptyString, EmptyString => True
  | String c lit', String d txt' =>
      sameChar ignoreCase c d = true /\ litMatches ignoreCase lit' txt'
  | _, _ => False
  end.

(** Every code unit of a text satisfies [p]. *)
Fixpoint allChars (p : ascii -> bool) (txt : string) : Prop :=
  match txt with
  | EmptyString => True
  | String c txt' => p c = true /\ allChars p txt'
  end.

(** The texts a pattern can consume, whatever the position. *)
Fixpoint matches (r : regex) (txt : string) : Prop :=
  match r with
  | Lit ic s => litMatches ic s txt
  | Opt r' => txt = EmptyString \/ matches r' txt
  | Star p | LazyStar p => allChars p txt
  | Cat r1 r2 =>
      exists t1 t2, txt = t1 ++ t2 /\ matches r1 t1 /\ matches r2 t2
  | Group r' => matches r' txt
  | Bos | Eos => txt = EmptyString
  end.

(** A pattern without a capturing group. *)
Fixpoint groupFree (r : regex) : bool :=
  match r with
  | Lit _ _ | Star _ | LazyStar _ | Bos | Eos => true
  | Opt r' => groupFree r'
  | Cat r1 r2 => groupFree r1 && groupFree r2
  | Group _ => false
  end.

Definition notClosingBrace (c : ascii) : bool := negb (Ascii.eqb c "}").

(** A text that opens with a brace and closes with one. *)
Definition braced (txt : string) : Prop :=
  exists inner, txt = "{" ++ inner ++ "}".

End Matching.

(** ** A scenario for the service, the route and the page *)

Module Scenario.

Import JsString Examples.

(** The priority a stored string stands for. *)
Definition priorityOf (s : string) : TaskPriority :=
  if String.eqb s "urgent" then URGENT
  else if String.eqb s "high" then HIGH
  else if String.eqb s "medium" then MEDIUM
  else LOW.

Definition aliceUser : Service.User :=
  {| Service._id := alice; Service.name := "Alice";
     Service.email := "alice@example.org"; Service.level := 3;
     Service.xp := 250; Service.totalTasksCompleted := 12;
     Service.timezone := "UTC"; Service.dailyGoalXP := 100 |}.

Definition docAt (i owner p : string) (s : TaskStatus) (due : option Z)
  (created : Z) : Apply.Task :=
  {| Apply._id := i; Apply.userId := owner; Apply.title := "Task " ++ i;
     Apply.description := None; Apply.priority := p; Apply.status := s;
     Apply.dueDate := due; Apply.completedAt := None; Apply.points := 10;
     Apply.tags := []; Apply.createdAt := created; Apply.updatedAt := created |}.

Definition id4 : string := "64a000000000000000000004".

(** Alice has a pending task that was due on 2024-01-01, a task in progress
    without a due date and a completed task; Bob has one task. *)
Definition doc1 : Apply.Task := docAt id1 alice "low" PENDING (Some jan1) 100.
Definition doc2 : Apply.Task := docAt id2 bob "high" PENDING (Some jan1) 200.
Definition doc3 : Apply.Task := docAt id3 alice "medium" IN_PROGRESS None 300.
Definition doc4 : Apply.Task := docAt id4 alice "high" COMPLETED (Some jan1) 400.

Definition db : Service.Database :=
  {| Service.users := [aliceUser];
     Service.taskDocs := [doc1; doc2; doc3; doc4] |}.

(** It is noon on 2024-01-01. *)
Definition noon (_ : nat) : Z := jan1 + 43200000.

(** A clock that reads the last millisecond of 2023 when the first task of
    a query is looked at, and a millisecond more with every further task. *)
Definition ticking (n : nat) : Z := jan1 - 1 + Z.of_nat n.

(** 2024-01-05T00:00:00.000Z *)
Definition jan5 : Z := jan1 + 4 * JsDate.msPerDay.

(** The reply of the model: task 1 moved to 2024-01-05 with a higher
    priority, task 3 made urgent. *)
Definition reply : string :=
  fenced
    (q ("{'recommendations':[{'taskId':'" ++ id1
        ++ "','suggestedDueDate':'2024-01-05','suggestedPriority':'high','reason':'overdue'},{'taskId':'"
        ++ id3 ++ "','suggestedPriority':'urgent'}]}")).


Definition openrouterOnly : Gateway.Keys :=
  {| Gateway.DEEPSEEK_API_KEY := None;
     Gateway.OPENROUTER_API_KEY := Some "sk-openrouter" |}.


Definition noKeys : Gateway.Keys :=
  {| Gateway.DEEPSEEK_API_KEY := None;
     Gateway.OPENROUTER_API_KEY := Some EmptyString |}.

(** The error of the OpenAI package for a client without a key. *)
Definition missingCredentials : string :=
  "Missing credentials. Please pass an `apiKey`, or set the `OPENAI_API_KEY` environment variable.".

(** A world in which both providers answer with [reply], and in which the
    variable [OPENAI_API_KEY] is not set: a client needs a key. *)
Definition world (k : Gateway.Keys) : Gateway.World :=
  {| Gateway.database := db;
     Gateway.keys := k;
     Gateway.clientError :=
       fun apiKey =>
         match apiKey with
         | Some _ => None
         | None => Some missingCredentials
         end;
     Gateway.langchainReply := fun _ _ _ => inr reply;
     Gateway.completionContent := fun _ => inr (Some reply) |}.

(** What [retrieveUserTasks] returns for Alice: her tasks, newest first. *)
Definition aliceTasks : list TaskContext :=
  [Service.toTaskContext priorityOf noon 0 doc4;
   Service.toTaskContext priorityOf noon 1 doc3;
   Service.toTaskContext priorityOf noon 2 doc1].

(** The candidates among them. *)
Definition candidates : list TaskContext :=
  [Service.toTaskContext priorityOf noon 1 doc3;
   Service.toTaskContext priorityOf noon 2 doc1].

(** The two recommendations extracted from [reply]. *)
Definition recommendation1 : TaskRecommendation :=
  {| taskId := id1;
     taskTitle := VStr ("Task " ++ id1);
     currentDueDate := Some jan1;
     suggestedDueDate := Some jan5;
     currentPriority := "low";
     suggestedPriority := Some "high";
     reason := VStr "overdue" |}.

Definition recommendation3 : TaskRecommendation :=
  {| taskId := id3;
     taskTitle := VStr ("Task " ++ id3);
     currentDueDate := None;
     suggestedDueDate := None;
     currentPriority := "medium";
     suggestedPriority := Some "urgent";
     reason := VStr "Balance workload distribution" |}.

Definition result : WorkloadOptimizationResult :=
  {| analysis := "Here is the plan:";
     recommendations := [recommendation1; recommendation3];
     summary := EmptyString |}.

(** The context [retrieveCompleteContext] returns for Alice. *)
Definition aliceContext : Service.RetrievedContext :=
  {| Service.user :=
       {| Service.userId := alice; Service.userName := "Alice";
          Service.userEmail := "alice@example.org"; Service.userLevel := 3;
          Service.userXp := 250; Service.userTotalTasksCompleted := 12;
          Service.preferencesTimezone := "UTC";
          Service.preferencesDailyGoalXP := 100 |};
     Service.tasks := aliceTasks;
     Service.stats :=
       {| Service.totalTasks := 3; Service.pendingTasks := 1;
          Service.inProgressTasks := 1; Service.completedTasks := 1;
          Service.overdueTasks := 1 |} |}.

Import Reference.

(** A chat of Alice with the organizer. *)
Definition chat (k : Gateway.Keys) (options : option Gateway.ChatWith)
  : Service.Result string * list Gateway.ProviderCall :=
  Gateway.runAgent (O := Apply.odm) Apply.isObjectIdString priorityOf noon
    (world k)
    (Gateway.chatWithOrganizer k alice "What should I do first?" options).

(** An optimisation of her workload. *)
Definition optimization (k : Gateway.Keys) (options : option Options)
  : Service.Result WorkloadOptimizationResult * list Gateway.ProviderCall :=
  Gateway.runOptimize (O := Apply.odm) Apply.isObjectIdString priorityOf noon
    (world k)
    (optimizeWorkload alice options).

Definition firstCall (calls : list Gateway.ProviderCall) : Gateway.ProviderCall :=
  hd (Gateway.ViaLangchain EmptyString EmptyString None) calls.

Definition requestOf (c : Gateway.ProviderCall) : Gateway.CompletionRequest :=
  match c with
  | Gateway.ViaOpenRouter request => request
  | Gateway.ViaLangchain system msg _ =>
      {| Gateway.model := EmptyString; Gateway.systemContent := system;
         Gateway.userContent := msg;
         Gateway.requestTemperature := Gateway.NaN;
         Gateway.max_tokens := Gateway.NaN |}
  end.

(** The recommendations as the page holds them. *)
Definition received : list value :=
  map Wire.recommendationToJSON (recommendations result).

(** A stand-in for [parseInt] on the texts of the scenario: it reads a
    decimal integer and makes [NaN] of anything else. *)
Definition parseDecimal (s : string) : option Z := integerOfNumeral s.

Definition numberOf (s : string) : Gateway.Number :=
  match integerOfNumeral s with
  | Some n => Gateway.Finite (inject_Z n)
  | None => Gateway.NaN
  end.

(** A chat request that asks for temperature 0. *)
Definition coldRequest : value :=
  VObj [("message", VStr "What should I do first?"); ("temperature", VNum "0")].

Definition chatRoute (k : Gateway.Keys) (body : value)
  : Routes.ChatReply * list Gateway.ProviderCall :=
  Routes.chat (O := Apply.odm) Apply.isObjectIdString priorityOf noon
    numberOf numberOf (world k) (Some alice) body.

End Scenario.

(** * The JSON parser *)

Section JsonFacts.
Import JSON.

Ltac break_in H :=
  repeat match type of H with
         | context [match ?x with _ => _ end] =>
             let E := fresh "E" in destruct x eqn:E; try discriminate H
         | context [if ?b then _ else _] =>
             let E := fresh "E" in destruct b eqn:E; try discriminate H
         end.

Lemma skipWs_length (s : string) : (length (skipWs s) <= length s)%nat.
Proof.
  induction s as [|c s IH]; cbn [skipWs]; [apply Nat.le_refl|].
  destruct (isWs c); cbn [length]; lia.
Qed.

Lemma startsWith_length (c : ascii) (s r : string) :
  startsWith c s = Some r -> length s = S (length r).
Proof.
  unfold startsWith. intros H. break_in H. injection H as <-. reflexivity.
Qed.

Lemma digits_length (s d r : string) :
  digits s = (d, r) -> (length s = length d + length r)%nat.
Proof.
  revert d r. induction s as [|c s IH]; cbn [digits]; intros d r H.
  - injection H as <- <-. reflexivity.
  - destruct (isDigit c).
    + destruct (digits s) as [d' r'] eqn:E. injection H as <- <-.
      cbn [length]. rewrite (IH d' r' eq_refl). reflexivity.
    + injection H as <- <-. reflexivity.
Qed.

Lemma optChar_length (p : ascii -> bool) (s a r : string) :
  optChar p s = (a, r) -> (length s = length a + length r)%nat.
Proof.
  unfold optChar. intros H. break_in H; injection H as <- <-; reflexivity.
Qed.

Lemma parseInt_length (s i r : string) :
  parseInt s = Some (i, r) -> (length r < length s)%nat.
Proof.
  unfold parseInt. destruct (digits s) as [d r'] eqn:E. intros H.
  apply digits_length in E. break_in H; injection H as <- <-;
    cbn [length] in E; lia.
Qed.

Lemma parseFrac_length (s f r : string) :
  parseFrac s = Some (f, r) -> (length r <= length s)%nat.
Proof.
  unfold parseFrac. intros H.
  destruct (startsWith "." s) as [r0|] eqn:E0.
  - apply startsWith_length in E0.
    destruct (digits r0) as [d r'] eqn:E. apply digits_length in E.
    break_in H. injection H as <- <-. lia.
  - injection H as <- <-. lia.
Qed.

Lemma parseExp_length (s x r : string) :
  parseExp s = Some (x, r) -> (length r <= length s)%nat.
Proof.
  unfold parseExp. intros H.
  destruct (optChar _ s) as [e r0] eqn:E0. apply optChar_length in E0.
  destruct (JsString.isEmpty e); [injection H as <- <-; lia|].
  destruct (optChar _ r0) as [sg r1] eqn:E1. apply optChar_length in E1.
  destruct (digits r1) as [d r2] eqn:E2. apply digits_length in E2.
  break_in H. injection H as <- <-. lia.
Qed.

Lemma parseNumber_length (s n r : string) :
  parseNumber s = Some (n, r) -> (length r < length s)%nat.
Proof.
  unfold parseNumber. intros H.
  destruct (optChar _ s) as [sg s1] eqn:E0. apply optChar_length in E0.
  destruct (parseInt s1) as [[i s2]|] eqn:E1; [|discriminate H].
  apply parseInt_length in E1.
  destruct (parseFrac s2) as [[f s3]|] eqn:E2; [|discriminate H].
  apply parseFrac_length in E2.
  destruct (parseExp s3) as [[x s4]|] eqn:E3; [|discriminate H].
  apply parseExp_length in E3.
  injection H as <- <-. lia.
Qed.

Lemma parseChars_length (n : nat) :
  forall s str r, (length s <= n)%nat ->
    parseChars s = Some (str, r) -> (length r < length s)%nat.
Proof.
  induction n as [|n IH]; intros s str r Hn H.
  - destruct s; [discriminate H | cbn in Hn; lia].
  - destruct s as [|c s]; [discriminate H|]. cbn [parseChars] in H.
    cbn [length] in *.
    destruct (Ascii.eqb c JsString.dquote); [injection H as <- <-; lia|].
    destruct (Ascii.eqb c "\").
    + destruct s as [|e s]; [discriminate H|]. cbn [length] in *.
      repeat match type of H with
             | (if ?b then _ else _) = _ => destruct b
             end;
        try (destruct (parseChars s) as [[str' r']|] eqn:E; [|discriminate H];
             injection H as <- <-;
             apply IH in E; [lia | lia]).
      * destruct s as [|h1 [|h2 [|h3 [|h4 s3]]]]; try discriminate H.
        destruct (hex4 h1 h2 h3 h4); [|discriminate H].
        destruct (parseChars s3) as [[str' r']|] eqn:E; [|discriminate H].
        injection H as <- <-. cbn [length] in *.
        apply IH in E; [lia | lia].
      * discriminate H.
    + destruct (nat_of_ascii c <? 32)%nat; [discriminate H|].
      destruct (parseChars s) as [[str' r']|] eqn:E; [|discriminate H].
      injection H as <- <-. apply IH in E; [lia | lia].
Qed.

Lemma drop_length (n : nat) (s : string) :
  (length (JsString.drop n s) <= length s)%nat.
Proof.
  revert s. induction n as [|n IH]; intros s; [apply Nat.le_refl|].
  destruct s as [|c s]; cbn [JsString.drop length]; [lia|].
  specialize (IH s). lia.
Qed.

Lemma expect_length (lit s r : string) :
  expect lit s = Some r -> (length r <= length s)%nat.
Proof.
  unfold expect. destruct (prefix lit s); [|discriminate].
  intros H. injection H as <-. apply drop_length.
Qed.

(** Fuel: a parse that succeeds with some fuel consumes input, and succeeds
    with the same result with any fuel above twice the length of the text. *)
Lemma parse_fuel (n : nat) :
  (forall s v r, parseValue n s = Some (v, r) ->
     (length r < length s)%nat
     /\ forall m, (2 * length s <= m)%nat -> parseValue m s = Some (v, r))
  /\ (forall s acc v r, parseElements n s acc = Some (v, r) ->
     (length r < length s)%nat
     /\ forall m, (2 * length s + 1 <= m)%nat ->
                  parseElements m s acc = Some (v, r))
  /\ (forall s acc v r, parseMembers n s acc = Some (v, r) ->
     (length r < length s)%nat
     /\ forall m, (2 * length s + 1 <= m)%nat ->
                  parseMembers m s acc = Some (v, r)).
Proof.
  induction n as [|n (IHv & IHe & IHm)];
    [repeat split; intros; discriminate|].
  split; [|split].
  - intros s v r H. cbn [parseValue] in H.
    pose proof (skipWs_length s) as Hs.
    destruct (skipWs s) as [|c r0] eqn:Es; [discriminate H|].
    cbn [length] in Hs.
    pose proof (skipWs_length r0) as Hr0.
    destruct (Ascii.eqb c "{") eqn:Eo.
    { destruct (startsWith "}" (skipWs r0)) as [r'|] eqn:E2.
      - injection H as <- <-. apply startsWith_length in E2 as L2.
        split; [lia|]. intros m Hm. destruct m as [|m]; [lia|].
        cbn [parseValue]. rewrite Es, Eo, E2. reflexivity.
      - apply IHm in H. destruct H as [Hl Hm'].
        split; [lia|]. intros m Hm. destruct m as [|m]; [lia|].
        cbn [parseValue]. rewrite Es, Eo, E2. apply Hm'. lia. }
    destruct (Ascii.eqb c "[") eqn:Ea.
    { destruct (startsWith "]" (skipWs r0)) as [r'|] eqn:E2.
      - injection H as <- <-. apply startsWith_length in E2 as L2.
        split; [lia|]. intros m Hm. destruct m as [|m]; [lia|].
        cbn [parseValue]. rewrite Es, Eo, Ea, E2. reflexivity.
      - apply IHe in H. destruct H as [Hl Hm'].
        split; [lia|]. intros m Hm. destruct m as [|m]; [lia|].
        cbn [parseValue]. rewrite Es, Eo, Ea, E2. apply Hm'. lia. }
    destruct (Ascii.eqb c JsString.dquote) eqn:Eq.
    { destruct (parseChars r0) as [[str r']|] eqn:E2; [|discriminate H].
      injection H as <- <-.
      apply (parseChars_length (length r0) r0 _ _ (Nat.le_refl _)) in E2 as L2.
      split; [lia|]. intros m Hm. destruct m as [|m]; [lia|].
      cbn [parseValue]. rewrite Es, Eo, Ea, Eq, E2. reflexivity. }
    destruct (Ascii.eqb c "t") eqn:Et.
    { destruct (expect "rue" r0) as [r'|] eqn:E2; [|discriminate H].
      injection H as <- <-. apply expect_length in E2 as L2.
      split; [lia|]. intros m Hm. destruct m as [|m]; [lia|].
      cbn [parseValue]. rewrite Es, Eo, Ea, Eq, Et, E2. reflexivity. }
    destruct (Ascii.eqb c "f") eqn:Ef.
    { destruct (expect "alse" r0) as [r'|] eqn:E2; [|discriminate H].
      injection H as <- <-. apply expect_length in E2 as L2.
      split; [lia|]. intros m Hm. destruct m as [|m]; [lia|].
      cbn [parseValue]. rewrite Es, Eo, Ea, Eq, Et, Ef, E2. reflexivity. }
    destruct (Ascii.eqb c "n") eqn:En.
    { destruct (expect "ull" r0) as [r'|] eqn:E2; [|discriminate H].
      injection H as <- <-. apply expect_length in E2 as L2.
      split; [lia|]. intros m Hm. destruct m as [|m]; [lia|].
      cbn [parseValue]. rewrite Es, Eo, Ea, Eq, Et, Ef, En, E2. reflexivity. }
    destruct (parseNumber (String c r0)) as [[num r']|] eqn:E2; [|discriminate H].
    injection H as <- <-. apply parseNumber_length in E2 as L2.
    cbn [length] in L2.
    split; [lia|]. intros m Hm. destruct m as [|m]; [lia|].
    cbn [parseValue]. rewrite Es, Eo, Ea, Eq, Et, Ef, En, E2. reflexivity.
  - intros s acc v r H. cbn [parseElements] in H.
    destruct (parseValue n s) as [[v0 r0]|] eqn:Ev; [|discriminate H].
    apply IHv in Ev. destruct Ev as [Hl Hv].
    pose proof (skipWs_length r0) as Hr0.
    destruct (startsWith "," (skipWs r0)) as [r'|] eqn:Ec.
    + apply startsWith_length in Ec as Lc.
      apply IHe in H. destruct H as [Hl' He'].
      split; [lia|]. intros m Hm. destruct m as [|m]; [lia|].
      cbn [parseElements]. rewrite (Hv m) by lia. rewrite Ec. apply He'. lia.
    + destruct (startsWith "]" (skipWs r0)) as [r'|] eqn:Eb; [|discriminate H].
      apply startsWith_length in Eb as Lb. injection H as <- <-.
      split; [lia|]. intros m Hm. destruct m as [|m]; [lia|].
      cbn [parseElements]. rewrite (Hv m) by lia. rewrite Ec, Eb. reflexivity.
  - intros s acc v r H. cbn [parseMembers] in H.
    pose proof (skipWs_length s) as Hs.
    destruct (startsWith JsString.dquote (skipWs s)) as [r0|] eqn:E0;
      [|discriminate H].
    apply startsWith_length in E0 as L0.
    destruct (parseChars r0) as [[key r1]|] eqn:E1; [|discriminate H].
    apply (parseChars_length (length r0) r0 _ _ (Nat.le_refl _)) in E1 as L1.
    pose proof (skipWs_length r1) as Hr1.
    destruct (startsWith ":" (skipWs r1)) as [r2|] eqn:E2; [|discriminate H].
    apply startsWith_length in E2 as L2.
    destruct (parseValue n r2) as [[v0 r3]|] eqn:Ev; [|discriminate H].
    apply IHv in Ev. destruct Ev as [Hl Hv].
    pose proof (skipWs_length r3) as Hr3.
    destruct (startsWith "," (skipWs r3)) as [r4|] eqn:Ec.
    + apply startsWith_length in Ec as Lc.
      apply IHm in H. destruct H as [Hl' Hm'].
      split; [lia|]. intros m Hm. destruct m as [|m]; [lia|].
      cbn [parseMembers]. rewrite E0, E1, E2. rewrite (Hv m) by lia.
      rewrite Ec. apply Hm'. lia.
    + destruct (startsWith "}" (skipWs r3)) as [r4|] eqn:Eb; [|discriminate H].
      apply startsWith_length in Eb as Lb. injection H as <- <-.
      split; [lia|]. intros m Hm. destruct m as [|m]; [lia|].
      cbn [parseMembers]. rewrite E0, E1, E2. rewrite (Hv m) by lia.
      rewrite Ec, Eb. reflexivity.
Qed.

(** [JSON.parse] does not depend on its fuel: what any amount of fuel
    parses, the fuel it uses parses to the same value. *)
Lemma parseValue_fuel (n : nat) (text : string) (v : value) (r : string) :
  parseValue n text = Some (v, r) ->
  parseValue (2 * length text + 2) text = Some (v, r).
Proof.
  intros H. destruct (parse_fuel n) as (Hv & _). apply (Hv _ _ _ H). lia.
Qed.

End JsonFacts.

(** * Candidate selection *)

Section CandidateOrder.

Lemma priorityOrder_inj (p p' : TaskPriority) :
  priorityOrder p = priorityOrder p' -> p = p'.
Proof. destruct p, p'; simpl; intros H; try reflexivity; discriminate H. Qed.

Lemma priorityOrder_range (p : TaskPriority) : 1 <= priorityOrder p <= 4.
Proof. destruct p; simpl; lia. Qed.

(** The callback's result, case by case. *)
Lemma compareTasks_cases (a b : TaskContext) :
  (priorityOrder (priority a) <> priorityOrder (priority b)
   /\ compareTasks a b = priorityOrder (priority b) - priorityOrder (priority a))
  \/ (priority a = priority b
      /\ compareTasks a b =
         match dueDate a, dueDate b with
         | Some ta, Some tb => ta - tb
         | Some _, None => -1
         | None, Some _ => 1
         | None, None => 0
         end).
Proof.
  unfold compareTasks.
  destruct (priorityOrder (priority b) - priorityOrder (priority a) =? 0) eqn:E.
  - right. apply Z.eqb_eq in E. split; [|reflexivity].
    apply priorityOrder_inj. lia.
  - left. apply Z.eqb_neq in E. split; [lia|reflexivity].
Qed.

Lemma compareTasks_precedes (a b : TaskContext) :
  compareTasks a b <= 0 <-> precedes a b.
Proof.
  unfold precedes.
  destruct (compareTasks_cases a b) as [[Hne ->] | [Heq ->]].
  - split; [intros; left; lia|].
    intros [H | [H _]]; [lia | rewrite H in Hne; contradiction].
  - rewrite Heq. split.
    + intros H. right. split; [reflexivity|].
      destruct (dueDate a), (dueDate b); try exact I; lia.
    + intros [H | [_ H]]; [lia|].
      destruct (dueDate a), (dueDate b); try lia; contradiction.
Qed.

Lemma compareTasks_sameRank (a b : TaskContext) :
  compareTasks a b = 0 <-> priority a = priority b /\ dueDate a = dueDate b.
Proof.
  destruct (compareTasks_cases a b) as [[Hne ->] | [Heq ->]].
  - split; [lia|]. intros [H _]. rewrite H in Hne. contradiction.
  - split.
    + intros H. split; [exact Heq|].
      destruct (dueDate a), (dueDate b); try discriminate H;
        [f_equal; lia | reflexivity].
    + intros [_ H]. rewrite H. destruct (dueDate b); lia.
Qed.

Lemma precedes_total (a b : TaskContext) : precedes a b \/ precedes b a.
Proof.
  rewrite <- !compareTasks_precedes.
  destruct (compareTasks_cases a b) as [[Hab ->] | [Hab ->]];
    destruct (compareTasks_cases b a) as [[Hba ->] | [Hba ->]];
    try lia; try (rewrite Hab in *; contradiction);
    try (rewrite Hba in *; contradiction).
  destruct (dueDate a), (dueDate b); lia.
Qed.

Lemma precedes_trans (a b c : TaskContext) :
  precedes a b -> precedes b c -> precedes a c.
Proof.
  unfold precedes.
  intros [Hab | [Eab Dab]] [Hbc | [Ebc Dbc]].
  - left. lia.
  - left. rewrite <- Ebc. exact Hab.
  - left. rewrite Eab. exact Hbc.
  - right. split; [congruence|].
    destruct (dueDate a), (dueDate b), (dueDate c); try exact I;
      try contradiction; lia.
Qed.

Lemma insertSorted_perm (x : TaskContext) (l : list TaskContext) :
  Permutation (insertSorted compareTasks x l) (x :: l).
Proof.
  induction l as [|y l IH]; simpl.
  - apply Permutation_refl.
  - destruct (compareTasks x y <=? 0).
    + apply Permutation_refl.
    + apply perm_trans with (y :: x :: l).
      * apply perm_skip. exact IH.
      * apply perm_swap.
Qed.

Lemma Array_sort_perm (l : list TaskContext) :
  Permutation (Array_sort compareTasks l) l.
Proof.
  induction l as [|x l IH]; simpl.
  - apply perm_nil.
  - apply perm_trans with (x :: Array_sort compareTasks l).
    + apply insertSorted_perm.
    + apply perm_skip. exact IH.
Qed.

Lemma insertSorted_sorted (x : TaskContext) (l : list TaskContext) :
  StronglySorted precedes l ->
  StronglySorted precedes (insertSorted compareTasks x l).
Proof.
  induction l as [|y l IH]; simpl; intros Hs.
  - constructor; [constructor | constructor].
  - inversion Hs as [|? ? Hl Hy]; subst.
    destruct (compareTasks x y <=? 0) eqn:E.
    + apply Z.leb_le, compareTasks_precedes in E.
      constructor; [exact Hs|].
      constructor; [exact E|].
      eapply Forall_impl; [|exact Hy].
      intros z Hz. eapply precedes_trans; eassumption.
    + apply Z.leb_gt in E.
      assert (Hyx : precedes y x).
      { destruct (precedes_total x y) as [H | H]; [|exact H].
        apply compareTasks_precedes in H. lia. }
      constructor; [apply IH; exact Hl|].
      eapply Permutation_Forall.
      * apply Permutation_sym, insertSorted_perm.
      * constructor; assumption.
Qed.

Lemma Array_sort_sorted (l : list TaskContext) :
  StronglySorted precedes (Array_sort compareTasks l).
Proof.
  induction l as [|x l IH]; simpl.
  - constructor.
  - apply insertSorted_sorted. exact IH.
Qed.

Lemma sameRank_trans_false (t x y : TaskContext) :
  0 < compareTasks x y -> sameRank t x = true -> sameRank t y = false.
Proof.
  unfold sameRank. intros Hxy Htx.
  apply Z.eqb_eq, compareTasks_sameRank in Htx. destruct Htx as [Hp Hd].
  apply Z.eqb_neq. intros Hty.
  apply compareTasks_sameRank in Hty. destruct Hty as [Hp' Hd'].
  assert (H0 : compareTasks x y = 0).
  { apply compareTasks_sameRank. split; congruence. }
  lia.
Qed.

(** Insertion keeps the tasks ranked like [t] in their order, the new one
    first. *)
Lemma insertSorted_stable (t x : TaskContext) (l : list TaskContext) :
  filter (sameRank t) (insertSorted compareTasks x l)
  = filter (sameRank t) (x :: l).
Proof.
  induction l as [|y l IH]; [reflexivity|].
  cbn [insertSorted].
  destruct (compareTasks x y <=? 0) eqn:E; [reflexivity|].
  apply Z.leb_gt in E.
  cbn [filter] in *. rewrite IH.
  destruct (sameRank t x) eqn:Hx; [|reflexivity].
  rewrite (sameRank_trans_false t x y E Hx). reflexivity.
Qed.

Lemma Array_sort_stable (t : TaskContext) (l : list TaskContext) :
  filter (sameRank t) (Array_sort compareTasks l) = filter (sameRank t) l.
Proof.
  induction l as [|x l IH]; [reflexivity|].
  cbn [Array_sort fold_right].
  rewrite insertSorted_stable. cbn [filter].
  fold (Array_sort compareTasks l). rewrite IH. reflexivity.
Qed.

Lemma sameRank_refl (a : TaskContext) : sameRank a a = true.
Proof.
  unfold sameRank. apply Z.eqb_eq. apply compareTasks_sameRank. split; reflexivity.
Qed.

Lemma precedes_antisym (a b : TaskContext) :
  precedes a b -> precedes b a -> sameRank a b = true.
Proof.
  intros Hab Hba. unfold sameRank. apply Z.eqb_eq.
  apply compareTasks_precedes in Hab. apply compareTasks_precedes in Hba.
  destruct (compareTasks_cases a b) as [[Hne Eab] | [Heq Eab]];
    destruct (compareTasks_cases b a) as [[Hne' Eba] | [Heq' Eba]];
    rewrite ?Eab, ?Eba in *; try lia;
    try (rewrite Heq in *; contradiction);
    try (rewrite Heq' in *; contradiction).
  destruct (dueDate a), (dueDate b); lia.
Qed.

Lemma sorted_head_precedes (a : TaskContext) (l : list TaskContext) (b : TaskContext) :
  StronglySorted precedes (a :: l) -> In b (a :: l) -> precedes a b.
Proof.
  intros Hs Hin. inversion Hs as [|? ? _ Hall]; subst.
  destruct Hin as [<- | Hin].
  - destruct (precedes_total a a); assumption.
  - rewrite Forall_forall in Hall. apply Hall. exact Hin.
Qed.

(** The order of the candidates is determined: a list that is a sorted
    permutation with equally ranked tasks in their input order is the list
    [Array_sort] returns. *)
Lemma stable_sort_unique (l1 : list TaskContext) :
  forall l2,
    Permutation l1 l2 ->
    StronglySorted precedes l1 -> StronglySorted precedes l2 ->
    (forall t, filter (sameRank t) l1 = filter (sameRank t) l2) ->
    l1 = l2.
Proof.
  induction l1 as [|a l1 IH]; intros l2 Hp H1 H2 Hf.
  - apply Permutation_nil in Hp. symmetry. exact Hp.
  - destruct l2 as [|b l2].
    { apply Permutation_sym, Permutation_nil in Hp. discriminate Hp. }
    assert (Hab : precedes a b).
    { apply (sorted_head_precedes a l1 b H1).
      apply (Permutation_in b (Permutation_sym Hp)). left. reflexivity. }
    assert (Hba : precedes b a).
    { apply (sorted_head_precedes b l2 a H2).
      apply (Permutation_in a Hp). left. reflexivity. }
    pose proof (precedes_antisym a b Hab Hba) as Hr.
    pose proof (Hf a) as Ha. cbn [filter] in Ha.
    rewrite sameRank_refl, Hr in Ha. injection Ha as Hhead _.
    subst b. f_equal.
    apply IH.
    + apply Permutation_cons_inv in Hp. exact Hp.
    + inversion H1; assumption.
    + inversion H2; assumption.
    + intros t. specialize (Hf t). cbn [filter] in Hf.
      destruct (sameRank t a); [injection Hf as Hf|]; exact Hf.
Qed.

Lemma Array_slice0_firstn {A} (n : Z) (l : list A) :
  0 <= n -> Array_slice0 n l = firstn (Z.to_nat n) l.
Proof.
  intros H. unfold Array_slice0.
  destruct (n <? 0) eqn:E; [apply Z.ltb_lt in E; lia | reflexivity].
Qed.

End CandidateOrder.

(** C6. The candidates are the pending and in-progress tasks, sorted by
    priority (urgent first) and then by due date (earliest first, tasks with
    a due date before tasks without), cut to the first [maxTasks]; the sort
    only reorders the tasks (it is a permutation), it is stable (tasks that
    are ordered equally keep their input order), and its result is
    determined: no other list is such a stable sorted permutation. *)
Theorem candidates_filtered_sorted_stable_truncated
  (tasks : list TaskContext) (options : option Options) :
  let limit := numberOr options maxTasks 15 in
  let pending := filter isPendingOrInProgress tasks in
  let sorted := Array_sort compareTasks pending in
  (forall t, In t pending <-> In t tasks /\ (status t = PENDING \/ status t = IN_PROGRESS))
  /\ Permutation sorted pending
  /\ StronglySorted precedes sorted
  /\ (forall t, filter (sameRank t) sorted = filter (sameRank t) pending)
  /\ (forall l,
        Permutation l pending ->
        StronglySorted precedes l ->
        (forall t, filter (sameRank t) l = filter (sameRank t) pending) ->
        l = sorted)
  /\ (0 <= limit -> selectCandidates tasks limit = firstn (Z.to_nat limit) sorted).
Proof.
  intros limit pending sorted.
  split; [|split; [|split; [|split; [|split]]]].
  - intros t. unfold pending. rewrite filter_In. unfold isPendingOrInProgress.
    destruct (status t); simpl; split; intros [Hin Hs]; split; auto;
      try discriminate; destruct Hs; discriminate.
  - apply Array_sort_perm.
  - apply Array_sort_sorted.
  - intros t. apply Array_sort_stable.
  - intros l Hp Hs Hf. apply stable_sort_unique.
    + apply perm_trans with pending; [exact Hp|].
      apply Permutation_sym, Array_sort_perm.
    + exact Hs.
    + apply Array_sort_sorted.
    + intros t. rewrite Hf. symmetry. apply Array_sort_stable.
  - intros H. unfold selectCandidates. apply Array_slice0_firstn. exact H.
Qed.

(** * The recommendation extractor *)

Section ExtractorFacts.

Context {R : Runtime}.

Lemma getProp_notNullish (v : value) (key : string) :
  notNullish v = true -> getProp v key = inr (propOf v key).
Proof. destruct v; simpl; intros H; try reflexivity; discriminate H. Qed.

Lemma getProp_returns (v : value) (key : string) (x : value) :
  getProp v key = inr x -> notNullish v = true /\ x = propOf v key.
Proof.
  destruct v; simpl; intros H; try discriminate H;
    injection H as <-; split; reflexivity.
Qed.

Lemma bind_returns {A B} (m : Js A) (f : A -> Js B) (b : B) :
  bind m f = inr b -> exists a, m = inr a /\ f a = inr b.
Proof.
  destruct m as [e | a]; simpl; intros H; [discriminate H|].
  exists a. split; [reflexivity | exact H].
Qed.

Lemma filterM_returns {A} (p : A -> Js bool) (l r : list A) :
  filterM p l = inr r -> forall x, In x r -> In x l /\ p x = inr true.
Proof.
  revert r. induction l as [|y l IH]; simpl; intros r H x Hx.
  - injection H as <-. destruct Hx.
  - apply bind_returns in H. destruct H as (b & Hb & H).
    apply bind_returns in H. destruct H as (r' & Hr' & H).
    injection H as <-.
    destruct b.
    + destruct Hx as [<- | Hx]; [split; [left; reflexivity | exact Hb]|].
      destruct (IH r' Hr' x Hx) as [Hin Hp]. split; [right; exact Hin | exact Hp].
    + destruct (IH r' Hr' x Hx) as [Hin Hp]. split; [right; exact Hin | exact Hp].
Qed.


Lemma mapM_returns {A B} (f : A -> Js B) (l : list A) (r : list B) :
  mapM f l = inr r -> forall y, In y r -> exists x, In x l /\ f x = inr y.
Proof.
  revert r. induction l as [|x l IH]; simpl; intros r H y Hy.
  - injection H as <-. destruct Hy.
  - apply bind_returns in H. destruct H as (y0 & Hy0 & H).
    apply bind_returns in H. destruct H as (r' & Hr' & H).
    injection H as <-.
    destruct Hy as [<- | Hy].
    + exists x. split; [left; reflexivity | exact Hy0].
    + destruct (IH r' Hr' y Hy) as (x' & Hin & Hf).
      exists x'. split; [right; exact Hin | exact Hf].
Qed.

Lemma dropNull_In {A} (l : list (option A)) (x : A) :
  In x (dropNull l) <-> In (Some x) l.
Proof.
  induction l as [|[y|] l IH]; simpl.
  - tauto.
  - rewrite IH. split; intros [H | H]; auto; left; congruence.
  - rewrite IH. split; [auto | intros [H | H]; [discriminate H | exact H]].
Qed.

(** Every recommendation the mapping keeps comes from an entry of the reply
    through [toRecommendation]. *)
Lemma mapRecommendations_In (pendingTasks : list TaskContext)
  (entries : list value) (recs : list TaskRecommendation) (r : TaskRecommendation) :
  mapRecommendations pendingTasks entries = inr recs -> In r recs ->
  exists entry, In entry entries
    /\ hasValidTaskId (map id pendingTasks) entry = inr true
    /\ toRecommendation pendingTasks entry = inr (Some r).
Proof.
  unfold mapRecommendations. intros H Hr.
  apply bind_returns in H. destruct H as (valid & Hvalid & H).
  apply bind_returns in H. destruct H as (mapped & Hmapped & H).
  injection H as <-.
  apply dropNull_In in Hr.
  destruct (mapM_returns _ _ _ Hmapped _ Hr) as (entry & Hin & Hf).
  destruct (filterM_returns _ _ _ Hvalid _ Hin) as [Hin' Hp].
  exists entry. auto.
Qed.

(** What [extractRecommendations] returns: the degraded result, or the
    recommendations mapped from the array the reply holds. *)
Lemma extractRecommendations_cases (aiResponse : string)
  (pendingTasks : list TaskContext) :
  extractRecommendations aiResponse pendingTasks = inr (degraded aiResponse)
  \/ exists jsonData entries recs,
       JSON.parse (cleanJson (jsonString (findJson aiResponse))) = inr jsonData
       /\ getProp jsonData "recommendations" = inr (VArr entries)
       /\ mapRecommendations pendingTasks entries = inr recs
       /\ extractRecommendations aiResponse pendingTasks =
          inr {| analysis := fst (splitAround aiResponse (jsonMatch (findJson aiResponse)));
                 recommendations := recs;
                 summary := snd (splitAround aiResponse (jsonMatch (findJson aiResponse))) |}.
Proof.
  unfold extractRecommendations, extractBody.
  destruct (JsString.isEmpty (jsonString (findJson aiResponse))); simpl;
    [left; reflexivity|].
  destruct (JSON.parse _) as [e | jsonData]; simpl; [left; reflexivity|].
  destruct (getProp jsonData "recommendations") as [e | recs] eqn:Hrecs; simpl;
    [left; reflexivity|].
  destruct recs as [| | | | | entries |]; simpl; try (left; reflexivity).
  destruct (mapRecommendations pendingTasks entries) as [e | recs] eqn:Hmap;
    simpl; [left; reflexivity|].
  right. exists jsonData, entries, recs.
  destruct (splitAround aiResponse (jsonMatch (findJson aiResponse))).
  repeat split; solve [reflexivity | assumption].
Qed.

Lemma TaskPriority_value_truthy (p : TaskPriority) :
  truthy (VStr (TaskPriority_value p)) = true.
Proof. destruct p; reflexivity. Qed.

Lemma or_truthy_r (a b : value) : truthy b = true -> truthy (or_ a b) = true.
Proof. unfold or_. intros H. destruct (truthy a) eqn:E; assumption. Qed.

Lemma or_truthy_l (a b : value) : truthy a = true -> or_ a b = a.
Proof. unfold or_. intros ->. reflexivity. Qed.

(** The test the callback makes is the test of [proposesChange] on the
    object it would return. *)
Lemma toRecommendation_notNullish (pendingTasks : list TaskContext)
  (rec : value) (originalTask : TaskContext) :
  notNullish rec = true ->
  find (fun t => String.eqb (id t) (String_ (propOf rec "taskId"))) pendingTasks
    = Some originalTask ->
  toRecommendation pendingTasks rec =
    inr (let r :=
           makeRecommendation originalTask (propOf rec "taskId")
             (propOf rec "taskTitle") (propOf rec "currentPriority")
             (propOf rec "suggestedPriority") (propOf rec "reason")
             (dueDate originalTask)
             (if truthy (propOf rec "suggestedDueDate")
              then Date_new (propOf rec "suggestedDueDate") else None) in
         if proposesChange r then Some r else None).
Proof.
  intros Hobj Hfind. unfold toRecommendation.
  rewrite (getProp_notNullish rec "taskId" Hobj). cbn [bind].
  rewrite Hfind.
  rewrite !(getProp_notNullish rec _ Hobj). cbn [bind].
  cbv zeta. unfold proposesChange, makeRecommendation.
  cbn [currentDueDate suggestedDueDate currentPriority suggestedPriority].
  set (orig := VStr (TaskPriority_value (priority originalTask))).
  rewrite (or_truthy_l (or_ (propOf rec "currentPriority") orig) (VStr "medium"))
    by (apply or_truthy_r, TaskPriority_value_truthy).
  destruct (optionString_eqb _ _); destruct (truthy (propOf rec "suggestedPriority"));
    cbn [negb andb orb]; try reflexivity.
  destruct (String.eqb _ _); reflexivity.
Qed.

Lemma toRecommendation_kept (pendingTasks : list TaskContext) (rec : value)
  (r : TaskRecommendation) :
  toRecommendation pendingTasks rec = inr (Some r) ->
  proposesChange r = true
  /\ exists originalTask,
       In originalTask pendingTasks
       /\ id originalTask = String_ (propOf rec "taskId")
       /\ r = makeRecommendation originalTask (propOf rec "taskId")
                (propOf rec "taskTitle") (propOf rec "currentPriority")
                (propOf rec "suggestedPriority") (propOf rec "reason")
                (dueDate originalTask)
                (if truthy (propOf rec "suggestedDueDate")
                 then Date_new (propOf rec "suggestedDueDate") else None).
Proof.
  intros H.
  assert (Hobj : notNullish rec = true).
  { unfold toRecommendation in H. apply bind_returns in H.
    destruct H as (x & Hx & _). apply getProp_returns in Hx. tauto. }
  destruct (find (fun t => String.eqb (id t) (String_ (propOf rec "taskId")))
                 pendingTasks) as [originalTask|] eqn:Hfind.
  - rewrite (toRecommendation_notNullish _ _ _ Hobj Hfind) in H.
    cbv zeta in H.
    destruct (proposesChange _) eqn:Hc; [|discriminate H].
    injection H as <-. split; [exact Hc|].
    exists originalTask. apply find_some in Hfind. destruct Hfind as [Hin Heq].
    apply String.eqb_eq in Heq. auto.
  - unfold toRecommendation in H.
    rewrite (getProp_notNullish rec "taskId" Hobj) in H. cbn [bind] in H.
    rewrite Hfind in H. discriminate H.
Qed.


Lemma makeRecommendation_taskId (originalTask : TaskContext)
  (recTaskId a b c d : value) (x y : option Z) :
  id originalTask = String_ recTaskId ->
  taskId (makeRecommendation originalTask recTaskId a b c d x y) = id originalTask.
Proof.
  intros H. unfold makeRecommendation. cbn [taskId]. unfold or_.
  destruct (truthy recTaskId); [symmetry; exact H | reflexivity].
Qed.

Lemma extractRecommendations_unparseable (aiResponse : string)
  (pendingTasks : list TaskContext) (e : exn) :
  JSON.parse (cleanJson (jsonString (findJson aiResponse))) = inl e ->
  extractRecommendations aiResponse pendingTasks = inr (degraded aiResponse).
Proof.
  intros H. unfold extractRecommendations, extractBody. rewrite H.
  destruct (JsString.isEmpty _); reflexivity.
Qed.

End ExtractorFacts.


(** The current due date of a recommendation is the due date of the stored
    task it names. *)
Lemma currentDueDate_from_stored_task (R : Runtime) (aiResponse : string)
  (pendingTasks : list TaskContext) (result : WorkloadOptimizationResult)
  (r : TaskRecommendation) :
  extractRecommendations aiResponse pendingTasks = inr result ->
  In r (recommendations result) ->
  exists originalTask,
    In originalTask pendingTasks
    /\ id originalTask = taskId r
    /\ currentDueDate r = dueDate originalTask.
Proof.
  intros Hres Hr.
  destruct (extractRecommendations_cases aiResponse pendingTasks)
    as [H | (jsonData & entries & recs & _ & _ & Hmap & H)];
    rewrite H in Hres; injection Hres as <-; cbn in Hr; [destruct Hr|].
  destruct (mapRecommendations_In _ _ _ _ Hmap Hr) as (entry & _ & _ & Hto).
  apply toRecommendation_kept in Hto.
  destruct Hto as (_ & t & Hin & Hid & ->).
  exists t. split; [exact Hin|]. split; [|reflexivity].
  symmetry. apply makeRecommendation_taskId. exact Hid.
Qed.


(** * What counts as a change *)

Section CaseFacts.


Local Abbreviation small c := (ascii_of_nat (nat_of_ascii c + 32)).






End CaseFacts.

Section DateFacts.

Import JsDate.











End DateFacts.

Section ChangeFacts.

Context {R : Runtime}.




End ChangeFacts.


(** C7. With no candidate task, [optimizeWorkload] returns the fixed
    result and sends nothing to the model. *)
Theorem no_candidates_no_model_call (R : Runtime) (env : Env)
  (userId : string) (options : option Options) :
  selectCandidates (tasksOf env userId) (numberOr options maxTasks 15) = [] ->
  runProg env (optimizeWorkload userId options)
  = (inr {| analysis := "No pending tasks found to optimize.";
            recommendations := [];
            summary := EmptyString |},
     []).
Proof.
  intros H. unfold optimizeWorkload. cbn [runProg]. rewrite H. reflexivity.
Qed.

(** * The extraction strategies *)

Section RegexFacts.

Import Regex.

Lemma matchLit_forward (ic : bool) (lit : string) (k : cont) :
  forward k -> forward (fun st => matchLit ic lit st k).
Proof.
  intros Hk. induction lit as [|c lit IH]; intros st res; cbn [matchLit].
  - apply Hk.
  - destruct (rest st) as [|d s']; [discriminate|].
    destruct (sameChar ic c d); [|discriminate].
    intros H. apply IH in H. cbn [pos] in H. lia.
Qed.

Lemma matchStar_forward (p : ascii -> bool) (k : cont) :
  forward k ->
  forall s n cap res, matchStar p k n s cap = Some res -> (n <= pos res)%nat.
Proof.
  intros Hk. induction s as [|c s IH]; intros n cap res; cbn [matchStar].
  - intros H. apply Hk in H. exact H.
  - destruct (p c).
    + destruct (matchStar p k (S n) s cap) as [r|] eqn:E.
      * intros H. injection H as <-. apply IH in E. lia.
      * intros H. apply Hk in H. exact H.
    + intros H. apply Hk in H. exact H.
Qed.

Lemma matchLazyStar_forward (p : ascii -> bool) (k : cont) :
  forward k ->
  forall s n cap res, matchLazyStar p k n s cap = Some res -> (n <= pos res)%nat.
Proof.
  intros Hk. induction s as [|c s IH]; intros n cap res; cbn [matchLazyStar].
  - destruct (k (MState n EmptyString cap)) as [r|] eqn:E; [|discriminate].
    intros H. injection H as <-. apply Hk in E. exact E.
  - destruct (k (MState n (String c s) cap)) as [r|] eqn:E.
    + intros H. injection H as <-. apply Hk in E. exact E.
    + destruct (p c); [|discriminate].
      intros H. apply IH in H. lia.
Qed.

Lemma run_forward (r : regex) :
  forall k, forward k -> forward (fun st => run r st k).
Proof.
  induction r as [ic s | r IH | p | p | r1 IH1 r2 IH2 | r IH | |];
    intros k Hk st res; cbn [run].
  - apply (matchLit_forward ic s k Hk).
  - destruct (run r st k) as [x|] eqn:E.
    + intros H. injection H as <-. exact (IH k Hk st x E).
    + apply Hk.
  - apply matchStar_forward. exact Hk.
  - apply matchLazyStar_forward. exact Hk.
  - apply (IH1 (fun st' => run r2 st' k)). apply IH2. exact Hk.
  - apply (IH (fun st' => k (MState (pos st') (rest st') (Some (pos st, pos st'))))).
    intros st' res' H. apply Hk in H. exact H.
  - destruct (Nat.eqb (pos st) 0); [apply Hk | discriminate].
  - destruct (JsString.isEmpty (rest st)); [apply Hk | discriminate].
Qed.

Lemma forward_Some : forward Some.
Proof. intros st res H. injection H as <-. apply Nat.le_refl. Qed.

Lemma drop_substring (n m : nat) (s t : string) (c : ascii) :
  JsString.drop n s = String c t ->
  substring n (S m) s = String c (substring 0 m t).
Proof.
  revert s. induction n as [|n IH]; intros s H.
  - cbn in H. subst s. reflexivity.
  - destruct s as [|d s]; [discriminate H|]. cbn in H. cbn [substring].
    apply IH. exact H.
Qed.

Lemma drop_S (n : nat) (s t : string) (c : ascii) :
  JsString.drop n s = String c t -> JsString.drop (S n) s = t.
Proof.
  revert s. induction n as [|n IH]; intros s H.
  - cbn in H. subst s. reflexivity.
  - destruct s as [|d s]; [discriminate H|]. cbn in H. cbn [JsString.drop].
    apply IH. exact H.
Qed.

(** A match of a pattern that opens with a brace is a text that opens with
    that brace. *)
Lemma search_brace (r : regex) (text : string) :
  forall s n b e cap,
    JsString.drop n text = s ->
    search (Cat (Lit false "{") r) n s = Some (b, e, cap) ->
    exists t, slice text b e = String "{" t.
Proof.
  induction s as [|c s IH]; intros n b e cap Hs; cbn [search run matchLit rest pos capture].
  - discriminate.
  - destruct (sameChar false "{" c) eqn:Hc.
    + destruct (run r (MState (S n) s None) Some) as [st|] eqn:E.
      * intros H. injection H as <- <- <-.
        apply (run_forward r Some forward_Some) in E. cbn [pos] in E.
        unfold sameChar in Hc. apply Ascii.eqb_eq in Hc. subst c.
        unfold slice. replace (pos st - n)%nat with (S (pos st - S n)) by lia.
        rewrite (drop_substring _ _ _ _ _ Hs). eexists. reflexivity.
      * apply IH. exact (drop_S _ _ _ _ Hs).
    + apply IH. exact (drop_S _ _ _ _ Hs).
Qed.

Lemma match_brace_nonEmpty (r : regex) (text : string) (m : MatchArray) :
  match_ text (Cat (Lit false "{") r) = Some m ->
  JsString.isEmpty (m0 m) = false.
Proof.
  unfold match_.
  destruct (search _ 0 text) as [[[b e] cap]|] eqn:E; [|discriminate].
  intros H. injection H as <-. cbn [m0].
  destruct (search_brace r text text 0 b e cap eq_refl E) as (t & ->).
  reflexivity.
Qed.

End RegexFacts.

Section StrategyFacts.

Context {R : Runtime}.

Lemma codeBlockStrategy_nonEmpty (aiResponse s : string) :
  codeBlockStrategy aiResponse = Some s -> JsString.isEmpty s = false.
Proof.
  unfold codeBlockStrategy, nonEmpty.
  destruct (Regex.match_ aiResponse codeBlockPattern) as [m|]; [|discriminate].
  destruct (Regex.m1 m) as [g|]; [|discriminate].
  destruct (JsString.isEmpty g) eqn:E; [discriminate|].
  intros H. injection H as <-. exact E.
Qed.

Lemma jsonObjectStrategy_nonEmpty (aiResponse s : string) :
  jsonObjectStrategy aiResponse = Some s -> JsString.isEmpty s = false.
Proof.
  unfold jsonObjectStrategy.
  destruct (Regex.match_ aiResponse jsonObjectPattern) as [m|] eqn:E; [|discriminate].
  intros H. injection H as <-. exact (match_brace_nonEmpty _ _ _ E).
Qed.

Lemma tryCodeBlock_jsonString (aiResponse : string) (st : Found) :
  jsonString (tryCodeBlock aiResponse st)
  = match codeBlockStrategy aiResponse with
    | Some s => s
    | None => jsonString st
    end.
Proof.
  unfold tryCodeBlock, codeBlockStrategy, nonEmpty.
  destruct (Regex.match_ aiResponse codeBlockPattern) as [m|]; [|reflexivity].
  destruct (Regex.m1 m) as [g|]; [|reflexivity].
  destruct (JsString.isEmpty g); reflexivity.
Qed.

Lemma tryJsonObject_jsonString (aiResponse : string) (st : Found) :
  jsonString (tryJsonObject aiResponse st)
  = if JsString.isEmpty (jsonString st)
    then match jsonObjectStrategy aiResponse with
         | Some s => s
         | None => jsonString st
         end
    else jsonString st.
Proof.
  unfold tryJsonObject, jsonObjectStrategy.
  destruct (JsString.isEmpty (jsonString st)); [|reflexivity].
  destruct (Regex.match_ aiResponse jsonObjectPattern); reflexivity.
Qed.

Lemma tryAnyJson_jsonString (aiResponse : string) (st : Found) :
  jsonString (tryAnyJson aiResponse st)
  = if JsString.isEmpty (jsonString st)
    then match anyJsonStrategy aiResponse with
         | Some s => s
         | None => jsonString st
         end
    else jsonString st.
Proof.
  unfold tryAnyJson, anyJsonStrategy.
  destruct (JsString.isEmpty (jsonString st)); [|reflexivity].
  destruct (Regex.match_ aiResponse anyJsonPattern); reflexivity.
Qed.

End StrategyFacts.

(** C5, as the code has it. The three strategies are tried in order until
    one yields a text: the second is tried only when the first yields none,
    the third only when the first two yield none. The text found is parsed
    once; when it is not parseable JSON the result is the degraded one,
    whatever a later strategy would have found. *)
Theorem strategies_tried_until_one_matches (R : Runtime) (aiResponse : string)
  (pendingTasks : list TaskContext) :
  jsonString (findJson aiResponse)
  = match codeBlockStrategy aiResponse, jsonObjectStrategy aiResponse,
          anyJsonStrategy aiResponse with
    | Some s, _, _ => s
    | None, Some s, _ => s
    | None, None, Some s => s
    | None, None, None => EmptyString
    end
  /\ (parseable (jsonString (findJson aiResponse)) = false ->
      extractRecommendations aiResponse pendingTasks = inr (degraded aiResponse)).
Proof.
  split.
  - unfold findJson.
    rewrite tryAnyJson_jsonString, tryJsonObject_jsonString,
      tryCodeBlock_jsonString.
    destruct (codeBlockStrategy aiResponse) as [s1|] eqn:E1.
    + rewrite (codeBlockStrategy_nonEmpty _ _ E1).
      rewrite (codeBlockStrategy_nonEmpty _ _ E1). reflexivity.
    + cbn [jsonString notFound JsString.isEmpty].
      destruct (jsonObjectStrategy aiResponse) as [s2|] eqn:E2.
      * rewrite (jsonObjectStrategy_nonEmpty _ _ E2). reflexivity.
      * cbn [JsString.isEmpty].
        destruct (anyJsonStrategy aiResponse); reflexivity.
  - unfold parseable. intros H.
    destruct (JSON.parse _) as [e|v] eqn:E; [|discriminate H].
    exact (extractRecommendations_unparseable aiResponse pendingTasks e E).
Qed.

(** * The extractor on concrete replies *)

Section ExtractorExamples.

Import Examples Reference.



(** C3 at a reply that changes nothing. The extractor drops an entry that
    suggests the due date and the priority the task has, also when the date
    comes with a time of day and the priority in capitals. But it keeps the
    entry of [replyPriorityOnly], which suggests for task A the priority it
    has and no due date: for the extractor the absent date differs from the
    task's due date. *)
Theorem unchanged_entry_is_retained :
  (actualChange taskA (Some jan1) (Some "urgent") = false
   /\ extractRecommendations replyNoChange [taskA; taskB; taskC]
      = inr {| analysis := "Here is the plan:";
               recommendations := [];
               summary := EmptyString |})
  /\ (actualChange taskB (Some (jan1 + 34200000)) (Some "URGENT") = false
      /\ actualChange taskA (Some (jan1 + 4 * JsDate.msPerDay)) (Some "high") = true
      /\ exists result,
           extractRecommendations replyMixed [taskA; taskB; taskC] = inr result
           /\ map taskId (recommendations result) = ["A"])
  /\ (actualChange taskA None (Some "urgent") = false
      /\ extractRecommendations replyPriorityOnly [taskA; taskB; taskC]
         = inr {| analysis := "Here is the plan:";
                  recommendations :=
                    [{| taskId := "A";
                        taskTitle := VStr "Task A";
                        currentDueDate := Some jan1;
                        suggestedDueDate := None;
                        currentPriority := "urgent";
                        suggestedPriority := Some "urgent";
                        reason := VStr "keep" |}];
                  summary := EmptyString |}).
Proof.
  split; [|split].
  - split; vm_compute; reflexivity.
  - split; [vm_compute; reflexivity|]. split; [vm_compute; reflexivity|].
    eexists. split; [vm_compute; reflexivity|reflexivity].
  - split; vm_compute; reflexivity.
Qed.


Lemma strategies_tried_until_one_matches_witness :
  parseable (jsonString (findJson replyBare)) = false
  /\ extractRecommendations replyBare [taskA] = inr (degraded replyBare).
Proof.
  split; [reflexivity|].
  apply (proj2 (strategies_tried_until_one_matches runtime replyBare [taskA])).
  reflexivity.
Defined.

(** C5, as the specification words it, fails. In [replyTwoObjects] the
    first strategy yields the text of the code block, which is not parseable
    JSON, and the second would yield the object before it, which is; the
    second is not tried and the result is the degraded one. *)
Lemma later_strategy_not_tried :
  codeBlockStrategy replyTwoObjects = Some "{see above}"
  /\ parseable "{see above}" = false
  /\ jsonObjectStrategy replyTwoObjects = Some (JsString.q "{'recommendations':[]}")
  /\ parseable (JsString.q "{'recommendations':[]}") = true
  /\ firstParseable replyTwoObjects = Some (JsString.q "{'recommendations':[]}")
  /\ jsonString (findJson replyTwoObjects) = "{see above}"
  /\ extractRecommendations replyTwoObjects [taskA]
     = inr (degraded replyTwoObjects).
Proof. repeat split; vm_compute; reflexivity. Qed.

(** On a reply that is the JSON object and nothing else, the second pattern
    stops at the first closing brace after the key: the text it yields is
    the object cut short, parsing fails, and the third pattern, which would
    yield the whole object, is not tried. *)
Example bare_reply_is_cut_short :
  codeBlockStrategy replyBare = None
  /\ jsonObjectStrategy replyBare
     = Some (JsString.q "{'recommendations':[{'taskId':'A','suggestedDueDate':'2024-01-05'}")
  /\ anyJsonStrategy replyBare = Some replyBare
  /\ parseable replyBare = true
  /\ extractRecommendations replyBare [taskA] = inr (degraded replyBare).
Proof. repeat split; vm_compute; reflexivity. Qed.

(** C4 at a reply that misreports a task. Task C has priority low and no
    due date; the reply gives its current priority as high and suggests
    low. The recommendation is kept, as a change of priority, and carries
    the reply's value as current priority, not the task's. *)
Theorem current_priority_taken_from_reply :
  TaskPriority_value (priority taskC) = "low"
  /\ extractRecommendations replyEcho [taskA; taskB; taskC]
     = inr {| analysis := "Here is the plan:";
              recommendations :=
                [{| taskId := "C";
                    taskTitle := VStr "Task C";
                    currentDueDate := None;
                    suggestedDueDate := None;
                    currentPriority := "high";
                    suggestedPriority := Some "low";
                    reason := VStr "Balance workload distribution" |}];
              summary := EmptyString |}.
Proof. split; vm_compute; reflexivity. Qed.

Lemma candidates_filtered_sorted_stable_truncated_witness :
  0 <= numberOr None maxTasks 15
  /\ selectCandidates [taskC; taskD; taskB; taskA] (numberOr None maxTasks 15)
     = [taskB; taskA; taskC].
Proof.
  split; [vm_compute; discriminate|].
  rewrite (proj2 (proj2 (proj2 (proj2 (proj2
             (candidates_filtered_sorted_stable_truncated
                [taskC; taskD; taskB; taskA] None)))))).
  - reflexivity.
  - vm_compute. discriminate.
Defined.

Lemma no_candidates_no_model_call_witness :
  selectCandidates (tasksOf (env [taskD] replyMixed) "u1")
    (numberOr None maxTasks 15) = []
  /\ runProg (env [taskD] replyMixed) (optimizeWorkload "u1" None)
     = (inr {| analysis := "No pending tasks found to optimize.";
               recommendations := [];
               summary := EmptyString |},
        []).
Proof.
  split; [reflexivity|].
  apply (no_candidates_no_model_call runtime (env [taskD] replyMixed) "u1" None).
  reflexivity.
Defined.

(** An entry that is [null] has no [taskId] to read: the [TypeError] is
    caught and the whole reply is given up, its other entries included. *)
Example null_entry_gives_up_the_reply :
  extractRecommendations
    (fenced (JsString.q "{'recommendations':[{'taskId':'A','suggestedDueDate':'2024-01-05'},null]}"))
    [taskA; taskB; taskC]
  = inr (degraded
           (fenced (JsString.q "{'recommendations':[{'taskId':'A','suggestedDueDate':'2024-01-05'},null]}"))).
Proof. vm_compute. reflexivity. Qed.

(** A reply in a code block is read in full. *)
Example fenced_reply_is_extracted :
  extractRecommendations
    (fenced (JsString.q "{'recommendations':[{'taskId':'A','suggestedDueDate':'2024-01-05'}]}"))
    [taskA; taskB; taskC]
  = inr {| analysis := "Here is the plan:";
           recommendations :=
             [{| taskId := "A";
                 taskTitle := VStr "Task A";
                 currentDueDate := Some jan1;
                 suggestedDueDate := Some (jan1 + 4 * JsDate.msPerDay);
                 currentPriority := "urgent";
                 suggestedPriority := None;
                 reason := VStr "Balance workload distribution" |}];
           summary := EmptyString |}.
Proof. vm_compute. reflexivity. Qed.

(** An entry without a suggested due date, for a task that has one, counts
    as a change of date. *)
Example absent_date_counts_as_change :
  mapRecommendations [taskA]
    [VObj [("taskId", VStr "A"); ("suggestedPriority", VStr "urgent")]]
  = inr [{| taskId := "A";
            taskTitle := VStr "Task A";
            currentDueDate := Some jan1;
            suggestedDueDate := None;
            currentPriority := "urgent";
            suggestedPriority := Some "urgent";
            reason := VStr "Balance workload distribution" |}].
Proof. vm_compute. reflexivity. Qed.

(** A negative [maxTasks] counts from the end of the sorted list, and zero
    stands for the default. *)
Example negative_maxTasks_counts_from_end :
  selectCandidates [taskC; taskD; taskB; taskA]
    (numberOr (Some {| provider := None; days := None; maxTasks := Some (-1) |})
              maxTasks 15)
  = [taskB; taskA]
  /\ numberOr (Some {| provider := None; days := None; maxTasks := Some 0 |})
              maxTasks 15 = 15.
Proof. split; reflexivity. Qed.

End ExtractorExamples.

(** * The apply endpoint *)

Section ApplyFacts.

Import Apply.

Context {R : Runtime} {O : Odm}.

Lemma partialUpdate_refl (kd kp : bool) (t : Task) : partialUpdate kd kp t t.
Proof. unfold partialUpdate. auto. Qed.

Lemma partialUpdate_weaken (kd kp : bool) (t t' : Task) :
  partialUpdate kd kp t t' -> partialUpdate false false t t'.
Proof.
  unfold partialUpdate. intros (H1 & _ & _ & H4).
  repeat split; [exact H1 | discriminate | discriminate | exact H4].
Qed.

Lemma partialUpdate_trans (t1 t2 t3 : Task) :
  partialUpdate false false t1 t2 -> partialUpdate false false t2 t3 ->
  partialUpdate false false t1 t3.
Proof.
  unfold partialUpdate. intros (H1 & _ & _ & H4) (G1 & _ & _ & G4).
  repeat split; [congruence | discriminate | discriminate | auto].
Qed.

Lemma Forall2_partialUpdate_refl (kd kp : bool) (l : list Task) :
  Forall2 (partialUpdate kd kp) l l.
Proof. induction l; constructor; [apply partialUpdate_refl | assumption]. Qed.

Lemma Forall2_partialUpdate_trans (l1 l2 l3 : list Task) :
  Forall2 (partialUpdate false false) l1 l2 ->
  Forall2 (partialUpdate false false) l2 l3 ->
  Forall2 (partialUpdate false false) l1 l3.
Proof.
  intros H. revert l3. induction H as [|a b l1 l2 Hab _ IH]; intros l3 H';
    inversion H'; subst; constructor.
  - eapply partialUpdate_trans; eassumption.
  - apply IH. assumption.
Qed.

Lemma setFields_partialUpdate (t : Task) (d : option Z) (p : option string) :
  partialUpdate (match d with None => true | Some _ => false end)
                (match p with None => true | Some _ => false end)
                t (setFields t d p).
Proof.
  unfold partialUpdate, setFields. cbn.
  repeat split.
  - destruct d; [discriminate | reflexivity].
  - destruct p; [discriminate | reflexivity].
  - destruct d; [discriminate | auto].
Qed.

Lemma updateFirst_partialUpdate (kd kp : bool) (oid : string)
  (f : Task -> Task) (l : list Task) :
  (forall t, partialUpdate kd kp t (f t)) ->
  Forall2 (partialUpdate kd kp) l (fst (updateFirst oid f l)).
Proof.
  intros Hf. induction l as [|t l IH]; cbn [updateFirst].
  - constructor.
  - destruct (String.eqb (_id t) oid).
    + cbn [fst]. constructor; [apply Hf | apply Forall2_partialUpdate_refl].
    + destruct (updateFirst oid f l) as [r u]. cbn [fst] in *.
      constructor; [apply partialUpdate_refl | exact IH].
Qed.

Lemma updateFirst_setFields (oid : string) (d : option Z) (p : option string)
  (l docs' : list Task) (updated : option Task) :
  updateFirst oid (fun t => setFields t d p) l = (docs', updated) ->
  Forall2 (partialUpdate (match d with None => true | Some _ => false end)
                         (match p with None => true | Some _ => false end))
    l docs'.
Proof.
  intros E.
  replace docs' with (fst (updateFirst oid (fun t => setFields t d p) l))
    by (rewrite E; reflexivity).
  apply updateFirst_partialUpdate. intros t. apply setFields_partialUpdate.
Qed.

(** An update writes once and is partial in the keys of [updateData]. *)
Lemma findByIdAndUpdate_returns (s : Store) (idValue : value) (u : UpdateData)
  (r : Store * option Task) :
  Task_findByIdAndUpdate s idValue u = inr r ->
  writes (fst r) = S (writes s)
  /\ Forall2 (partialUpdate
                (match u_dueDate u with None => true | Some _ => false end)
                (match u_priority u with None => true | Some _ => false end))
       (docs s) (docs (fst r)).
Proof.
  unfold Task_findByIdAndUpdate.
  destruct (castObjectId idValue) as [oid|]; [|discriminate].
  destruct (u_dueDate u) as [[d|]|]; try discriminate;
    destruct (u_priority u) as [p|];
    try (destruct (castString p) as [ps|]; [|discriminate]);
    destruct (updateFirst oid _ (docs s)) as [docs' updated] eqn:E;
    intros H; injection H as <-; cbn [fst writes docs];
    (split; [reflexivity|]);
    apply updateFirst_setFields in E; exact E.
Qed.

(** What one iteration that returns has done: it has recorded an error, or
    left the state as it was, or written once. *)
Lemma applyOne_cases (user : string) (rec : value) (st st' : LoopState) :
  applyOne user rec st = inr st' ->
  notNullish rec = true
  /\ ((exists e, st' = pushError st e)
      \/ st' = st
      \/ (writes (store st') = S (writes (store st))
          /\ (exists u, updatedTasks st' = (updatedTasks st ++ [u])%list)
          /\ errors_list st' = errors_list st
          /\ Forall2 (partialUpdate
                        (negb (truthy (propOf rec "suggestedDueDate")))
                        (negb (truthy (propOf rec "suggestedPriority"))))
               (docs (store st)) (docs (store st')))).
Proof.
  assert (Hobj : applyOne user rec st = inr st' -> notNullish rec = true)
    by (destruct rec; try reflexivity; unfold applyOne, tryUpdate; cbn;
        discriminate).
  intros H. split; [exact (Hobj H)|]. specialize (Hobj H). revert H.
  unfold applyOne, tryUpdate, toStringJs.
  rewrite !(getProp_notNullish rec _ Hobj). cbn [bind].
  destruct (throwsOnString (propOf rec "taskId"));
    destruct (Task_findOne (store st) (propOf rec "taskId") user) as [e | [t|]];
    cbn [bind try_catch throw ret]; try discriminate;
    try (intros H; injection H as <-; left; eexists; reflexivity);
    (destruct (0 <? keysLength _)%nat;
     [destruct (Task_findByIdAndUpdate _ _ _) as [e | r] eqn:E;
      cbn [bind try_catch throw ret]; try discriminate;
      try (intros H; injection H as <-; left; eexists; reflexivity);
      intros H; injection H as <-; right; right;
      apply findByIdAndUpdate_returns in E; destruct E as [Hw Hf];
      cbn [store updatedTasks errors_list u_dueDate u_priority] in *;
      repeat split; [exact Hw | eexists; reflexivity |];
      destruct (truthy (propOf rec "suggestedDueDate"));
      destruct (truthy (propOf rec "suggestedPriority")); exact Hf
     |cbn [try_catch ret]; intros H; injection H as <-; right; left; reflexivity]).
Qed.

(** An entry that is not [null] and whose task identifier can be written
    into a message never makes the iteration throw. *)
Lemma applyOne_notNullish (user : string) (rec : value) (st : LoopState) :
  notNullish rec = true ->
  throwsOnString (propOf rec "taskId") = false ->
  exists st', applyOne user rec st = inr st'.
Proof.
  intros Hobj Hstr. unfold applyOne, tryUpdate, toStringJs.
  rewrite !(getProp_notNullish rec _ Hobj). cbn [bind]. rewrite Hstr.
  destruct (Task_findOne (store st) (propOf rec "taskId") user) as [e | [t|]];
    cbn [bind try_catch throw ret]; try (eexists; reflexivity).
  destruct (0 <? keysLength _)%nat; [|eexists; reflexivity].
  destruct (Task_findByIdAndUpdate _ _ _) as [e | r];
    cbn [bind try_catch throw ret]; eexists; reflexivity.
Qed.

Lemma applyOne_returns (user : string) (rec : value) (st st' : LoopState) :
  applyOne user rec st = inr st' -> notNullish rec = true.
Proof. intros H. exact (proj1 (applyOne_cases _ _ _ _ H)). Qed.

(** One iteration is a partial update of the store. *)
Lemma applyOne_partialUpdate (user : string) (rec : value) (st st' : LoopState) :
  applyOne user rec st = inr st' ->
  Forall2 (partialUpdate (negb (truthy (propOf rec "suggestedDueDate")))
                         (negb (truthy (propOf rec "suggestedPriority"))))
    (docs (store st)) (docs (store st')).
Proof.
  intros H. destruct (applyOne_cases _ _ _ _ H) as [_ Hc].
  destruct Hc as [(e & ->) | [-> | (_ & _ & _ & Hf)]];
    [apply Forall2_partialUpdate_refl | apply Forall2_partialUpdate_refl | exact Hf].
Qed.

Lemma Forall2_partialUpdate_weaken (kd kp : bool) (l l' : list Task) :
  Forall2 (partialUpdate kd kp) l l' -> Forall2 (partialUpdate false false) l l'.
Proof.
  intros H. eapply Forall2_impl; [|exact H].
  intros a b. apply partialUpdate_weaken.
Qed.

(** The loop, however it ends, is a partial update of the store. *)
Lemma applyAll_partialUpdate (user : string) (recs : list value) :
  forall st,
    Forall2 (partialUpdate false false) (docs (store st))
      (docs (store match applyAll user recs st with
                   | inl (_, st') => st'
                   | inr st' => st'
                   end)).
Proof.
  induction recs as [|rec recs IH]; intros st; cbn [applyAll].
  - apply Forall2_partialUpdate_refl.
  - destruct (applyOne user rec st) as [e | st1] eqn:E.
    + apply Forall2_partialUpdate_refl.
    + eapply Forall2_partialUpdate_trans; [|apply IH].
      eapply Forall2_partialUpdate_weaken, applyOne_partialUpdate. exact E.
Qed.

(** Whether a lookup finds a task or not does not change with partial
    updates, which keep identifiers and owners. *)
Lemma findOne_none_stable (s s' : Store) (idValue : value) (user : string) :
  Forall2 (partialUpdate false false) (docs s) (docs s') ->
  Task_findOne s idValue user = inr None ->
  Task_findOne s' idValue user = inr None.
Proof.
  unfold Task_findOne. destruct (castObjectId idValue) as [oid|]; [|discriminate].
  intros H. induction H as [|t t' l l' Ht _ IH]; cbn [find]; [auto|].
  destruct Ht as (Ho & _). unfold otherFields in Ho.
  injection Ho as -> -> _ _ _ _ _ _ _ _.
  destruct (String.eqb (_id t) oid && String.eqb (userId t) user);
    [discriminate | exact IH].
Qed.

Lemma applyOne_not_found (user : string) (rec : value) (st : LoopState) :
  notNullish rec = true ->
  throwsOnString (propOf rec "taskId") = false ->
  Task_findOne (store st) (propOf rec "taskId") user = inr None ->
  applyOne user rec st
  = inr (pushError st ("Task " ++ String_ (propOf rec "taskId") ++ " not found")).
Proof.
  intros Hobj Hstr H. unfold applyOne, tryUpdate, toStringJs.
  rewrite (getProp_notNullish rec _ Hobj). cbn [bind]. rewrite H, Hstr.
  reflexivity.
Qed.

Lemma applyOne_uncastable (user : string) (rec : value) (st : LoopState) :
  notNullish rec = true ->
  throwsOnString (propOf rec "taskId") = false ->
  castObjectId (propOf rec "taskId") = None ->
  applyOne user rec st
  = inr (pushError st
           ("Failed to update task " ++ String_ (propOf rec "taskId") ++ ": "
            ++ castErrorMessage "_id")).
Proof.
  intros Hobj Hstr H. unfold applyOne, tryUpdate, Task_findOne, toStringJs.
  rewrite !(getProp_notNullish rec _ Hobj). cbn [bind]. rewrite H, Hstr.
  reflexivity.
Qed.

(** A batch of such entries runs to its end: the tasks counted are the
    writes made, and every entry whose task is not found, or whose
    identifier cannot be cast, has its error listed. *)
Lemma applyAll_objects (user : string) (recs : list value) :
  forall st,
    forallb nameable recs = true ->
    exists st',
      applyAll user recs st = inr st'
      /\ (List.length (updatedTasks st') + writes (store st)
          = List.length (updatedTasks st) + writes (store st'))%nat
      /\ (forall e, In e (errors_list st) -> In e (errors_list st'))
      /\ (forall rec, In rec recs ->
            Task_findOne (store st) (propOf rec "taskId") user = inr None ->
            In ("Task " ++ String_ (propOf rec "taskId") ++ " not found")
               (errors_list st'))
      /\ (forall rec, In rec recs ->
            castObjectId (propOf rec "taskId") = None ->
            In ("Failed to update task " ++ String_ (propOf rec "taskId") ++ ": "
                ++ castErrorMessage "_id")
               (errors_list st')).
Proof.
  induction recs as [|rec recs IH]; intros st Hall; cbn [applyAll].
  - exists st. repeat split; auto; intros rec [].
  - cbn [forallb] in Hall. apply andb_true_iff in Hall. destruct Hall as [Hrec Hall].
    unfold nameable in Hrec. apply andb_true_iff in Hrec.
    destruct Hrec as [Hobj Hstr]. apply negb_true_iff in Hstr.
    destruct (applyOne_notNullish user rec st Hobj Hstr) as (st1 & H1).
    destruct (applyOne_cases _ _ _ _ H1) as [_ Hc].
    rewrite H1.
    destruct (IH st1 Hall) as (st' & Hrun & Hcount & Herr & Hnf & Hcast).
    exists st'. split; [exact Hrun|].
    pose proof (applyOne_partialUpdate _ _ _ _ H1) as Hframe.
    apply Forall2_partialUpdate_weaken in Hframe.
    assert (Hkeep : forall e, In e (errors_list st) -> In e (errors_list st1)).
    { destruct Hc as [(e & ->) | [-> | (_ & _ & He & _)]]; intros x Hx.
      - cbn. apply in_or_app. left. exact Hx.
      - exact Hx.
      - rewrite He. exact Hx. }
    split; [|split; [|split]].
    + destruct Hc as [(e & ->) | [-> | (Hw & (u & Hu) & _ & _)]].
      * cbn [pushError store updatedTasks] in *. exact Hcount.
      * exact Hcount.
      * rewrite Hu, Hw in Hcount. rewrite length_app in Hcount. cbn in Hcount. lia.
    + intros e He. apply Herr, Hkeep, He.
    + intros rec' [<- | Hin] Hnone.
      * rewrite (applyOne_not_found user rec st Hobj Hstr Hnone) in H1.
        injection H1 as <-. apply Herr. cbn. apply in_or_app. right. left. reflexivity.
      * apply Hnf; [exact Hin|].
        eapply findOne_none_stable; eassumption.
    + intros rec' [<- | Hin] Hnone.
      * rewrite (applyOne_uncastable user rec st Hobj Hstr Hnone) in H1.
        injection H1 as <-. apply Herr. cbn. apply in_or_app. right. left. reflexivity.
      * apply Hcast; assumption.
Qed.

End ApplyFacts.

(** C8. Applying a recommendation is a partial update. Whatever the entry
    and the state of the loop, every task keeps all its fields other than
    the due date and the priority; it keeps its due date when the entry
    supplies no [suggestedDueDate], and its priority when the entry supplies
    no [suggestedPriority]. The same holds of the other fields over a whole
    request. *)
Theorem apply_update_is_partial (R : Runtime) (O : Apply.Odm) (user : string) :
  (forall rec st st',
      Apply.applyOne user rec st = inr st' ->
      Forall2 (fun t t' =>
                 otherFields t' = otherFields t
                 /\ (truthy (propOf rec "suggestedDueDate") = false ->
                     Apply.dueDate t' = Apply.dueDate t)
                 /\ (truthy (propOf rec "suggestedPriority") = false ->
                     Apply.priority t' = Apply.priority t))
        (Apply.docs (Apply.store st)) (Apply.docs (Apply.store st')))
  /\ (forall recs s,
        Forall2 (fun t t' => otherFields t' = otherFields t)
          (Apply.docs s)
          (Apply.docs (snd (Apply.applyWorkloadOptimization (Some user) recs s)))).
Proof.
  split.
  - intros rec st st' H. apply applyOne_partialUpdate in H.
    eapply Forall2_impl; [|exact H].
    intros t t' (H1 & H2 & H3 & _). repeat split.
    + exact H1.
    + intros E. apply H2. rewrite E. reflexivity.
    + intros E. apply H3. rewrite E. reflexivity.
  - intros recs s. unfold Apply.applyWorkloadOptimization.
    pose proof (applyAll_partialUpdate user recs
                  {| Apply.store := s; Apply.updatedTasks := [];
                     Apply.errors_list := [] |}) as H.
    cbn [Apply.store] in H.
    destruct (Apply.applyAll user recs _) as [[e st] | st]; cbn [snd];
      (eapply Forall2_impl; [|exact H]); intros t t' (H1 & _); exact H1.
Qed.

Section RouteFacts.

Import Apply.

Context {R : Runtime} {O : Odm} {V : Validator}.

Lemma isEmptyField_object (rec : value) :
  isEmptyField (propOf rec "taskId") = false -> notNullish rec = true.
Proof. destruct rec; try reflexivity; cbn; discriminate. Qed.

Lemma flat_map_nil {A B} (f : A -> list B) (l : list A) :
  flat_map f l = [] -> forall x, In x l -> f x = [].
Proof.
  induction l as [|y l IH]; cbn [flat_map]; intros H x Hx; [destruct Hx|].
  apply app_eq_nil in H. destruct H as [Hy Hl].
  destruct Hx as [<-|Hx]; [exact Hy|exact (IH Hl x Hx)].
Qed.

(** A body that passes validation holds an array of objects, each with a
    task identifier that is not empty. *)
Lemma validation_passed (body : value) :
  validationErrors body = [] ->
  exists recs,
    propOf body "recommendations" = VArr recs
    /\ forallb notNullish recs = true
    /\ forall rec, In rec recs -> isEmptyField (propOf rec "taskId") = false.
Proof.
  unfold validationErrors. cbv zeta. intros H.
  apply app_eq_nil in H. destruct H as [Harr Hall].
  destruct (propOf body "recommendations") as [| | | | |recs|] eqn:E;
    try discriminate Harr.
  exists recs. split; [reflexivity|]. cbn [wildcard] in Hall.
  assert (Hfield : forall rec, In rec recs ->
                     isEmptyField (propOf rec "taskId") = false).
  { intros rec Hin. pose proof (flat_map_nil _ _ Hall rec Hin) as Hrec.
    cbv beta in Hrec.
    destruct (isEmptyField (propOf rec "taskId")); [discriminate Hrec|reflexivity]. }
  split; [|exact Hfield].
  apply forallb_forall. intros rec Hin. apply isEmptyField_object, Hfield, Hin.
Qed.

Lemma postApply_refused (userId : option string) (body : value) (s : Store) :
  validationErrors body <> [] ->
  postApplyWorkloadOptimization userId body s
  = (Status400 (validationErrors body), s).
Proof.
  intros H. unfold postApplyWorkloadOptimization.
  destruct (propOf body "recommendations"); try reflexivity.
  destruct (validationErrors body); [contradiction|reflexivity].
Qed.

Lemma postApply_passed (userId : option string) (body : value) (s : Store)
  (recs : list value) :
  validationErrors body = [] ->
  propOf body "recommendations" = VArr recs ->
  postApplyWorkloadOptimization userId body s
  = applyWorkloadOptimization userId recs s.
Proof.
  intros H E. unfold postApplyWorkloadOptimization. rewrite E, H. reflexivity.
Qed.

End RouteFacts.

(** C9. What the route reports of the entries it cannot resolve. A body
    that fails validation (its [recommendations] are no array, or an entry
    has no task identifier) is refused whole, with status 400 and the store
    as it was. A body that passes holds an array of entries. When their
    task identifiers convert to strings, as strings do, an entry whose task
    is not found for the requesting user, because there is none or because
    it is another user's, adds the error [Task <id> not found], and an entry
    whose identifier the store cannot cast adds [Failed to update task <id>:
    ...]; either leaves the store and the list of updated tasks as they were
    and lets the loop go on. Such a batch always ends with the success
    reply, in which [updated] is the number of updates made to the store. *)
Theorem unresolved_entries_are_reported (R : Runtime) (O : Apply.Odm)
  (V : Apply.Validator) (user : string) :
  (forall rec st e,
      nameable rec = true ->
      (Apply.Task_findOne (Apply.store st) (propOf rec "taskId") user = inr None
       /\ e = "Task " ++ String_ (propOf rec "taskId") ++ " not found")
      \/ (Apply.castObjectId (propOf rec "taskId") = None
          /\ e = "Failed to update task " ++ String_ (propOf rec "taskId")
                 ++ ": " ++ Apply.castErrorMessage "_id") ->
      exists st',
        Apply.applyOne user rec st = inr st'
        /\ Apply.store st' = Apply.store st
        /\ Apply.updatedTasks st' = Apply.updatedTasks st
        /\ Apply.errors_list st' = (Apply.errors_list st ++ [e])%list)
  /\ (forall s idValue oid,
        Apply.castObjectId idValue = Some oid ->
        (forall t, In t (Apply.docs s) ->
                   Apply._id t = oid -> Apply.userId t <> user) ->
        Apply.Task_findOne s idValue user = inr None)
  /\ (forall body s,
        Apply.validationErrors body <> [] ->
        Apply.postApplyWorkloadOptimization (Some user) body s
        = (Apply.Status400 (Apply.validationErrors body), s))
  /\ (forall body,
        Apply.validationErrors body = [] ->
        exists recs,
          propOf body "recommendations" = VArr recs
          /\ forall rec, In rec recs ->
               notNullish rec = true
               /\ Apply.isEmptyField (propOf rec "taskId") = false)
  /\ (forall body s recs,
        Apply.validationErrors body = [] ->
        propOf body "recommendations" = VArr recs ->
        (forall rec, In rec recs ->
                     throwsOnString (propOf rec "taskId") = false) ->
        exists updated errors msg s',
          Apply.postApplyWorkloadOptimization (Some user) body s
          = (Apply.Success updated errors msg, s')
          /\ updated = (Apply.writes s' - Apply.writes s)%nat
          /\ forall rec,
               In rec recs ->
               (Apply.Task_findOne s (propOf rec "taskId") user = inr None ->
                exists l, errors = Some l
                  /\ In ("Task " ++ String_ (propOf rec "taskId") ++ " not found") l)
               /\ (Apply.castObjectId (propOf rec "taskId") = None ->
                   exists l, errors = Some l
                     /\ In ("Failed to update task "
                            ++ String_ (propOf rec "taskId") ++ ": "
                            ++ Apply.castErrorMessage "_id") l)).
Proof.
  split; [|split; [|split; [|split]]].
  - intros rec st e Hrec Hcase. unfold nameable in Hrec.
    apply andb_true_iff in Hrec. destruct Hrec as [Hobj Hstr].
    apply negb_true_iff in Hstr.
    destruct Hcase as [[Hnone ->]|[Hcast ->]].
    + rewrite (applyOne_not_found user rec st Hobj Hstr Hnone).
      eexists. repeat split.
    + rewrite (applyOne_uncastable user rec st Hobj Hstr Hcast).
      eexists. repeat split.
  - intros s idValue oid Hc Hall. unfold Apply.Task_findOne. rewrite Hc. f_equal.
    induction (Apply.docs s) as [|t l IH]; [reflexivity|]. cbn [find].
    destruct (String.eqb (Apply._id t) oid) eqn:E1; cbn [andb].
    + apply String.eqb_eq in E1.
      destruct (String.eqb (Apply.userId t) user) eqn:E2.
      * apply String.eqb_eq in E2.
        exfalso. exact (Hall t (or_introl eq_refl) E1 E2).
      * apply IH. intros t' Hin. apply Hall. right. exact Hin.
    + apply IH. intros t' Hin. apply Hall. right. exact Hin.
  - intros body s. apply postApply_refused.
  - intros body Hvalid.
    destruct (validation_passed body Hvalid) as (recs & Hrecs & Hall & Hfield).
    exists recs. split; [exact Hrecs|]. intros rec Hin.
    rewrite forallb_forall in Hall. auto.
  - intros body s recs Hvalid Hrecs Hstr.
    destruct (validation_passed body Hvalid) as (recs' & Hrecs' & Hall & _).
    rewrite Hrecs in Hrecs'. injection Hrecs' as <-.
    rewrite (postApply_passed _ _ _ _ Hvalid Hrecs).
    unfold Apply.applyWorkloadOptimization.
    assert (Hnameable : forallb nameable recs = true).
    { apply forallb_forall. intros rec Hin. unfold nameable.
      rewrite forallb_forall in Hall. rewrite (Hall rec Hin), (Hstr rec Hin).
      reflexivity. }
    destruct (applyAll_objects user recs
                {| Apply.store := s; Apply.updatedTasks := [];
                   Apply.errors_list := [] |} Hnameable)
      as (st & Hrun & Hcount & _ & Hnf & Hcast).
    rewrite Hrun. do 4 eexists. split; [reflexivity|].
    cbn [Apply.store Apply.updatedTasks List.length] in Hcount.
    split; [lia|].
    assert (Hsome : forall e, In e (Apply.errors_list st) ->
              exists l,
                (if (0 <? List.length (Apply.errors_list st))%nat
                 then Some (Apply.errors_list st) else None) = Some l
                /\ In e l).
    { intros e He. destruct (Apply.errors_list st) as [|x l]; [destruct He|].
      cbn [List.length Nat.ltb Nat.leb]. eexists. split; [reflexivity|exact He]. }
    intros rec Hin. split.
    + intros Hnone. apply Hsome. exact (Hnf rec Hin Hnone).
    + intros Hnone. apply Hsome. exact (Hcast rec Hin Hnone).
Qed.

(** C10. An entry that names a task of the requesting user and supplies
    neither a due date nor a priority changes nothing: no write, no error,
    nothing counted. And no request removes a due date: a task that has one
    before the request has one after it. *)
Theorem empty_suggestion_is_skipped (R : Runtime) (O : Apply.Odm) :
  (forall user rec st t,
      notNullish rec = true ->
      Apply.Task_findOne (Apply.store st) (propOf rec "taskId") user
        = inr (Some t) ->
      truthy (propOf rec "suggestedDueDate") = false ->
      truthy (propOf rec "suggestedPriority") = false ->
      Apply.applyOne user rec st = inr st)
  /\ (forall userId recs s,
        Forall2 (fun t t' => Apply.dueDate t <> None -> Apply.dueDate t' <> None)
          (Apply.docs s)
          (Apply.docs (snd (Apply.applyWorkloadOptimization userId recs s)))).
Proof.
  split.
  - intros user rec st t Hobj Hfind Hd Hp. unfold Apply.applyOne, Apply.tryUpdate.
    rewrite !(getProp_notNullish rec _ Hobj). cbn [bind].
    rewrite Hfind, Hd, Hp. reflexivity.
  - intros userId recs s. unfold Apply.applyWorkloadOptimization.
    destruct userId as [user|]; cbn [snd].
    + pose proof (applyAll_partialUpdate user recs
                    {| Apply.store := s; Apply.updatedTasks := [];
                       Apply.errors_list := [] |}) as H.
      cbn [Apply.store] in H.
      destruct (Apply.applyAll user recs _) as [[e st] | st]; cbn [snd];
        (eapply Forall2_impl; [|exact H]); intros t t' (_ & _ & _ & H4); exact H4.
    + induction (Apply.docs s); constructor; auto.
Qed.

(** * The apply endpoint on concrete requests *)

Section ApplyExamples.

Import Examples Reference Apply.

(** A recommendation with a priority only: the due date of the task stays;
    with a due date only: its priority stays. *)
Lemma apply_update_is_partial_witness :
  (exists st',
      applyOne alice (entry id1 [("suggestedPriority", VStr "urgent")]) loop0
        = inr st'
      /\ map (fun t => (priority t, dueDate t)) (docs (store st'))
         = [("urgent", Some jan1); ("high", Some jan1); ("medium", None)]
      /\ Forall2 (fun t t' =>
                    otherFields t' = otherFields t
                    /\ (false = false -> dueDate t' = dueDate t)
                    /\ (true = false -> priority t' = priority t))
           (docs store0) (docs (store st')))
  /\ (exists st',
        applyOne alice (entry id3 [("suggestedDueDate", VStr "2024-01-01")]) loop0
          = inr st'
        /\ map (fun t => (priority t, dueDate t)) (docs (store st'))
           = [("low", Some jan1); ("high", Some jan1); ("medium", Some jan1)]).
Proof.
  split.
  - eexists. split; [vm_compute; reflexivity|]. split; [reflexivity|].
    exact (proj1 (apply_update_is_partial runtime odm alice)
             (entry id1 [("suggestedPriority", VStr "urgent")]) loop0 _ eq_refl).
  - eexists. split; [vm_compute; reflexivity | reflexivity].
Defined.

(** The scenario of the specification, with an entry that names a task of
    another user and one whose identifier is not the store's: one task is
    updated, three errors are reported, and the other user's task is as it
    was. *)
Lemma unresolved_entries_are_reported_witness :
  validationErrors (batch recsScenario) = []
  /\ postApplyWorkloadOptimization (Some alice) (batch recsScenario) store0
     = (Success 1
          (Some ["Task " ++ idMissing ++ " not found";
                 "Task " ++ id2 ++ " not found";
                 "Failed to update task nope: Cast failed at path _id"])
          "Successfully updated 1 task(s)",
        {| docs := [doc id1 alice "urgent" (Some jan1);
                    doc id2 bob "high" (Some jan1);
                    doc id3 alice "medium" None];
           writes := 1 |})
  /\ (exists updated errors msg s',
        postApplyWorkloadOptimization (Some alice) (batch recsScenario) store0
        = (Success updated errors msg, s')
        /\ updated = (writes s' - writes store0)%nat
        /\ forall rec,
             In rec recsScenario ->
             (Task_findOne store0 (propOf rec "taskId") alice = inr None ->
              exists l, errors = Some l
                /\ In ("Task " ++ String_ (propOf rec "taskId") ++ " not found") l)
             /\ (castObjectId (propOf rec "taskId") = None ->
                 exists l, errors = Some l
                   /\ In ("Failed to update task "
                          ++ String_ (propOf rec "taskId") ++ ": "
                          ++ castErrorMessage "_id") l))
  /\ exists st',
       applyOne alice (entry id2 [("suggestedPriority", VStr "low")]) loop0
         = inr st'
       /\ store st' = store0
       /\ updatedTasks st' = []
       /\ errors_list st' = ["Task " ++ id2 ++ " not found"].
Proof.
  split; [reflexivity|]. split; [vm_compute; reflexivity|]. split.
  - apply (proj2 (proj2 (proj2 (proj2
             (unresolved_entries_are_reported runtime odm validator alice))))
             (batch recsScenario) store0 recsScenario eq_refl eq_refl).
    intros rec [<-|[<-|[<-|[<-|[]]]]]; reflexivity.
  - exact (proj1 (unresolved_entries_are_reported runtime odm validator alice)
             (entry id2 [("suggestedPriority", VStr "low")]) loop0 _
             eq_refl (or_introl (conj eq_refl eq_refl))).
Defined.

(** C9, as the specification words it, fails in four ways. An entry
    without a task identifier makes the route refuse the whole batch, its
    first entry, which is in order, included. A task that does not exist
    under an identifier the store cannot cast is reported with the message
    of the cast error, not as [Task nope not found]. Two entries for the
    same task count as two updates of one task. And an entry whose task
    identifier does not convert to a string ends the loop: the request
    fails, after its first entry has been applied. *)
Lemma batch_not_reported_as_specified :
  (postApplyWorkloadOptimization (Some alice) (batch recsNoId) store0
   = (Status400 ["Task ID is required"], store0)
   /\ ~ reportedAsSpecified alice recsNoId store0
         (postApplyWorkloadOptimization (Some alice) (batch recsNoId) store0))
  /\ (postApplyWorkloadOptimization (Some alice) (batch recsNope) store0
      = (Success 0 (Some ["Failed to update task nope: Cast failed at path _id"])
           "Successfully updated 0 task(s)", store0)
      /\ ~ reportedAsSpecified alice recsNope store0
            (postApplyWorkloadOptimization (Some alice) (batch recsNope) store0))
  /\ (fst (postApplyWorkloadOptimization (Some alice) (batch recsTwice) store0)
      = Success 2 None "Successfully updated 2 task(s)"
      /\ tasksUpdated store0
           (snd (postApplyWorkloadOptimization (Some alice) (batch recsTwice) store0))
         = 1%nat
      /\ ~ reportedAsSpecified alice recsTwice store0
            (postApplyWorkloadOptimization (Some alice) (batch recsTwice) store0))
  /\ (validationErrors (batch recsUnnameable) = []
      /\ postApplyWorkloadOptimization (Some alice) (batch recsUnnameable) store0
         = (Status500 "Failed to apply workload optimization"
              "Cannot convert object to primitive value",
            {| docs := [doc id1 alice "urgent" (Some jan1);
                        doc id2 bob "high" (Some jan1);
                        doc id3 alice "medium" None];
               writes := 1 |})
      /\ ~ reportedAsSpecified alice recsUnnameable store0
            (postApplyWorkloadOptimization (Some alice) (batch recsUnnameable)
               store0)).
Proof.
  split; [|split; [|split]].
  - split; [vm_compute; reflexivity|].
    intros (u & e & m & H & _). vm_compute in H. discriminate H.
  - split; [vm_compute; reflexivity|].
    intros (u & e & m & H & _ & Hrep). vm_compute in H. injection H as <- <- <-.
    destruct (Hrep (entry "nope" [("suggestedPriority", VStr "low")])
                (or_introl eq_refl) eq_refl) as (l & Hl & Hin).
    injection Hl as <-. vm_compute in Hin. destruct Hin as [Hin|[]].
    discriminate Hin.
  - split; [vm_compute; reflexivity|]. split; [vm_compute; reflexivity|].
    intros (u & e & m & H & Hn & _). vm_compute in H. injection H as <- <- <-.
    vm_compute in Hn. discriminate Hn.
  - split; [vm_compute; reflexivity|]. split; [vm_compute; reflexivity|].
    intros (u & e & m & H & _). vm_compute in H. discriminate H.
Qed.

(** An entry with a task identifier and nothing else. *)
Lemma empty_suggestion_is_skipped_witness :
  applyOne alice (entry id1 [("suggestedDueDate", VNull)]) loop0 = inr loop0
  /\ applyWorkloadOptimization (Some alice)
       [entry id1 [("suggestedDueDate", VNull)]] store0
     = (Success 0 None "Successfully updated 0 task(s)", store0).
Proof.
  split; [|vm_compute; reflexivity].
  exact (proj1 (empty_suggestion_is_skipped runtime odm) alice
           (entry id1 [("suggestedDueDate", VNull)]) loop0
           (doc id1 alice "low" (Some jan1)) eq_refl eq_refl eq_refl eq_refl).
Defined.

(** An identifier the store cannot cast makes the lookup throw: the entry
    is reported with the message of the error, and the loop goes on. *)
Example uncastable_id_is_reported :
  applyWorkloadOptimization (Some alice)
    [entry "nope" [("suggestedPriority", VStr "low")];
     entry id3 [("suggestedDueDate", VStr "not a date")];
     entry id3 [("suggestedPriority", VStr "high")]]
    store0
  = (Success 1
       (Some ["Failed to update task nope: Cast failed at path _id";
              "Failed to update task " ++ id3 ++ ": Cast failed at path dueDate"])
       "Successfully updated 1 task(s)",
     {| docs := [doc id1 alice "low" (Some jan1);
                 doc id2 bob "high" (Some jan1);
                 doc id3 alice "high" None];
        writes := 1 |}).
Proof. vm_compute. reflexivity. Qed.

(** An entry that is [null] has no task identifier: the route refuses the
    batch. *)
Example null_entry_is_refused :
  postApplyWorkloadOptimization (Some alice)
    (batch [entry id1 [("suggestedPriority", VStr "urgent")]; VNull]) store0
  = (Status400 ["Task ID is required"], store0)
  /\ postApplyWorkloadOptimization (Some alice)
       (VObj [("recommendations", VStr "all")]) store0
     = (Status400 ["Recommendations must be an array"], store0)
  /\ postApplyWorkloadOptimization None (batch []) store0
     = (Status401 "User not authenticated", store0).
Proof. repeat split; vm_compute; reflexivity. Qed.

(** Were it to reach the loop, an entry that is [null] would throw in the
    [try] block and again in the [catch] block: the request would fail, and
    the writes made before would stay. *)
Example null_entry_fails_the_request :
  applyWorkloadOptimization (Some alice)
    [entry id1 [("suggestedPriority", VStr "urgent")]; VNull] store0
  = (Status500 "Failed to apply workload optimization"
       "Cannot read properties of null (reading 'taskId')",
     {| docs := [doc id1 alice "urgent" (Some jan1);
                 doc id2 bob "high" (Some jan1);
                 doc id3 alice "medium" None];
        writes := 1 |}).
Proof. vm_compute. reflexivity. Qed.

End ApplyExamples.

(** * Lists and texts *)

Section ListFacts.

Lemma insertSorted_Permutation {A} (cmp : A -> A -> Z) (x : A) (l : list A) :
  Permutation (insertSorted cmp x l) (x :: l).
Proof.
  induction l as [|y l IH]; simpl; [reflexivity|].
  destruct (cmp x y <=? 0); [reflexivity|].
  rewrite IH. apply perm_swap.
Qed.

Lemma Array_sort_Permutation {A} (cmp : A -> A -> Z) (l : list A) :
  Permutation (Array_sort cmp l) l.
Proof.
  induction l as [|x l IH]; simpl; [reflexivity|].
  unfold Array_sort in *. simpl.
  rewrite insertSorted_Permutation. now constructor.
Qed.

Lemma mapi_from_map {A B C} (g : B -> C) (f : nat -> A -> B) (h : A -> C)
  (l : list A) :
  (forall n a, g (f n a) = h a) ->
  forall i, map g (mapi_from i f l) = map h l.
Proof.
  intros Hgf. induction l as [|x l IH]; intros i; simpl; [reflexivity|].
  now rewrite Hgf, IH.
Qed.

Lemma mapi_from_In {A B} (f : nat -> A -> B) (l : list A) (y : B) :
  forall i, In y (mapi_from i f l) -> exists n a, In a l /\ y = f n a.
Proof.
  induction l as [|x l IH]; intros i; simpl; [tauto|].
  intros [H|H].
  - exists i, x. auto.
  - destruct (IH _ H) as (n & a & Ha & Hy). exists n, a. auto.
Qed.

Lemma mapi_from_nth_error {A B} (f : nat -> A -> B) (l : list A) :
  forall i n y,
    nth_error (mapi_from i f l) n = Some y ->
    exists a, nth_error l n = Some a /\ y = f (i + n)%nat a.
Proof.
  induction l as [|x l IH]; intros i n y; destruct n as [|n]; simpl;
    try discriminate.
  - intros H. injection H as <-. exists x. now rewrite Nat.add_0_r.
  - intros H. destruct (IH _ _ _ H) as (a & Ha & ->). exists a.
    split; [exact Ha|]. f_equal. lia.
Qed.

Lemma mapi_from_length {A B} (f : nat -> A -> B) (l : list A) :
  forall i, List.length (mapi_from i f l) = List.length l.
Proof. induction l as [|x l IH]; intros i; simpl; [reflexivity|now rewrite IH]. Qed.

Lemma mapi_from_sorted {A B} (f : nat -> A -> B) (P : A -> A -> Prop)
  (Q : B -> B -> Prop) (l : list A) :
  (forall n m a b, P a b -> Q (f n a) (f m b)) ->
  StronglySorted P l -> forall i, StronglySorted Q (mapi_from i f l).
Proof.
  intros HPQ. induction 1 as [|x l Hs IH Hx]; intros i; simpl.
  - constructor.
  - constructor; [apply IH|].
    apply Forall_forall. intros y Hy.
    destruct (mapi_from_In _ _ _ _ Hy) as (n & a & Ha & ->).
    apply HPQ. rewrite Forall_forall in Hx. now apply Hx.
Qed.

Lemma countIf_disjoint {A} (p q : A -> bool) (l : list A) :
  (forall a, In a l -> p a = true -> q a = true -> False) ->
  (Service.countIf p l + Service.countIf q l <= List.length l)%nat.
Proof.
  unfold Service.countIf.
  induction l as [|x l IH]; intros Hpq; simpl; [lia|].
  assert (IH' := IH (fun a Ha => Hpq a (or_intror Ha))).
  destruct (p x) eqn:Ep, (q x) eqn:Eq; simpl; try lia.
  exfalso. apply (Hpq x); simpl; auto.
Qed.

Lemma countIf_disjoint3 {A} (p q r : A -> bool) (l : list A) :
  (forall a, p a = true -> q a = true -> False) ->
  (forall a, p a = true -> r a = true -> False) ->
  (forall a, q a = true -> r a = true -> False) ->
  (Service.countIf p l + Service.countIf q l + Service.countIf r l <= List.length l)%nat.
Proof.
  intros Hpq Hpr Hqr. unfold Service.countIf.
  induction l as [|x l IH]; simpl; [lia|].
  destruct (p x) eqn:Ep, (q x) eqn:Eq, (r x) eqn:Er; simpl; try lia;
    exfalso; eauto.
Qed.

Lemma In_Array_slice0 {A} (n : Z) (l : list A) (x : A) :
  In x (Array_slice0 n l) -> In x l.
Proof.
  unfold Array_slice0.
  destruct (n <? 0); intros H;
    match type of H with
    | In _ (firstn ?k _) => rewrite <- (firstn_skipn k l)
    end; apply in_or_app; now left.
Qed.

Import Prompt.

Lemma append_assoc (a b c : string) : (a ++ b) ++ c = a ++ (b ++ c).
Proof. induction a as [|x a IH]; simpl; [reflexivity|now rewrite IH]. Qed.

Lemma append_empty_r (a : string) : a ++ EmptyString = a.
Proof. induction a as [|x a IH]; simpl; [reflexivity|now rewrite IH]. Qed.

Lemma occursIn_refl (s : string) : occursIn s s.
Proof. exists EmptyString, EmptyString. simpl. now rewrite append_empty_r. Qed.

Lemma occursIn_app_r (p a b : string) : occursIn p b -> occursIn p (a ++ b).
Proof.
  intros (x & y & ->). exists (a ++ x), y. now rewrite append_assoc.
Qed.

Lemma occursIn_app_l (p a b : string) : occursIn p a -> occursIn p (a ++ b).
Proof.
  intros (x & y & ->). exists x, (y ++ b). now rewrite !append_assoc.
Qed.

Lemma occursIn_trans (p q r : string) :
  occursIn p q -> occursIn q r -> occursIn p r.
Proof.
  intros (x & y & ->) (x' & y' & ->).
  exists (x' ++ x), (y ++ y'). now rewrite !append_assoc.
Qed.

Lemma occursIn_concat (p : string) (l : list string) :
  In p l -> occursIn p (String.concat EmptyString l).
Proof.
  induction l as [|x l IH]; simpl; [tauto|].
  intros [->|H].
  - destruct l; [apply occursIn_refl|].
    simpl. apply occursIn_app_l, occursIn_refl.
  - destruct l as [|y l]; [destruct H|].
    apply occursIn_app_r. simpl (EmptyString ++ _). now apply IH.
Qed.

Lemma mapi_from_In_intro {A B} (f : nat -> A -> B) (l : list A) (a : A) :
  In a l -> forall i, exists n, (i <= n)%nat /\ In (f n a) (mapi_from i f l).
Proof.
  induction l as [|x l IH]; simpl; [tauto|].
  intros [->|H] i.
  - exists i. auto.
  - destruct (IH H (S i)) as (n & Hn & Hin). exists n. split; [lia|auto].
Qed.

End ListFacts.

(** * The organizer service: context retrieval *)

Section RetrievalFacts.

Import Service.

Context {O : Apply.Odm}.
Variable ObjectId_isValid : string -> bool.
Variable asPriority : string -> TaskPriority.
Variable clock : nat -> Z.

Lemma insertSorted_newerFirst (x : Apply.Task) (l : list Apply.Task) :
  StronglySorted notOlder l ->
  StronglySorted notOlder (insertSorted newerFirst x l).
Proof.
  induction 1 as [|y l Hs IH Hy]; simpl.
  - repeat constructor.
  - destruct (newerFirst x y <=? 0) eqn:E.
    + apply Z.leb_le in E. unfold newerFirst in E.
      constructor; [constructor; assumption|].
      constructor; [unfold notOlder; lia|].
      eapply Forall_impl; [|exact Hy].
      unfold notOlder. intros z Hz. lia.
    + apply Z.leb_gt in E. unfold newerFirst in E.
      constructor; [exact IH|].
      eapply Permutation_Forall.
      * symmetry. apply insertSorted_Permutation.
      * constructor; [unfold notOlder; lia|exact Hy].
Qed.

Lemma findTasksOf_sorted (db : Database) (oid : string) :
  StronglySorted notOlder (findTasksOf db oid).
Proof.
  unfold findTasksOf.
  induction (filter (fun t => String.eqb (Apply.userId t) oid) (taskDocs db))
    as [|x l IH]; simpl.
  - constructor.
  - apply (insertSorted_newerFirst x _ IH).
Qed.

Lemma retrieveUserTasks_returns (db : Database) (userId : string)
  (ts : list TaskContext) :
  retrieveUserTasks ObjectId_isValid asPriority clock db userId = inr ts ->
  ObjectId_isValid userId = true
  /\ exists oid, Apply.castObjectId (VStr userId) = Some oid
       /\ ts = mapi_from 0 (toTaskContext asPriority clock) (findTasksOf db oid).
Proof.
  unfold retrieveUserTasks.
  destruct (ObjectId_isValid userId); simpl; [|discriminate].
  destruct (Apply.castObjectId (VStr userId)) as [oid|]; [|discriminate].
  intros H. injection H as <-. split; [reflexivity|]. now exists oid.
Qed.

Lemma toTaskContext_flag (n : nat) (a : Apply.Task) :
  let t := toTaskContext asPriority clock n a in
  (isOverdue t = Some true ->
   status t <> COMPLETED /\ exists due, dueDate t = Some due /\ due < clock n)
  /\ (dueDate t = None <-> isOverdue t = None).
Proof.
  unfold toTaskContext; simpl.
  destruct (Apply.dueDate a) as [due|].
  - split.
    + intros H. injection H as H. apply andb_prop in H. destruct H as [Hd H].
      split; [|exists due; split; [reflexivity|now apply Z.ltb_lt]].
      intros E. rewrite E in H. discriminate H.
    + split; discriminate.
  - split; [discriminate|]. split; reflexivity.
Qed.

Lemma retrieveCompleteContext_returns (db : Database) (userId : string)
  (context : RetrievedContext) :
  retrieveCompleteContext ObjectId_isValid asPriority clock db userId
    = inr context ->
  retrieveUserData ObjectId_isValid db userId = inr (Some (user context))
  /\ retrieveUserTasks ObjectId_isValid asPriority clock db userId
       = inr (tasks context)
  /\ stats context =
       {| totalTasks := List.length (tasks context);
          pendingTasks :=
            countIf (fun t => TaskStatus_eqb (status t) PENDING) (tasks context);
          inProgressTasks :=
            countIf (fun t => TaskStatus_eqb (status t) IN_PROGRESS)
              (tasks context);
          completedTasks :=
            countIf (fun t => TaskStatus_eqb (status t) COMPLETED)
              (tasks context);
          overdueTasks :=
            countIf (fun t => match isOverdue t with
                              | Some b => b
                              | None => false
                              end) (tasks context) |}.
Proof.
  unfold retrieveCompleteContext.
  destruct (retrieveUserData ObjectId_isValid db userId) as [e|[u|]];
    [discriminate| |];
    destruct (retrieveUserTasks ObjectId_isValid asPriority clock db userId)
      as [e'|ts]; try discriminate.
  intros H. injection H as <-. simpl. auto.
Qed.

End RetrievalFacts.

Section RetrievalProperties.

Import Service.

(** X1. The tasks [retrieveUserTasks] returns are those of the user whose
    identifier was given, each once and no task of anybody else, and they
    come newest first. *)
Theorem retrieved_tasks_are_the_users_newest_first (O : Apply.Odm)
  (ObjectId_isValid : string -> bool) (asPriority : string -> TaskPriority)
  (clock : nat -> Z) (db : Database)
  (userId : string) (ts : list TaskContext) :
  retrieveUserTasks ObjectId_isValid asPriority clock db userId = inr ts ->
  exists oid,
    Apply.castObjectId (VStr userId) = Some oid
    /\ Permutation (map id ts)
         (map Apply._id
            (filter (fun t => String.eqb (Apply.userId t) oid) (taskDocs db)))
    /\ StronglySorted (fun a b => createdAt b <= createdAt a) ts.
Proof.
  intros H. apply retrieveUserTasks_returns in H.
  destruct H as (_ & oid & Hc & ->). exists oid. split; [exact Hc|]. split.
  - rewrite (mapi_from_map id _ Apply._id); [|reflexivity].
    apply Permutation_map. apply Array_sort_Permutation.
  - apply (mapi_from_sorted _ notOlder); [|apply findTasksOf_sorted].
    intros n m a b Hab. exact Hab.
Qed.

(** X2. In what [retrieveUserTasks] returns, the task at position [n] is
    flagged overdue exactly when it has a due date, that due date lies
    before the time at which that task was looked at (the reading of the
    clock for position [n], not for any other), and the task is not
    completed. A task with a due date always carries a boolean flag; for a
    task whose due date is absent or [null] the flag is no boolean either. *)
Theorem overdue_flag_needs_due_date_and_open_task (O : Apply.Odm)
  (ObjectId_isValid : string -> bool) (asPriority : string -> TaskPriority)
  (clock : nat -> Z) (db : Database)
  (userId : string) (ts : list TaskContext) (n : nat) (t : TaskContext) :
  retrieveUserTasks ObjectId_isValid asPriority clock db userId = inr ts ->
  nth_error ts n = Some t ->
  (isOverdue t = Some true
   <-> exists due,
         dueDate t = Some due /\ due < clock n /\ status t <> COMPLETED)
  /\ (isOverdue t = Some false
      <-> exists due,
            dueDate t = Some due /\ (clock n <= due \/ status t = COMPLETED))
  /\ (isOverdue t = None <-> dueDate t = None).
Proof.
  intros H Ht. apply retrieveUserTasks_returns in H.
  destruct H as (_ & oid & _ & ->).
  destruct (mapi_from_nth_error _ _ _ _ _ Ht) as (a & _ & ->).
  cbn [Nat.add]. unfold toTaskContext.
  cbn [isOverdue dueDate status].
  destruct (Apply.dueDate a) as [due|].
  - assert (Hflag :
      ((due <? clock n) && negb (TaskStatus_eqb (Apply.status a) COMPLETED) = true
       <-> due < clock n /\ Apply.status a <> COMPLETED)).
    { rewrite andb_true_iff, Z.ltb_lt.
      destruct (Apply.status a); cbn; intuition (discriminate || congruence). }
    destruct ((due <? clock n) && negb (TaskStatus_eqb (Apply.status a) COMPLETED))
      eqn:E.
    + apply proj1 in Hflag. specialize (Hflag eq_refl).
      split; [|split].
      * split; [intros _; exists due; tauto|reflexivity].
      * split; [discriminate|].
        intros (d & Hd & Hc). injection Hd as <-. destruct Hflag as [Hlt Hs].
        destruct Hc as [Hc|Hc]; [lia|contradiction].
      * split; discriminate.
    + split; [|split].
      * split; [discriminate|].
        intros (d & Hd & Hc). injection Hd as <-.
        apply (proj2 Hflag) in Hc. discriminate Hc.
      * split; [|reflexivity]. intros _. exists due. split; [reflexivity|].
        destruct (Z.lt_ge_cases due (clock n)) as [Hlt|Hge]; [|now left].
        right. destruct (Apply.status a) eqn:Es; try reflexivity;
          exfalso; assert (Hx : false = true) by (apply Hflag; split; [exact Hlt|discriminate]);
          discriminate Hx.
      * split; discriminate.
  - split; [|split]; split; try discriminate; try reflexivity;
      intros (d & Hd & _); discriminate Hd.
Qed.

(** X3. The statistics of a retrieved context agree with its task list:
    the total is the number of tasks, the pending, in-progress and completed
    counts together do not exceed it, and neither do the overdue and the
    completed counts together (no task is counted both as overdue and as
    completed). *)
Theorem context_statistics_are_consistent (O : Apply.Odm)
  (ObjectId_isValid : string -> bool) (asPriority : string -> TaskPriority)
  (clock : nat -> Z) (db : Database) (userId : string)
  (context : RetrievedContext) :
  retrieveCompleteContext ObjectId_isValid asPriority clock db userId
    = inr context ->
  totalTasks (stats context) = List.length (tasks context)
  /\ (pendingTasks (stats context) + inProgressTasks (stats context)
      + completedTasks (stats context) <= totalTasks (stats context))%nat
  /\ (overdueTasks (stats context) + completedTasks (stats context)
      <= totalTasks (stats context))%nat.
Proof.
  intros H.
  destruct (retrieveCompleteContext_returns _ _ _ _ _ _ H) as (_ & Ht & ->).
  simpl. split; [reflexivity|]. split.
  - apply countIf_disjoint3; intros a; destruct (status a); discriminate.
  - apply countIf_disjoint. intros a Ha Ho Hc.
    apply retrieveUserTasks_returns in Ht. destruct Ht as (_ & oid & _ & Ht).
    rewrite Ht in Ha.
    destruct (mapi_from_In _ _ _ _ Ha) as (n & d & _ & ->).
    destruct (toTaskContext_flag asPriority clock n d) as [Hflag _].
    destruct (isOverdue (toTaskContext asPriority clock n d)) as [[|]|];
      try discriminate.
    destruct (Hflag eq_refl) as [Hs _].
    destruct (status (toTaskContext asPriority clock n d)); try discriminate.
    now apply Hs.
Qed.

End RetrievalProperties.

(** * The organizer service: the prompt context *)

Section PromptFacts.

Import Service Prompt.

Lemma formatTasks_lists (ts : list TaskContext) (t : TaskContext) :
  In t ts -> exists k, 1 <= k /\ occursIn (formatTask t k) (formatTasks ts).
Proof.
  intros H. unfold formatTasks.
  destruct (mapi_from_In_intro
              (fun idx task => formatTask task (Z.of_nat idx + 1)) ts t H 0%nat)
    as (n & _ & Hin).
  exists (Z.of_nat n + 1). split; [lia|].
  now apply occursIn_concat.
Qed.

Lemma formatTask_title (t : TaskContext) (k : Z) :
  occursIn (title t) (formatTask t k).
Proof.
  unfold formatTask.
  apply occursIn_app_l.
  assert (H : forall rest,
             occursIn (title t)
               (Z_toString k ++ ". [" ++ upperAscii (TaskPriority_value (priority t))
                  ++ "] " ++ title t ++ newline ++ rest)).
  { intros rest. do 4 apply occursIn_app_r.
    apply occursIn_app_l. apply occursIn_refl. }
  assert (H0 : occursIn (title t)
                 (Z_toString k ++ ". [" ++ upperAscii (TaskPriority_value (priority t))
                    ++ "] " ++ title t ++ newline)).
  { do 4 apply occursIn_app_r. apply occursIn_app_l, occursIn_refl. }
  assert (H1 : occursIn (title t)
    match description t with
    | Some d =>
        if JsString.isEmpty d
        then Z_toString k ++ ". [" ++ upperAscii (TaskPriority_value (priority t))
               ++ "] " ++ title t ++ newline
        else (Z_toString k ++ ". [" ++ upperAscii (TaskPriority_value (priority t))
               ++ "] " ++ title t ++ newline) ++ "   Description: " ++ d ++ newline
    | None => Z_toString k ++ ". [" ++ upperAscii (TaskPriority_value (priority t))
               ++ "] " ++ title t ++ newline
    end).
  { destruct (description t) as [d|]; [|exact H0].
    destruct (JsString.isEmpty d); [exact H0|].
    apply occursIn_app_l, H0. }
  cbv zeta.
  destruct (tags t); [|apply occursIn_app_l];
    (destruct (dueDate t); [apply occursIn_app_l|]); exact H1.
Qed.

Lemma formatTaskList_lists (ts : list TaskContext) (t : TaskContext) :
  In t ts -> isPendingOrInProgress t = true ->
  exists k, 1 <= k /\ occursIn (formatTask t k) (formatTaskList ts).
Proof.
  intros Hin Hopen. unfold formatTaskList.
  destruct ts as [|t0 ts0]; [destruct Hin|].
  set (ts := t0 :: ts0) in *.
  unfold isPendingOrInProgress in Hopen. apply orb_prop in Hopen.
  destruct Hopen as [Hp|Hp].
  - assert (Hf : In t (filter (withStatus PENDING) ts))
      by (apply filter_In; split; assumption).
    destruct (formatTasks_lists _ _ Hf) as (k & Hk & Hocc). exists k.
    split; [exact Hk|].
    destruct (filter (withStatus PENDING) ts) eqn:E; [destruct Hf|].
    rewrite <- E in *. apply occursIn_app_l.
    do 4 apply occursIn_app_r. apply occursIn_app_l. exact Hocc.
  - assert (Hf : In t (filter (withStatus IN_PROGRESS) ts))
      by (apply filter_In; split; assumption).
    destruct (formatTasks_lists _ _ Hf) as (k & Hk & Hocc). exists k.
    split; [exact Hk|].
    apply occursIn_app_r.
    destruct (filter (withStatus IN_PROGRESS) ts) eqn:E; [destruct Hf|].
    rewrite <- E in *. apply occursIn_app_l.
    do 4 apply occursIn_app_r. apply occursIn_app_l. exact Hocc.
Qed.

Lemma formatContextForPrompt_tail (context : RetrievedContext) :
  exists head,
    formatContextForPrompt context = head ++ formatTaskList (tasks context).
Proof.
  unfold formatContextForPrompt. cbv zeta.
  eexists. rewrite <- !append_assoc. reflexivity.
Qed.

Lemma formatContextForPrompt_lists (context : RetrievedContext)
  (t : TaskContext) :
  In t (tasks context) -> isPendingOrInProgress t = true ->
  exists k, 1 <= k
            /\ occursIn (formatTask t k) (formatContextForPrompt context).
Proof.
  intros Hin Hopen.
  destruct (formatTaskList_lists _ _ Hin Hopen) as (k & Hk & Hocc).
  exists k. split; [exact Hk|].
  destruct (formatContextForPrompt_tail context) as (head & ->).
  now apply occursIn_app_r.
Qed.


End PromptFacts.

(** * The organizer service: the model gateway *)

Section GatewayFacts.

Import Service Prompt Gateway.

Context {O : Apply.Odm}.
Variable ObjectId_isValid : string -> bool.
Variable asPriority : string -> TaskPriority.
Variable clock : nat -> Z.

Local Abbreviation runAgent := (runAgent ObjectId_isValid asPriority clock).
Local Abbreviation runOptimize :=
  (runOptimize ObjectId_isValid asPriority clock).
Local Abbreviation retrieveCompleteContext :=
  (retrieveCompleteContext ObjectId_isValid asPriority clock).
Local Abbreviation retrieveUserTasks :=
  (retrieveUserTasks ObjectId_isValid asPriority clock).

(** What a run of [chatWithOrganizer] comes to, case by case. *)
Lemma chatWithOrganizer_cases (w : World) (userId userMessage : string)
  (options : option ChatWith) :
  let run := runAgent w (chatWithOrganizer (keys w) userId userMessage options) in
  let temperature :=
    match options with Some o => withTemperature o | None => None end in
  let maxTokens :=
    match options with Some o => withMaxTokens o | None => None end in
  (exists e, retrieveCompleteContext (database w) userId = inl e
             /\ run = (inl e, []))
  \/ exists context,
       retrieveCompleteContext (database w) userId = inr context
       /\ let system := systemPrompt (formatContextForPrompt context) in
          (requested options = None
           /\ isSet (DEEPSEEK_API_KEY (keys w)) = false
           /\ isSet (OPENROUTER_API_KEY (keys w)) = false
           /\ run = (inl noProviderMessage, []))
          \/ ((requested options = Some langchain
               \/ (requested options = None
                   /\ isSet (DEEPSEEK_API_KEY (keys w)) = true))
              /\ run = (langchainReply w system userMessage temperature,
                        [ViaLangchain system userMessage temperature]))
          \/ ((requested options = Some openrouter
               \/ (requested options = None
                   /\ isSet (DEEPSEEK_API_KEY (keys w)) = false
                   /\ isSet (OPENROUTER_API_KEY (keys w)) = true))
              /\ exists request,
                   request =
                     {| model := "deepseek/deepseek-chat";
                        systemContent := system;
                        userContent := userMessage;
                        requestTemperature :=
                          match temperature with
                          | Some t => t
                          | None => Finite (7 # 10)
                          end;
                        max_tokens :=
                          match maxTokens with
                          | Some n => n
                          | None => Finite (inject_Z 1000)
                          end |}
                   /\ run =
                      match clientError w (OPENROUTER_API_KEY (keys w)) with
                      | Some e => (inl e, [])
                      | None =>
                          (match completionContent w request with
                           | inl e => inl e
                           | inr (Some reply) =>
                               if JsString.isEmpty reply
                               then inl "No response from OpenRouter AI model"
                               else inr reply
                           | inr None =>
                               inl "No response from OpenRouter AI model"
                           end,
                           [ViaOpenRouter request])
                      end).
Proof.
  cbv zeta. unfold chatWithOrganizer. cbn [Gateway.runAgent].
  destruct (retrieveCompleteContext (database w) userId) as [e|context].
  - left. now exists e.
  - right. exists context. split; [reflexivity|].
    assert (Hpref :
      forall chosen,
        chosen = getPreferredAIProvider (keys w) ->
        (chosen = inl noProviderMessage
         /\ isSet (DEEPSEEK_API_KEY (keys w)) = false
         /\ isSet (OPENROUTER_API_KEY (keys w)) = false)
        \/ (chosen = inr langchain
            /\ isSet (DEEPSEEK_API_KEY (keys w)) = true)
        \/ (chosen = inr openrouter
            /\ isSet (DEEPSEEK_API_KEY (keys w)) = false
            /\ isSet (OPENROUTER_API_KEY (keys w)) = true)).
    { intros chosen ->. unfold getPreferredAIProvider.
      destruct (isSet (DEEPSEEK_API_KEY (keys w))); [auto|].
      destruct (isSet (OPENROUTER_API_KEY (keys w))); auto. }
    set (system := systemPrompt (formatContextForPrompt context)).
    set (chosen :=
           match options with
           | Some o =>
               match withProvider o with
               | Some p => inr p
               | None => getPreferredAIProvider (keys w)
               end
           | None => getPreferredAIProvider (keys w)
           end).
    assert (Hchosen :
      (exists p, requested options = Some p /\ chosen = inr p)
      \/ (requested options = None
          /\ chosen = getPreferredAIProvider (keys w))).
    { unfold chosen, requested. destruct options as [o|]; [|auto].
      destruct (withProvider o) as [p|]; [left; now exists p|auto]. }
    assert (Hrun :
      forall p, chosen = inr p ->
        match p with
        | langchain =>
            runAgent w
              match chosen with
              | inl e => Reject e
              | inr langchain =>
                  AskLVLBot system userMessage
                    match options with
                    | Some o => withTemperature o
                    | None => None
                    end Resolve
              | inr openrouter =>
                  callOpenRouterWithContext (keys w) system userMessage
                    match options with
                    | Some o => withTemperature o
                    | None => None
                    end
                    match options with
                    | Some o => withMaxTokens o
                    | None => None
                    end
              end
            = (langchainReply w system userMessage
                 match options with Some o => withTemperature o | None => None end,
               [ViaLangchain system userMessage
                  match options with Some o => withTemperature o | None => None end])
        | openrouter => True
        end).
    { intros p ->. destruct p; [|exact I]. cbn [Gateway.runAgent].
      destruct (langchainReply w system userMessage _); reflexivity. }
    destruct Hchosen as [(p & Hreq & Hc)|(Hreq & Hc)].
    + destruct p.
      * right; left. split; [now left|]. exact (Hrun langchain Hc).
      * right; right. split; [now left|]. eexists. split; [reflexivity|].
        rewrite Hc. unfold callOpenRouterWithContext. cbn [Gateway.runAgent].
        destruct (clientError w _); [reflexivity|].
        destruct (completionContent w _) as [e|[reply|]]; try reflexivity.
        destruct (JsString.isEmpty reply); reflexivity.
    + destruct (Hpref chosen Hc) as [(E & Hd & Ho)|[(E & Hd)|(E & Hd & Ho)]].
      * left. repeat (split; [assumption|]). rewrite E. reflexivity.
      * right; left. split; [right; auto|]. exact (Hrun langchain E).
      * right; right. split; [right; auto|]. eexists. split; [reflexivity|].
        rewrite E. unfold callOpenRouterWithContext. cbn [Gateway.runAgent].
        destruct (clientError w _); [reflexivity|].
        destruct (completionContent w _) as [e|[reply|]]; try reflexivity.
        destruct (JsString.isEmpty reply); reflexivity.
Qed.

(** A run of [optimizeWorkload] on the service. *)
Lemma runOptimize_optimizeWorkload {R : Runtime} (w : World) (userId : string)
  (options : option Options) :
  runOptimize w (optimizeWorkload userId options)
  = match retrieveUserTasks (database w) userId with
    | inl e => (inl e, [])
    | inr ts =>
        let pendingTasks := selectCandidates ts (numberOr options maxTasks 15) in
        if (List.length pendingTasks =? 0)%nat then
          (inr {| analysis := "No pending tasks found to optimize.";
                  recommendations := [];
                  summary := EmptyString |}, [])
        else
          match runAgent w
                  (chatWithOrganizer (keys w) userId
                     (prompt pendingTasks (numberOr options days 7))
                     (Some {| withTemperature := Some (Finite (2 # 10));
                              withMaxTokens := Some (Finite (inject_Z 2000));
                              withProvider :=
                                match options with
                                | Some o => provider o
                                | None => None
                                end |})) with
          | (inl e, calls) => (inl e, calls)
          | (inr reply, calls) =>
              (match extractRecommendations reply pendingTasks with
               | inl e => inl (message e)
               | inr result => inr result
               end, calls)
          end
    end.
Proof.
  unfold optimizeWorkload. cbn [Gateway.runOptimize].
  destruct (retrieveUserTasks (database w) userId) as [e|ts]; [reflexivity|].
  cbv zeta.
  destruct (List.length (selectCandidates ts (numberOr options maxTasks 15)) =? 0)%nat;
    [reflexivity|].
  cbn [Gateway.runOptimize]. unfold chatWithOf. cbn [temperature maxTokens chatProvider].
  destruct (runAgent w _) as [[e|reply] calls]; [reflexivity|].
  unfold liftJs.
  destruct (extractRecommendations reply _) as [e|result];
    cbn [Gateway.runOptimize]; now rewrite app_nil_r.
Qed.

(** The requests a chat sends, with the context they carry. *)
Lemma chatWithOrganizer_calls (w : World) (userId userMessage : string)
  (options : option ChatWith) (c : ProviderCall) :
  In c (snd (runAgent w (chatWithOrganizer (keys w) userId userMessage options))) ->
  snd (runAgent w (chatWithOrganizer (keys w) userId userMessage options)) = [c]
  /\ exists context,
       retrieveCompleteContext (database w) userId = inr context
       /\ callSystemPrompt c = systemPrompt (formatContextForPrompt context)
       /\ callUserMessage c = userMessage
       /\ match requested options with
          | Some p => callProvider c = p
          | None =>
              if isSet (DEEPSEEK_API_KEY (keys w)) then callProvider c = langchain
              else callProvider c = openrouter
                   /\ isSet (OPENROUTER_API_KEY (keys w)) = true
          end
       /\ match c with
          | ViaLangchain _ _ t =>
              t = match options with Some o => withTemperature o | None => None end
          | ViaOpenRouter request =>
              model request = "deepseek/deepseek-chat"
              /\ requestTemperature request
                 = match match options with
                         | Some o => withTemperature o
                         | None => None
                         end with
                   | Some t => t
                   | None => Finite (7 # 10)
                   end
              /\ max_tokens request
                 = match match options with
                         | Some o => withMaxTokens o
                         | None => None
                         end with
                   | Some n => n
                   | None => Finite (inject_Z 1000)
                   end
          end.
Proof.
  destruct (chatWithOrganizer_cases w userId userMessage options)
    as [(e & _ & ->)|(context & Hctx & Hcases)]; [intros []|].
  cbv zeta in Hcases.
  destruct Hcases as [(_ & _ & _ & ->)|[(Hp & ->)|(Hp & request & Hrq & ->)]];
    [intros []| |destruct (clientError w _); [intros []|]];
    cbn [snd]; intros [<-|[]]; (split; [reflexivity|]);
    exists context; (split; [exact Hctx|]); cbn [callSystemPrompt callUserMessage callProvider].
  - repeat split.
    destruct Hp as [-> | [-> ->]]; reflexivity.
  - rewrite Hrq. cbn [systemContent userContent model requestTemperature max_tokens].
    repeat split.
    destruct Hp as [-> | (-> & -> & ->)]; [reflexivity|split; reflexivity].
Qed.

End GatewayFacts.


(** X6. With no provider asked for and no key configured,
    [chatWithOrganizer] rejects and sends nothing to any provider. The
    context is retrieved first: the error is that of the retrieval when it
    fails, and the missing configuration is reported only for a user whose
    context could be retrieved. *)
Theorem chat_without_provider_sends_nothing (O : Apply.Odm)
  (ObjectId_isValid : string -> bool) (asPriority : string -> TaskPriority)
  (clock : nat -> Z) (w : Gateway.World) (userId userMessage : string)
  (options : option Gateway.ChatWith) :
  Gateway.requested options = None ->
  Gateway.isSet (Gateway.DEEPSEEK_API_KEY (Gateway.keys w)) = false ->
  Gateway.isSet (Gateway.OPENROUTER_API_KEY (Gateway.keys w)) = false ->
  Gateway.runAgent ObjectId_isValid asPriority clock w
    (Gateway.chatWithOrganizer (Gateway.keys w) userId userMessage options)
  = (match Service.retrieveCompleteContext ObjectId_isValid asPriority clock
             (Gateway.database w) userId with
     | inl e => inl e
     | inr _ =>
         inl "No AI provider configured. Please set either DEEPSEEK_API_KEY or OPENROUTER_API_KEY"
     end, []).
Proof.
  intros Hreq Hd Ho.
  destruct (chatWithOrganizer_cases ObjectId_isValid asPriority clock w userId
              userMessage options)
    as [(e & He & ->)|(context & Hctx & Hcases)].
  - now rewrite He.
  - rewrite Hctx. cbv zeta in Hcases.
    destruct Hcases as [(_ & _ & _ & ->)|[([H|[_ H]] & _)|([H|(_ & _ & H)] & _)]];
      [reflexivity| | | |]; congruence.
Qed.

(** X7. A reply that [chatWithOrganizer] obtained through OpenRouter is
    never empty: it is the content of the completion, and a completion
    without content makes the call reject. *)
Theorem openrouter_reply_is_never_empty (O : Apply.Odm)
  (ObjectId_isValid : string -> bool) (asPriority : string -> TaskPriority)
  (clock : nat -> Z) (w : Gateway.World) (userId userMessage : string)
  (options : option Gateway.ChatWith) (reply : string)
  (request : Gateway.CompletionRequest) (calls : list Gateway.ProviderCall) :
  Gateway.runAgent ObjectId_isValid asPriority clock w
    (Gateway.chatWithOrganizer (Gateway.keys w) userId userMessage options)
  = (inr reply, calls) ->
  In (Gateway.ViaOpenRouter request) calls ->
  reply <> EmptyString
  /\ Gateway.completionContent w request = inr (Some reply).
Proof.
  intros Hrun Hin.
  destruct (chatWithOrganizer_cases ObjectId_isValid asPriority clock w userId
              userMessage options)
    as [(e & He & Hr)|(context & Hctx & Hcases)].
  - rewrite Hr in Hrun. discriminate Hrun.
  - cbv zeta in Hcases.
    destruct Hcases as [(_ & _ & _ & Hr)|[(_ & Hr)|(_ & rq & Hrq & Hr)]];
      rewrite Hr in Hrun.
    + discriminate Hrun.
    + injection Hrun as _ <-. destruct Hin as [H|[]]. discriminate H.
    + destruct (Gateway.clientError w _); [discriminate Hrun|].
      injection Hrun as Hres <-. destruct Hin as [H|[]]. injection H as <-.
      destruct (Gateway.completionContent w rq) as [e|[content|]];
        try discriminate Hres.
      destruct content as [|ch content]; [discriminate Hres|].
      simpl in Hres. injection Hres as <-. split; [discriminate|reflexivity].
Qed.

(** A provider request of an optimisation, with what it carries. *)
Lemma optimizeWorkload_calls (R : Runtime) (O : Apply.Odm)
  (ObjectId_isValid : string -> bool) (asPriority : string -> TaskPriority)
  (clock : nat -> Z) (w : Gateway.World) (userId : string)
  (options : option Options) (c : Gateway.ProviderCall) :
  In c (snd (Gateway.runOptimize ObjectId_isValid asPriority clock w
               (optimizeWorkload userId options))) ->
  snd (Gateway.runOptimize ObjectId_isValid asPriority clock w
         (optimizeWorkload userId options)) = [c]
  /\ exists context,
       Service.retrieveCompleteContext ObjectId_isValid asPriority clock
         (Gateway.database w) userId = inr context
       /\ Gateway.callSystemPrompt c
          = Prompt.systemPrompt (Prompt.formatContextForPrompt context)
       /\ let pendingTasks :=
            selectCandidates (Service.tasks context)
              (numberOr options maxTasks 15) in
          pendingTasks <> []
          /\ Gateway.callUserMessage c
             = prompt pendingTasks (numberOr options days 7)
          /\ Gateway.callTemperature c = Some (Gateway.Finite (2 # 10))
          /\ match c with
             | Gateway.ViaLangchain _ _ _ => True
             | Gateway.ViaOpenRouter request =>
                 Gateway.max_tokens request = Gateway.Finite (inject_Z 2000)
                 /\ Gateway.model request = "deepseek/deepseek-chat"
             end.
Proof.
  rewrite runOptimize_optimizeWorkload.
  destruct (Service.retrieveUserTasks ObjectId_isValid asPriority clock
              (Gateway.database w) userId) as [e|ts] eqn:Ets; [intros []|].
  cbv zeta.
  destruct (List.length (selectCandidates ts (numberOr options maxTasks 15)) =? 0)%nat
    eqn:Elen; [intros []|].
  match goal with
  | |- context [Gateway.runAgent _ _ _ _ ?p] =>
      pose proof (fun c => chatWithOrganizer_calls ObjectId_isValid asPriority
                    clock w userId
                    (prompt (selectCandidates ts (numberOr options maxTasks 15))
                       (numberOr options days 7))
                    (Some {| Gateway.withTemperature :=
                               Some (Gateway.Finite (2 # 10));
                             Gateway.withMaxTokens :=
                               Some (Gateway.Finite (inject_Z 2000));
                             Gateway.withProvider :=
                               match options with
                               | Some o => provider o
                               | None => None
                               end |}) c) as Hcalls;
      destruct (Gateway.runAgent ObjectId_isValid asPriority clock w p)
        as [[e|reply] calls]
  end; cbn [snd] in *; intros Hin;
    destruct (Hcalls c Hin) as (Hone & context & Hctx & Hsys & Husr & _ & Hpar);
    (split; [exact Hone|]); exists context; (split; [exact Hctx|]);
    (split; [exact Hsys|]);
    destruct (retrieveCompleteContext_returns _ _ _ _ _ _ Hctx) as (_ & Hts & _);
    rewrite Ets in Hts; injection Hts as <-;
    (split; [intros E; rewrite E in Elen; discriminate Elen|]);
    (split; [exact Husr|]);
    destruct c as [s m t|rq]; cbn [Gateway.callTemperature];
    cbn [Gateway.withTemperature Gateway.withMaxTokens] in Hpar.
  - now subst t.
  - destruct Hpar as (Hm & Ht & Hk). rewrite Ht. auto.
  - now subst t.
  - destruct Hpar as (Hm & Ht & Hk). rewrite Ht. auto.
Qed.

(** X8. An optimisation sends at most one request to a provider. Its user
    message is the prompt built from the candidate tasks (of which there is
    at least one) and the number of days, and it asks for temperature 0.2;
    through OpenRouter it also carries the limit of 2000 tokens, which a
    request through LangChain has no place for. *)
Theorem optimization_sends_one_request (R : Runtime) (O : Apply.Odm)
  (ObjectId_isValid : string -> bool) (asPriority : string -> TaskPriority)
  (clock : nat -> Z) (w : Gateway.World) (userId : string)
  (options : option Options) (c : Gateway.ProviderCall) :
  In c (snd (Gateway.runOptimize ObjectId_isValid asPriority clock w
               (optimizeWorkload userId options))) ->
  snd (Gateway.runOptimize ObjectId_isValid asPriority clock w
         (optimizeWorkload userId options)) = [c]
  /\ exists ts,
       Service.retrieveUserTasks ObjectId_isValid asPriority clock
         (Gateway.database w) userId = inr ts
       /\ selectCandidates ts (numberOr options maxTasks 15) <> []
       /\ Gateway.callUserMessage c
          = prompt (selectCandidates ts (numberOr options maxTasks 15))
              (numberOr options days 7)
       /\ Gateway.callTemperature c = Some (Gateway.Finite (2 # 10))
       /\ (forall request,
             c = Gateway.ViaOpenRouter request ->
             Gateway.max_tokens request = Gateway.Finite (inject_Z 2000)).
Proof.
  intros Hin.
  destruct (optimizeWorkload_calls _ _ _ _ _ _ _ _ _ Hin)
    as (Hone & context & Hctx & _ & Hne & Husr & Htemp & Hpar).
  split; [exact Hone|]. exists (Service.tasks context).
  destruct (retrieveCompleteContext_returns _ _ _ _ _ _ Hctx) as (_ & Hts & _).
  split; [exact Hts|]. split; [exact Hne|]. split; [exact Husr|].
  split; [exact Htemp|].
  intros request ->. apply Hpar.
Qed.

(** X9. The limit on the number of tasks bears on the user message only:
    the system prompt of an optimisation request lists every pending and
    every in-progress task of the user, whether it is a candidate or not. *)
Theorem optimization_context_lists_every_open_task (R : Runtime)
  (O : Apply.Odm) (ObjectId_isValid : string -> bool)
  (asPriority : string -> TaskPriority) (clock : nat -> Z)
  (w : Gateway.World) (userId : string) (options : option Options)
  (c : Gateway.ProviderCall) (ts : list TaskContext) (t : TaskContext) :
  In c (snd (Gateway.runOptimize ObjectId_isValid asPriority clock w
               (optimizeWorkload userId options))) ->
  Service.retrieveUserTasks ObjectId_isValid asPriority clock
    (Gateway.database w) userId = inr ts ->
  In t ts ->
  status t = PENDING \/ status t = IN_PROGRESS ->
  Prompt.occursIn (title t) (Gateway.callSystemPrompt c).
Proof.
  intros Hin Hts Ht Hs.
  destruct (optimizeWorkload_calls _ _ _ _ _ _ _ _ _ Hin)
    as (_ & context & Hctx & Hsys & _).
  destruct (retrieveCompleteContext_returns _ _ _ _ _ _ Hctx) as (_ & Hts' & _).
  rewrite Hts in Hts'. injection Hts' as ->.
  rewrite Hsys. unfold Prompt.systemPrompt. apply occursIn_app_r.
  assert (Hopen : isPendingOrInProgress t = true).
  { unfold isPendingOrInProgress. destruct Hs as [-> | ->]; reflexivity. }
  destruct (formatContextForPrompt_lists _ _ Ht Hopen) as (k & _ & Hocc).
  eapply occursIn_trans; [apply formatTask_title|exact Hocc].
Qed.


(** * From the optimisation to its application *)

Section RoundTrip.

Import Apply Wire.

Context {R : Runtime} {O : Odm}.

Lemma updateFirst_keysOf (oid : string) (f : Task -> Task) (l : list Task) :
  (forall t, _id (f t) = _id t /\ userId (f t) = userId t) ->
  keysOf (fst (updateFirst oid f l)) = keysOf l.
Proof.
  intros Hf. induction l as [|t l IH]; cbn [updateFirst]; [reflexivity|].
  destruct (String.eqb (_id t) oid).
  - cbn. destruct (Hf t) as [-> ->]. reflexivity.
  - destruct (updateFirst oid f l) as [r u]. cbn in *. now rewrite IH.
Qed.

Lemma findOne_owned (s : Store) (i user : string) :
  castObjectId (VStr i) = Some i ->
  In (i, user) (keysOf (docs s)) ->
  exists task, Task_findOne s (VStr i) user = inr (Some task).
Proof.
  intros Hc Hin. unfold Task_findOne. rewrite Hc.
  destruct (find (fun t => String.eqb (_id t) i && String.eqb (userId t) user)
              (docs s)) as [task|] eqn:E; [now exists task|].
  exfalso. unfold keysOf in Hin. apply in_map_iff in Hin.
  destruct Hin as (d & Hd & Hin). injection Hd as <- <-.
  pose proof (find_none _ _ E d Hin) as H. cbn in H.
  now rewrite !String.eqb_refl in H.
Qed.

Lemma propOf_recommendationToJSON (r : TaskRecommendation) :
  propOf (recommendationToJSON r) "taskId" = VStr (taskId r)
  /\ propOf (recommendationToJSON r) "suggestedDueDate"
     = dateToJSON (suggestedDueDate r)
  /\ propOf (recommendationToJSON r) "suggestedPriority"
     = match suggestedPriority r with
       | Some p => VStr p
       | None => VUndefined
       end.
Proof.
  unfold recommendationToJSON. destruct (suggestedPriority r); repeat split.
Qed.

Lemma toISOString_nonEmpty (t : Z) : JsString.isEmpty (toISOString t) = false.
Proof.
  unfold toISOString. cbv zeta.
  destruct (JsDate.isoDate t); reflexivity.
Qed.

(** One iteration of the handler on a recommendation of the service whose
    task the store holds for the user. *)
Lemma applyOne_recommendation (user : string) (r : TaskRecommendation)
  (st : LoopState) :
  castObjectId (VStr (taskId r)) = Some (taskId r) ->
  In (taskId r, user) (keysOf (docs (store st))) ->
  (forall p, castString (VStr p) = Some p) ->
  (forall d, suggestedDueDate r = Some d -> Date_parse (toISOString d) = Some d) ->
  exists st',
    applyOne user (recommendationToJSON r) st = inr st'
    /\ errors_list st' = errors_list st
    /\ docs (store st')
       = (if writesSomething r
          then fst (updateFirst (taskId r)
                      (fun t => setFields t (suggestedDueDate r)
                                  (writtenPriority r))
                      (docs (store st)))
          else docs (store st))
    /\ List.length (updatedTasks st')
       = ((if writesSomething r then 1 else 0)
          + List.length (updatedTasks st))%nat.
Proof.
  intros Hid Hin HcastS Hdate.
  destruct (propOf_recommendationToJSON r) as (Ht & Hd & Hp).
  destruct (findOne_owned _ _ _ Hid Hin) as (task & Hfind).
  unfold applyOne, tryUpdate.
  rewrite !(getProp_notNullish (recommendationToJSON r) _ eq_refl).
  cbn [bind]. rewrite Ht, Hd, Hp, Hfind. cbn [bind].
  unfold writesSomething, writtenPriority, Task_findByIdAndUpdate.
  rewrite Hid.
  destruct (suggestedDueDate r) as [d|] eqn:Ed;
    destruct (suggestedPriority r) as [p|] eqn:Ep;
    cbn [dateToJSON truthy]; rewrite ?toISOString_nonEmpty;
    try (destruct (JsString.isEmpty p) eqn:Eempty);
    cbn [negb keysLength u_dueDate u_priority Nat.add Nat.ltb Nat.leb Date_new
         bind try_catch];
    rewrite ?(Hdate d eq_refl), ?HcastS;
    try (destruct (updateFirst _ _ _) as [docs' updated]);
    cbn [bind try_catch fst snd];
    eexists; (split; [reflexivity|]);
    cbn [errors_list store docs updatedTasks];
    rewrite ?length_app; cbn [List.length];
    repeat split; lia.
Qed.

Lemma applyAll_recommendations (user : string) (rs : list TaskRecommendation) :
  forall st,
    (forall r, In r rs ->
       castObjectId (VStr (taskId r)) = Some (taskId r)
       /\ In (taskId r, user) (keysOf (docs (store st)))
       /\ forall d, suggestedDueDate r = Some d ->
                    Date_parse (toISOString d) = Some d) ->
    (forall p, castString (VStr p) = Some p) ->
    exists st',
      applyAll user (map recommendationToJSON rs) st = inr st'
      /\ errors_list st' = errors_list st
      /\ keysOf (docs (store st')) = keysOf (docs (store st))
      /\ List.length (updatedTasks st')
         = (List.length (filter Wire.writesSomething rs)
            + List.length (updatedTasks st))%nat.
Proof.
  induction rs as [|r rs IH]; intros st Hall HcastS; cbn [map applyAll].
  - exists st. auto.
  - destruct (Hall r (or_introl eq_refl)) as (Hid & Hin & Hdate).
    destruct (applyOne_recommendation user r st Hid Hin HcastS Hdate)
      as (st1 & H1 & Herr & Hdocs & Hlen).
    rewrite H1.
    assert (Hkeys : keysOf (docs (store st1)) = keysOf (docs (store st))).
    { rewrite Hdocs. destruct (writesSomething r); [|reflexivity].
      apply updateFirst_keysOf. intros t. split; reflexivity. }
    destruct (IH st1) as (st' & Hrun & Herr' & Hkeys' & Hlen').
    { intros r' Hr'. destruct (Hall r' (or_intror Hr')) as (A & B & C).
      rewrite Hkeys. auto. }
    { exact HcastS. }
    exists st'. split; [exact Hrun|]. split; [congruence|].
    split; [congruence|].
    rewrite Hlen', Hlen. cbn [filter].
    destruct (writesSomething r); cbn [List.length]; lia.
Qed.

End RoundTrip.

Section Origin.

Context {R : Runtime}.

Lemma In_selectCandidates (ts : list TaskContext) (n : Z) (t : TaskContext) :
  In t (selectCandidates ts n) -> In t ts.
Proof.
  unfold selectCandidates. intros H. apply In_Array_slice0 in H.
  apply (Permutation_in _ (Array_sort_Permutation _ _)) in H.
  apply filter_In in H. tauto.
Qed.

(** Where an extracted recommendation comes from: a candidate task. *)
Lemma extracted_from_candidate (aiResponse : string)
  (pendingTasks : list TaskContext) (result : WorkloadOptimizationResult)
  (r : TaskRecommendation) :
  extractRecommendations aiResponse pendingTasks = inr result ->
  In r (recommendations result) ->
  exists t, In t pendingTasks /\ taskId r = id t
            /\ currentDueDate r = dueDate t.
Proof.
  intros Hres Hr.
  destruct (extractRecommendations_cases aiResponse pendingTasks)
    as [H | (jsonData & entries & recs & _ & _ & Hmap & H)];
    rewrite H in Hres; injection Hres as <-; cbn in Hr; [destruct Hr|].
  destruct (mapRecommendations_In _ _ _ _ Hmap Hr) as (entry & _ & _ & Hto).
  apply toRecommendation_kept in Hto.
  destruct Hto as (_ & t & Hin & Hid & ->).
  exists t. split; [exact Hin|].
  split; [now apply makeRecommendation_taskId|reflexivity].
Qed.

End Origin.

Section RetrievedDocuments.

Context {O : Apply.Odm}.
Variable ObjectId_isValid : string -> bool.
Variable asPriority : string -> TaskPriority.
Variable clock : nat -> Z.

(** A retrieved task is the context of a stored document of the user. *)
Lemma retrieved_task_document (db : Service.Database) (userId : string)
  (ts : list TaskContext) (t : TaskContext) :
  Service.retrieveUserTasks ObjectId_isValid asPriority clock db userId
    = inr ts ->
  In t ts ->
  exists oid d n,
    Apply.castObjectId (VStr userId) = Some oid
    /\ In d (Service.taskDocs db)
    /\ Apply.userId d = oid
    /\ t = Service.toTaskContext asPriority clock n d.
Proof.
  intros H Ht. apply retrieveUserTasks_returns in H.
  destruct H as (_ & oid & Hc & ->).
  destruct (mapi_from_In _ _ _ _ Ht) as (n & d & Hd & ->).
  unfold Service.findTasksOf in Hd.
  apply (Permutation_in _ (Array_sort_Permutation _ _)) in Hd.
  apply filter_In in Hd. destruct Hd as [Hd Ho]. apply String.eqb_eq in Ho.
  exists oid, d, n. auto.
Qed.

End RetrievedDocuments.

Section Written.

Import Apply Wire.

Lemma setFields_nothing (t : Task) : setFields t None None = t.
Proof. destruct t; reflexivity. Qed.

Lemma updateFirst_split (oid : string) (f : Task -> Task) (l : list Task)
  (d : Task) :
  NoDup (map _id l) -> In d l -> _id d = oid ->
  exists before after,
    l = (before ++ d :: after)%list
    /\ fst (updateFirst oid f l) = (before ++ f d :: after)%list.
Proof.
  induction l as [|t l IH]; intros Hnd Hin Hid; [destruct Hin|].
  cbn [map] in Hnd. inversion Hnd as [|x xs Hnot Hnd']; subst x xs.
  cbn [updateFirst]. destruct Hin as [->|Hin].
  - rewrite Hid, String.eqb_refl. exists [], l. split; reflexivity.
  - destruct (String.eqb (_id t) oid) eqn:E.
    + apply String.eqb_eq in E. exfalso. apply Hnot.
      rewrite E, <- Hid. now apply in_map.
    + destruct (IH Hnd' Hin Hid) as (before & after & -> & Hu).
      destruct (updateFirst oid f (before ++ d :: after)) as [r u].
      cbn [fst] in *. exists (t :: before), after. rewrite Hu. split; reflexivity.
Qed.

End Written.

(** X11. What an optimisation returns can be applied: when the
    recommendations extracted for a user's tasks are posted back for the
    same user and the same store, the handler finds the task of every one
    of them and reports no error; the number of tasks it counts as updated
    is the number of recommendations that carry a due date or a non-empty
    priority. (The identifiers at hand are in the form the store casts them
    to, the store takes any string as a priority, and the runtime reads
    back the dates it wrote.) *)
Theorem extracted_recommendations_apply_without_error (R : Runtime)
  (O : Apply.Odm) (ObjectId_isValid : string -> bool)
  (asPriority : string -> TaskPriority) (clock : nat -> Z)
  (db : Service.Database) (userId aiResponse : string) (limit : Z)
  (ts : list TaskContext) (result : WorkloadOptimizationResult) :
  Service.retrieveUserTasks ObjectId_isValid asPriority clock db userId
    = inr ts ->
  extractRecommendations aiResponse (selectCandidates ts limit) = inr result ->
  Apply.castObjectId (VStr userId) = Some userId ->
  (forall d, In d (Service.taskDocs db) ->
             Apply.castObjectId (VStr (Apply._id d)) = Some (Apply._id d)) ->
  (forall p, Apply.castString (VStr p) = Some p) ->
  (forall r d, In r (recommendations result) ->
               suggestedDueDate r = Some d ->
               Date_parse (Wire.toISOString d) = Some d) ->
  let updated := List.length (filter Wire.writesSomething (recommendations result)) in
  exists store',
    Apply.applyWorkloadOptimization (Some userId)
      (map Wire.recommendationToJSON (recommendations result))
      {| Apply.docs := Service.taskDocs db; Apply.writes := 0 |}
    = (Apply.Success updated None
         ("Successfully updated " ++ Z_toString (Z.of_nat updated) ++ " task(s)"),
       store')
    /\ map Apply._id (Apply.docs store') = map Apply._id (Service.taskDocs db).
Proof.
  intros Hts Hres Huser Hids HcastS Hdates updated.
  unfold Apply.applyWorkloadOptimization.
  destruct (applyAll_recommendations userId (recommendations result)
              {| Apply.store :=
                   {| Apply.docs := Service.taskDocs db; Apply.writes := 0 |};
                 Apply.updatedTasks := [];
                 Apply.errors_list := [] |})
    as (st' & Hrun & Herr & Hkeys & Hlen).
  - intros r Hr. cbn [Apply.store Apply.docs].
    destruct (extracted_from_candidate _ _ _ _ Hres Hr) as (t & Ht & Hid & _).
    apply In_selectCandidates in Ht.
    destruct (retrieved_task_document _ _ _ _ _ _ _ Hts Ht)
      as (oid & d & n & Hc & Hd & Ho & ->).
    rewrite Huser in Hc. injection Hc as <-.
    cbn [id Service.toTaskContext] in Hid.
    split; [rewrite Hid; now apply Hids|].
    split; [|intros d0 Hd0; now apply (Hdates r)].
    unfold Wire.keysOf. apply in_map_iff. exists d. rewrite Hid, Ho. auto.
  - exact HcastS.
  - rewrite Hrun, Herr. cbn [List.length Nat.ltb Nat.leb].
    cbn [Apply.updatedTasks List.length] in Hlen. rewrite Nat.add_0_r in Hlen.
    rewrite Hlen. exists (Apply.store st'). split; [reflexivity|].
    cbn [Apply.store Apply.docs] in Hkeys.
    unfold Wire.keysOf in Hkeys.
    apply (f_equal (map fst)) in Hkeys. rewrite !map_map in Hkeys. exact Hkeys.
Qed.

(** X12. Applying one recommendation of an optimisation writes what it
    suggests into the task it names, which is a task of the user, and
    nothing else: the suggested due date when there is one and the suggested
    priority when it is not empty are set, the other field and every other
    document stay as they were. (Identifiers are unique in the store; the
    other preconditions are those of X11.) *)
Theorem applied_recommendation_reaches_the_task (R : Runtime)
  (O : Apply.Odm) (ObjectId_isValid : string -> bool)
  (asPriority : string -> TaskPriority) (clock : nat -> Z)
  (db : Service.Database) (userId aiResponse : string) (limit : Z)
  (ts : list TaskContext) (result : WorkloadOptimizationResult)
  (r : TaskRecommendation) :
  Service.retrieveUserTasks ObjectId_isValid asPriority clock db userId
    = inr ts ->
  extractRecommendations aiResponse (selectCandidates ts limit) = inr result ->
  In r (recommendations result) ->
  Apply.castObjectId (VStr userId) = Some userId ->
  (forall d, In d (Service.taskDocs db) ->
             Apply.castObjectId (VStr (Apply._id d)) = Some (Apply._id d)) ->
  (forall p, Apply.castString (VStr p) = Some p) ->
  (forall d, suggestedDueDate r = Some d ->
             Date_parse (Wire.toISOString d) = Some d) ->
  NoDup (map Apply._id (Service.taskDocs db)) ->
  exists st' before task after,
    Apply.applyOne userId (Wire.recommendationToJSON r)
      {| Apply.store :=
           {| Apply.docs := Service.taskDocs db; Apply.writes := 0 |};
         Apply.updatedTasks := [];
         Apply.errors_list := [] |} = inr st'
    /\ Service.taskDocs db = (before ++ task :: after)%list
    /\ Apply._id task = taskId r
    /\ Apply.userId task = userId
    /\ Apply.dueDate task = currentDueDate r
    /\ Apply.docs (Apply.store st')
       = (before
          ++ Apply.setFields task (suggestedDueDate r) (Wire.writtenPriority r)
          :: after)%list
    /\ Apply.errors_list st' = [].
Proof.
  intros Hts Hres Hr Huser Hids HcastS Hdates Hnd.
  destruct (extracted_from_candidate _ _ _ _ Hres Hr) as (t & Ht & Hid & Hdue).
  apply In_selectCandidates in Ht.
  destruct (retrieved_task_document _ _ _ _ _ _ _ Hts Ht)
    as (oid & d & n & Hc & Hd & Ho & ->).
  rewrite Huser in Hc. injection Hc as <-.
  cbn [id dueDate Service.toTaskContext] in Hid, Hdue.
  destruct (applyOne_recommendation userId r
              {| Apply.store :=
                   {| Apply.docs := Service.taskDocs db; Apply.writes := 0 |};
                 Apply.updatedTasks := [];
                 Apply.errors_list := [] |})
    as (st' & Hrun & Herr & Hdocs & _).
  - rewrite Hid. now apply Hids.
  - cbn [Apply.store Apply.docs]. unfold Wire.keysOf. apply in_map_iff.
    exists d. rewrite Hid, Ho. auto.
  - exact HcastS.
  - exact Hdates.
  - cbn [Apply.store Apply.docs] in Hdocs.
    destruct (updateFirst_split (taskId r)
                (fun t => Apply.setFields t (suggestedDueDate r)
                            (Wire.writtenPriority r))
                (Service.taskDocs db) d Hnd Hd (eq_sym Hid))
      as (before & after & Hsplit & Hupd).
    exists st', before, d, after.
    split; [exact Hrun|]. split; [exact Hsplit|]. split; [now symmetry|].
    split; [exact Ho|]. split; [now symmetry|]. split; [|exact Herr].
    rewrite Hdocs. unfold Wire.writesSomething.
    destruct (suggestedDueDate r) as [x|] eqn:Ex;
      destruct (Wire.writtenPriority r) as [p|] eqn:Ep;
      try exact Hupd.
    rewrite setFields_nothing. exact Hsplit.
Qed.

(** * The workload page *)

Section PageFacts.

Import Page.

Context {R : Runtime}.

Lemma Set_has_delete (s : list string) (i j : string) :
  Set_has (Set_delete s i) j = negb (String.eqb j i) && Set_has s j.
Proof.
  unfold Set_has, Set_delete.
  induction s as [|x s IH]; cbn [filter existsb].
  - now rewrite andb_false_r.
  - destruct (String.eqb x i) eqn:Exi; cbn [negb existsb]; rewrite IH.
    + apply String.eqb_eq in Exi. subst x.
      destruct (String.eqb j i); reflexivity.
    + destruct (String.eqb j x) eqn:Ejx; [|reflexivity].
      apply String.eqb_eq in Ejx. subst x. now rewrite Exi.
Qed.

Lemma Set_has_app (s t : list string) (j : string) :
  Set_has (s ++ t) j = Set_has s j || Set_has t j.
Proof. unfold Set_has. apply existsb_app. Qed.

Lemma Set_has_add (s : list string) (i j : string) :
  Set_has (Set_add s i) j = String.eqb j i || Set_has s j.
Proof.
  unfold Set_add. destruct (Set_has s i) eqn:E.
  - destruct (String.eqb j i) eqn:Eji; [|reflexivity].
    apply String.eqb_eq in Eji. subst j. now rewrite E.
  - rewrite Set_has_app. cbn. rewrite orb_false_r. apply orb_comm.
Qed.

Lemma Set_has_of (l : list string) (j : string) :
  Set_has (Set_of l) j = existsb (String.eqb j) l.
Proof.
  induction l as [|x l IH]; [reflexivity|].
  cbn [Set_of]. unfold Set_has in *. cbn [existsb].
  fold (Set_delete (Set_of l) x). fold (Set_has (Set_delete (Set_of l) x) j).
  rewrite Set_has_delete. unfold Set_has. rewrite IH.
  destruct (String.eqb j x); reflexivity.
Qed.

(** Toggling an identifier changes whether it is selected, and nothing
    else. *)
Lemma toggle_has (st : State) (i j : string) :
  Set_has (selectedRecommendations (handleToggleRecommendation st i)) j
  = if String.eqb j i then negb (Set_has (selectedRecommendations st) i)
    else Set_has (selectedRecommendations st) j.
Proof.
  unfold handleToggleRecommendation. cbn [selectedRecommendations].
  destruct (Set_has (selectedRecommendations st) i) eqn:E.
  - rewrite Set_has_delete. destruct (String.eqb j i); reflexivity.
  - rewrite Set_has_add. destruct (String.eqb j i); reflexivity.
Qed.

Lemma filter_ext_has {A} (f : A -> string) (s t : list string) (l : list A) :
  (forall j, Set_has s j = Set_has t j) ->
  filter (fun r => Set_has s (f r)) l = filter (fun r => Set_has t (f r)) l.
Proof. intros H. apply filter_ext. intros a. apply H. Qed.

Lemma has_nil (s : list string) :
  (forall j, Set_has s j = false) -> s = [].
Proof.
  destruct s as [|x s]; [reflexivity|]. intros H. specialize (H x).
  unfold Set_has in H. cbn in H. now rewrite String.eqb_refl in H.
Qed.

(** What is posted depends on the selection through its members only. *)
Lemma recommendationsToApply_members (st st' : State) :
  recommendations st' = recommendations st ->
  (forall j, Set_has (selectedRecommendations st') j
             = Set_has (selectedRecommendations st) j) ->
  recommendationsToApply st' = recommendationsToApply st.
Proof.
  intros Hr Hs. unfold recommendationsToApply. rewrite Hr.
  destruct (selectedRecommendations st) as [|x s] eqn:E.
  - rewrite (has_nil _ Hs). reflexivity.
  - destruct (selectedRecommendations st') as [|y s'] eqn:E'.
    + specialize (Hs x). unfold Set_has in Hs. cbn in Hs.
      now rewrite String.eqb_refl in Hs.
    + f_equal. now apply filter_ext_has.
Qed.

Lemma filter_all {A} (p : A -> bool) (l : list A) :
  (forall a, In a l -> p a = true) -> filter p l = l.
Proof.
  induction l as [|x l IH]; intros H; [reflexivity|]. cbn.
  rewrite (H x (or_introl eq_refl)). f_equal. apply IH. intros a Ha.
  apply H. now right.
Qed.

Lemma has_taskIdOf (recs : list value) (r : value) :
  In r recs -> existsb (String.eqb (taskIdOf r)) (map taskIdOf recs) = true.
Proof.
  intros H. apply existsb_exists. exists (taskIdOf r).
  split; [now apply in_map|apply String.eqb_refl].
Qed.

End PageFacts.

(** X13. After an optimisation every recommendation is selected: applying
    without touching the selection posts all the recommendations received,
    in the order received. *)
Theorem untouched_selection_posts_every_recommendation (R : Runtime)
  (recs : list value) :
  recs <> [] ->
  Page.recommendationsToApply (Page.handleOptimize recs) = Some recs
  /\ Page.error (Page.handleOptimize recs) = None.
Proof.
  intros Hne. destruct recs as [|r recs]; [now destruct Hne|].
  split; [|reflexivity].
  unfold Page.recommendationsToApply, Page.handleOptimize.
  cbn [Page.selectedRecommendations Page.recommendations].
  destruct (Page.Set_of (map Page.taskIdOf (r :: recs))) as [|x s] eqn:E.
  - discriminate E.
  - rewrite <- E. f_equal. apply filter_all. intros a Ha.
    rewrite Set_has_of. now apply has_taskIdOf.
Qed.

(** X14. Clicking a row of the table after an optimisation takes the task
    of that row out of what is posted: every recommendation for that task
    is left out, every other one stays, in order; and when no other is
    left, nothing is posted at all. *)
Theorem deselected_task_is_not_posted (R : Runtime) (recs : list value)
  (r : value) :
  In r recs ->
  Page.recommendationsToApply
    (Page.handleToggleRecommendation (Page.handleOptimize recs)
       (Page.taskIdOf r))
  = match filter (fun x => negb (String.eqb (Page.taskIdOf x) (Page.taskIdOf r)))
            recs with
    | [] => None
    | others => Some others
    end.
Proof.
  intros Hr.
  assert (Hne : recs <> []) by (intros ->; destruct Hr).
  set (st := Page.handleToggleRecommendation (Page.handleOptimize recs)
               (Page.taskIdOf r)).
  assert (Hhas : forall j,
             Page.Set_has (Page.selectedRecommendations st) j
             = negb (String.eqb j (Page.taskIdOf r))
               && existsb (String.eqb j) (map Page.taskIdOf recs)).
  { intros j. unfold st. rewrite toggle_has.
    destruct recs as [|r0 recs0]; [now destruct Hne|].
    cbn [Page.handleOptimize Page.selectedRecommendations].
    rewrite !Set_has_of. rewrite (has_taskIdOf _ _ Hr).
    destruct (String.eqb j (Page.taskIdOf r)); reflexivity. }
  assert (Hfilter :
    filter (fun x => Page.Set_has (Page.selectedRecommendations st)
                       (Page.taskIdOf x)) recs
    = filter (fun x => negb (String.eqb (Page.taskIdOf x) (Page.taskIdOf r)))
        recs).
  { apply filter_ext_in. intros a Ha. rewrite Hhas.
    rewrite (has_taskIdOf _ _ Ha). apply andb_true_r. }
  unfold Page.recommendationsToApply.
  assert (Hrecs : Page.recommendations st = recs).
  { unfold st. destruct recs; reflexivity. }
  rewrite Hrecs, Hfilter. clear Hfilter.
  remember (filter (fun x => negb (String.eqb (Page.taskIdOf x) (Page.taskIdOf r)))
              recs) as others eqn:Ef.
  destruct (Page.selectedRecommendations st) as [|x s] eqn:E;
    destruct others as [|a others]; try reflexivity; exfalso.
  - assert (Ha : In a (filter (fun x => negb (String.eqb (Page.taskIdOf x)
                                               (Page.taskIdOf r))) recs))
      by (rewrite <- Ef; now left).
    apply filter_In in Ha. destruct Ha as [Ha Hneq].
    specialize (Hhas (Page.taskIdOf a)). rewrite Hneq in Hhas.
    rewrite (has_taskIdOf _ _ Ha) in Hhas. discriminate Hhas.
  - specialize (Hhas x). unfold Page.Set_has at 1 in Hhas. cbn in Hhas.
    rewrite String.eqb_refl in Hhas. cbn in Hhas. symmetry in Hhas.
    apply andb_prop in Hhas. destruct Hhas as [Hneq Hex].
    apply existsb_exists in Hex. destruct Hex as (y & Hy & Hxy).
    apply String.eqb_eq in Hxy. subst y.
    apply in_map_iff in Hy. destruct Hy as (a & Hax & Ha).
    assert (Hin : In a (filter (fun x => negb (String.eqb (Page.taskIdOf x)
                                                (Page.taskIdOf r))) recs)).
    { apply filter_In. split; [exact Ha|]. now rewrite Hax. }
    rewrite <- Ef in Hin. destruct Hin.
Qed.

(** X15. Clicking the same row twice leaves what will be posted as it was,
    whatever the state of the page. *)
Theorem toggling_twice_restores_the_request (R : Runtime) (st : Page.State)
  (taskId : string) :
  Page.recommendationsToApply
    (Page.handleToggleRecommendation
       (Page.handleToggleRecommendation st taskId) taskId)
  = Page.recommendationsToApply st.
Proof.
  apply recommendationsToApply_members; [reflexivity|].
  intros j. rewrite !toggle_has. rewrite String.eqb_refl.
  destruct (String.eqb j taskId) eqn:E; [|reflexivity].
  apply String.eqb_eq in E. subst j. apply negb_involutive.
Qed.

(** X16. The page reads the number of updated tasks from a property the
    handler does not send: whatever the handler updated, the message the
    page shows after a successful request says 0 tasks, while the handler's
    own message has the count. *)
Theorem page_reports_zero_updated_tasks (R : Runtime) (O : Apply.Odm)
  (userId : option string) (recommendations : list value) (s s' : Apply.Store)
  (updated : nat) (errors : option (list string)) (msg : string) :
  Apply.applyWorkloadOptimization userId recommendations s
    = (Apply.Success updated errors msg, s') ->
  Page.successMessage (Wire.applyResponseBody (Apply.Success updated errors msg))
    = "Successfully updated 0 task(s)"
  /\ msg = "Successfully updated " ++ Z_toString (Z.of_nat updated) ++ " task(s)".
Proof.
  intros H. split.
  - unfold Page.successMessage, Wire.applyResponseBody.
    destruct errors; reflexivity.
  - unfold Apply.applyWorkloadOptimization in H.
    destruct userId as [user|]; [|discriminate H].
    destruct (Apply.applyAll user recommendations _) as [[e st]|st];
      [discriminate H|].
    injection H as <- _ <- _. reflexivity.
Qed.

(** * The route [GET /workload-optimization] *)

Section LimitFacts.

Lemma Array_slice0_length {A} (n : Z) (l : list A) :
  0 <= n -> (List.length (Array_slice0 n l) <= Z.to_nat n)%nat.
Proof.
  intros H. unfold Array_slice0.
  destruct (n <? 0) eqn:E; [apply Z.ltb_lt in E; lia|].
  rewrite length_firstn. lia.
Qed.

(** The limit the service works with for a [maxTasks] parameter that is
    absent, empty, not a number or zero. *)
Lemma numberOr_default (parseInt : string -> option Z)
  (queryDays queryMaxTasks : option string) :
  match queryMaxTasks with
  | Some s => JsString.isEmpty s = true \/ parseInt s = None
              \/ parseInt s = Some 0
  | None => True
  end ->
  numberOr (Some (Routes.optimizationOptions parseInt queryDays queryMaxTasks))
    maxTasks 15 = 15.
Proof.
  unfold numberOr, Routes.optimizationOptions, Routes.queryNumber.
  cbn [maxTasks].
  destruct queryMaxTasks as [s|]; [|reflexivity].
  destruct (JsString.isEmpty s); [reflexivity|].
  intros [H|[H|H]]; [discriminate H| |]; rewrite H; reflexivity.
Qed.

End LimitFacts.

(** X17. A request to the route without a usable [maxTasks] parameter
    (absent, empty, not a number for [parseInt], or zero) makes the service
    offer at most 15 tasks to the model: the message it sends is the prompt
    for a list of 1 to 15 candidates, and likewise the number of days is 7
    when [days] is absent. *)
Theorem request_without_limit_offers_fifteen_tasks (R : Runtime)
  (O : Apply.Odm) (ObjectId_isValid : string -> bool)
  (asPriority : string -> TaskPriority) (clock : nat -> Z)
  (parseInt : string -> option Z) (w : Gateway.World) (userId : string)
  (queryMaxTasks : option string) (c : Gateway.ProviderCall) :
  match queryMaxTasks with
  | Some s => JsString.isEmpty s = true \/ parseInt s = None
              \/ parseInt s = Some 0
  | None => True
  end ->
  In c (snd (Gateway.runOptimize ObjectId_isValid asPriority clock w
               (optimizeWorkload userId
                  (Some (Routes.optimizationOptions parseInt None
                           queryMaxTasks))))) ->
  exists candidates,
    Gateway.callUserMessage c = prompt candidates 7
    /\ (1 <= List.length candidates <= 15)%nat.
Proof.
  intros Hq Hin.
  destruct (optimizeWorkload_calls _ _ _ _ _ _ _ _ _ Hin)
    as (_ & context & _ & _ & Hne & Husr & _).
  rewrite (numberOr_default parseInt None queryMaxTasks Hq) in Hne, Husr.
  exists (selectCandidates (Service.tasks context) 15).
  split; [exact Husr|]. split.
  - destruct (selectCandidates (Service.tasks context) 15);
      [now destruct Hne|cbn; lia].
  - unfold selectCandidates.
    apply (Array_slice0_length 15). lia.
Qed.

(** * What the patterns of the extractor match *)

Section MatchingFacts.

Import Regex Matching.

Lemma length_append (a b : string) :
  String.length (a ++ b) = (String.length a + String.length b)%nat.
Proof. induction a as [|c a IH]; cbn; [reflexivity|now rewrite IH]. Qed.

Lemma drop_append (a b : string) : JsString.drop (String.length a) (a ++ b) = b.
Proof. induction a as [|c a IH]; cbn; [reflexivity|exact IH]. Qed.

Lemma drop_add (n : nat) (s a b : string) :
  JsString.drop n s = a ++ b -> JsString.drop (n + String.length a)%nat s = b.
Proof.
  revert s. induction n as [|n IH]; intros s H.
  - cbn in H. subst s. apply drop_append.
  - destruct s as [|c s]; cbn in H.
    + destruct a; [|discriminate H]. cbn in H. subst b.
      cbn. reflexivity.
    + cbn. apply IH. exact H.
Qed.

Lemma drop_suffix (n : nat) (s : string) :
  exists before, s = before ++ JsString.drop n s.
Proof.
  revert s. induction n as [|n IH]; intros s.
  - exists EmptyString. reflexivity.
  - destruct s as [|c s].
    + exists EmptyString. reflexivity.
    + destruct (IH s) as (before & H). exists (String c before).
      cbn. now rewrite <- H.
Qed.

Lemma substring_0_append (a b : string) :
  substring 0 (String.length a) (a ++ b) = a.
Proof.
  induction a as [|c a IH]; cbn.
  - destruct b; reflexivity.
  - now rewrite IH.
Qed.

Lemma substring_drop (n m : nat) (s : string) :
  substring n m s = substring 0 m (JsString.drop n s).
Proof.
  revert s. induction n as [|n IH]; intros s; [reflexivity|].
  destruct s as [|c s]; cbn.
  - destruct m; reflexivity.
  - apply IH.
Qed.

(** The text between two positions, when what is left at the first opens
    with a known text. *)
Lemma slice_found (s : string) (b : nat) (txt after : string) :
  JsString.drop b s = txt ++ after ->
  slice s b (b + String.length txt)%nat = txt.
Proof.
  intros H. unfold slice.
  replace (b + String.length txt - b)%nat with (String.length txt) by lia.
  rewrite substring_drop, H. apply substring_0_append.
Qed.

Lemma litMatches_exact (lit txt : string) :
  litMatches false lit txt -> txt = lit.
Proof.
  revert txt. induction lit as [|c lit IH]; intros [|d txt]; cbn; try tauto.
  intros [Hc H]. apply Ascii.eqb_eq in Hc. subst d. f_equal. now apply IH.
Qed.

Lemma matchLit_matches (ic : bool) (lit : string) :
  forall st k res,
    matchLit ic lit st k = Some res ->
    exists txt after,
      rest st = txt ++ after
      /\ litMatches ic lit txt
      /\ k (MState (pos st + String.length txt)%nat after (capture st)) = Some res.
Proof.
  induction lit as [|c lit IH]; intros st k res; cbn [matchLit].
  - intros H. exists EmptyString, (rest st). split; [reflexivity|].
    split; [exact I|]. cbn. rewrite Nat.add_0_r. destruct st. exact H.
  - destruct (rest st) as [|d s'] eqn:E; [discriminate|].
    destruct (sameChar ic c d) eqn:Ec; [|discriminate].
    intros H. apply IH in H. destruct H as (txt & after & Hr & Hm & Hk).
    cbn [rest pos capture] in *. exists (String d txt), after.
    split; [rewrite Hr; reflexivity|]. split; [split; assumption|].
    cbn [String.length]. rewrite Nat.add_succ_r. exact Hk.
Qed.

Lemma matchStar_matches (p : ascii -> bool) (k : cont) :
  forall s n cap res,
    matchStar p k n s cap = Some res ->
    exists txt after,
      s = txt ++ after /\ allChars p txt
      /\ k (MState (n + String.length txt)%nat after cap) = Some res.
Proof.
  assert (Hnone : forall s n cap res,
             k (MState n s cap) = Some res ->
             exists txt after,
               s = txt ++ after /\ allChars p txt
               /\ k (MState (n + String.length txt)%nat after cap) = Some res).
  { intros s n cap res H. exists EmptyString, s. cbn. rewrite Nat.add_0_r. auto. }
  induction s as [|c s IH]; intros n cap res; cbn [matchStar].
  - apply Hnone.
  - destruct (p c) eqn:Ep; [|apply Hnone].
    destruct (matchStar p k (S n) s cap) as [r|] eqn:E; [|apply Hnone].
    intros H. injection H as <-. apply IH in E.
    destruct E as (txt & after & -> & Ha & Hk).
    exists (String c txt), after. split; [reflexivity|]. split; [split; assumption|].
    cbn [String.length]. rewrite Nat.add_succ_r. exact Hk.
Qed.

Lemma matchLazyStar_matches (p : ascii -> bool) (k : cont) :
  forall s n cap res,
    matchLazyStar p k n s cap = Some res ->
    exists txt after,
      s = txt ++ after /\ allChars p txt
      /\ k (MState (n + String.length txt)%nat after cap) = Some res.
Proof.
  assert (Hnow : forall s n cap res,
             k (MState n s cap) = Some res ->
             exists txt after,
               s = txt ++ after /\ allChars p txt
               /\ k (MState (n + String.length txt)%nat after cap) = Some res).
  { intros s n cap res H. exists EmptyString, s. cbn. rewrite Nat.add_0_r. auto. }
  induction s as [|c s IH]; intros n cap res; cbn [matchLazyStar].
  - destruct (k (MState n EmptyString cap)) as [r|] eqn:E; [|discriminate].
    intros H. injection H as <-. now apply Hnow.
  - destruct (k (MState n (String c s) cap)) as [r|] eqn:E.
    + intros H. injection H as <-. now apply Hnow.
    + destruct (p c) eqn:Ep; [|discriminate].
      intros H. apply IH in H. destruct H as (txt & after & -> & Ha & Hk).
      exists (String c txt), after. split; [reflexivity|].
      split; [split; assumption|].
      cbn [String.length]. rewrite Nat.add_succ_r. exact Hk.
Qed.

(** A successful run consumed a text the pattern matches and handed what
    is left to the continuation; without a group the capture is the one it
    started with. *)
Lemma run_matches (r : regex) :
  forall st k res,
    run r st k = Some res ->
    exists txt after cap,
      rest st = txt ++ after
      /\ matches r txt
      /\ k (MState (pos st + String.length txt)%nat after cap) = Some res
      /\ (groupFree r = true -> cap = capture st).
Proof.
  assert (Hhere : forall (r0 : regex) st (k : cont) res,
             matches r0 EmptyString ->
             k st = Some res ->
             exists txt after cap,
               rest st = txt ++ after
               /\ matches r0 txt
               /\ k (MState (pos st + String.length txt)%nat after cap) = Some res
               /\ (groupFree r0 = true -> cap = capture st)).
  { intros r0 st k res Hm H. exists EmptyString, (rest st), (capture st).
    cbn. rewrite Nat.add_0_r. destruct st. auto. }
  induction r as [ic s | r IH | p | p | r1 IH1 r2 IH2 | r IH | |];
    intros st k res; cbn [run].
  - intros H. apply matchLit_matches in H.
    destruct H as (txt & after & Hr & Hm & Hk).
    exists txt, after, (capture st). auto.
  - destruct (run r st k) as [x|] eqn:E.
    + intros H. injection H as <-. apply IH in E.
      destruct E as (txt & after & cap & Hr & Hm & Hk & Hc).
      exists txt, after, cap. cbn [matches groupFree]. auto.
    + apply Hhere. cbn. auto.
  - intros H. apply matchStar_matches in H.
    destruct H as (txt & after & Hr & Hm & Hk).
    exists txt, after, (capture st). auto.
  - intros H. apply matchLazyStar_matches in H.
    destruct H as (txt & after & Hr & Hm & Hk).
    exists txt, after, (capture st). auto.
  - intros H. apply IH1 in H.
    destruct H as (t1 & a1 & c1 & Hr1 & Hm1 & Hk1 & Hc1).
    apply IH2 in Hk1. cbn [rest pos capture] in Hk1.
    destruct Hk1 as (t2 & a2 & c2 & Hr2 & Hm2 & Hk2 & Hc2).
    exists (t1 ++ t2), a2, c2.
    split; [rewrite Hr1, Hr2; symmetry; apply append_assoc|].
    split; [exists t1, t2; auto|].
    split; [rewrite length_append, Nat.add_assoc; exact Hk2|].
    cbn [groupFree]. intros Hg. apply andb_prop in Hg.
    destruct Hg as [Hg1 Hg2]. rewrite (Hc2 Hg2). apply (Hc1 Hg1).
  - intros H. apply IH in H.
    destruct H as (txt & after & cap & Hr & Hm & Hk & _).
    cbn [rest pos] in Hk.
    exists txt, after, (Some (pos st, (pos st + String.length txt)%nat)).
    cbn [matches groupFree]. split; [exact Hr|]. split; [exact Hm|].
    split; [exact Hk|discriminate].
  - destruct (Nat.eqb (pos st) 0); [|discriminate]. apply Hhere. reflexivity.
  - destruct (JsString.isEmpty (rest st)); [|discriminate]. apply Hhere. reflexivity.
Qed.

(** The capture a group leaves is the extent of what it matched. *)
Lemma run_Group (r : regex) (st : mstate) (k : cont) (res : mstate) :
  run (Group r) st k = Some res ->
  exists txt after,
    rest st = txt ++ after
    /\ matches r txt
    /\ k (MState (pos st + String.length txt)%nat after
            (Some (pos st, (pos st + String.length txt)%nat))) = Some res.
Proof.
  cbn [run]. intros H. apply run_matches in H.
  destruct H as (txt & after & cap & Hr & Hm & Hk & _).
  cbn [rest pos] in Hk. exists txt, after. auto.
Qed.

(** A match found by [search] is a successful run at its start. *)
Lemma search_found (r : regex) :
  forall s n b e cap,
    search r n s = Some (b, e, cap) ->
    exists skipped res,
      b = (n + skipped)%nat
      /\ run r (MState b (JsString.drop skipped s) None) Some = Some res
      /\ e = pos res /\ cap = capture res.
Proof.
  induction s as [|c s IH]; intros n b e cap; cbn [search].
  - destruct (run r (MState n EmptyString None) Some) as [st|] eqn:E;
      [|discriminate].
    intros H. injection H as <- <- <-. exists 0%nat, st. rewrite Nat.add_0_r. auto.
  - destruct (run r (MState n (String c s) None) Some) as [st|] eqn:E.
    + intros H. injection H as <- <- <-. exists 0%nat, st.
      rewrite Nat.add_0_r. auto.
    + intros H. apply IH in H. destruct H as (skipped & res & -> & Hrun & He & Hc).
      exists (S skipped), res. cbn [JsString.drop].
      rewrite Nat.add_succ_r. auto.
Qed.

(** The text [match_] returns is a text the pattern matches. *)
Lemma match_matches (s : string) (r : regex) (m : MatchArray) :
  match_ s r = Some m -> matches r (m0 m).
Proof.
  unfold match_.
  destruct (search r 0 s) as [[[b e] cap]|] eqn:E; [|discriminate].
  intros H. injection H as <-. cbn [m0].
  apply search_found in E. destruct E as (skipped & res & -> & Hrun & -> & _).
  apply run_matches in Hrun.
  destruct Hrun as (txt & after & cap' & Hr & Hm & Hk & _).
  cbn [rest pos Nat.add] in *. injection Hk as <-. cbn [pos].
  now rewrite (slice_found _ _ _ _ Hr).
Qed.

Lemma braced_intro (inner : string) : braced ("{" ++ inner ++ "}").
Proof. now exists inner. Qed.

Lemma anyJsonPattern_braced (txt : string) :
  matches anyJsonPattern txt -> braced txt.
Proof.
  unfold anyJsonPattern. cbn [cats matches].
  intros (t1 & t23 & -> & H1 & t2 & t3 & -> & _ & H3).
  apply litMatches_exact in H1, H3. subst t1 t3. apply braced_intro.
Qed.

Lemma jsonObjectPattern_braced (txt : string) :
  matches jsonObjectPattern txt -> braced txt.
Proof.
  unfold jsonObjectPattern. cbn [cats matches].
  intros (t1 & x1 & -> & H1 & t2 & x2 & -> & _ & t3 & x3 & -> & _
          & t4 & t5 & -> & _ & H5).
  apply litMatches_exact in H1, H5. subst t1 t5.
  exists (t2 ++ t3 ++ t4). now rewrite !append_assoc.
Qed.

(** Capture 1 of a match of the code-block pattern is a braced text. *)
Lemma codeBlockPattern_braced (s : string) (m : MatchArray) (group : string) :
  match_ s codeBlockPattern = Some m -> m1 m = Some group -> braced group.
Proof.
  unfold match_.
  destruct (search codeBlockPattern 0 s) as [[[b e] cap]|] eqn:E; [|discriminate].
  intros H Hg. injection H as <-. cbn [m1] in Hg.
  apply search_found in E. destruct E as (skipped & res & -> & Hrun & -> & ->).
  unfold codeBlockPattern in Hrun. cbn [cats] in Hrun.
  cbn [Nat.add] in Hrun.
  (* the opening fence *)
  change (run (Cat ?a ?b) ?st ?k) with (run a st (fun st' => run b st' k)) in Hrun.
  apply run_matches in Hrun.
  destruct Hrun as (t1 & a1 & c1 & Hr1 & _ & Hrun & Hc1).
  rewrite (Hc1 eq_refl) in Hrun. cbn [rest pos capture] in *.
  pose proof (drop_add _ _ _ _ Hr1) as Hd1.
  (* the optional word *)
  change (run (Cat ?a ?b) ?st ?k) with (run a st (fun st' => run b st' k)) in Hrun.
  apply run_matches in Hrun.
  destruct Hrun as (t2 & a2 & c2 & Hr2 & _ & Hrun & Hc2).
  rewrite (Hc2 eq_refl) in Hrun. cbn [rest pos capture] in *.
  rewrite Hr2 in Hd1. pose proof (drop_add _ _ _ _ Hd1) as Hd2.
  (* the white space *)
  change (run (Cat ?a ?b) ?st ?k) with (run a st (fun st' => run b st' k)) in Hrun.
  apply run_matches in Hrun.
  destruct Hrun as (t3 & a3 & c3 & Hr3 & _ & Hrun & Hc3).
  rewrite (Hc3 eq_refl) in Hrun. cbn [rest pos capture] in *.
  rewrite Hr3 in Hd2. pose proof (drop_add _ _ _ _ Hd2) as Hd3.
  (* the group *)
  change (run (Cat ?a ?b) ?st ?k) with (run a st (fun st' => run b st' k)) in Hrun.
  apply run_Group in Hrun.
  destruct Hrun as (tg & ag & Hrg & Hmg & Hrun). cbn [rest pos] in *.
  (* what follows keeps the capture *)
  apply run_matches in Hrun.
  destruct Hrun as (t5 & a5 & c5 & _ & _ & Hrun & Hc5).
  rewrite (Hc5 eq_refl) in Hrun. cbn [capture] in Hrun.
  injection Hrun as <-. cbn [capture option_map fst snd] in Hg.
  rewrite Hrg in Hd3. rewrite (slice_found _ _ _ _ Hd3) in Hg.
  injection Hg as <-.
  cbn [cats matches] in Hmg.
  destruct Hmg as (u1 & u23 & -> & H1 & u2 & u3 & -> & _ & H3).
  apply litMatches_exact in H1, H3. subst u1 u3. apply braced_intro.
Qed.

End MatchingFacts.

(** * The cleanup of the text found *)

Section CleanupFacts.

Import Regex Matching.

Lemma rev_onto_append (s acc : string) :
  JsString.rev_onto s acc = JsString.rev s ++ acc.
Proof.
  unfold JsString.rev. revert acc.
  induction s as [|c s IH]; intros acc; cbn [JsString.rev_onto].
  - reflexivity.
  - rewrite IH, (IH (String c EmptyString)), append_assoc. reflexivity.
Qed.

Lemma rev_append (a b : string) :
  JsString.rev (a ++ b) = JsString.rev b ++ JsString.rev a.
Proof.
  induction a as [|c a IH].
  - cbn. now rewrite append_empty_r.
  - unfold JsString.rev in *. cbn [append JsString.rev_onto].
    rewrite rev_onto_append, (rev_onto_append a). unfold JsString.rev.
    rewrite IH, append_assoc. reflexivity.
Qed.

Lemma rev_involutive (s : string) : JsString.rev (JsString.rev s) = s.
Proof.
  induction s as [|c s IH]; [reflexivity|].
  change (String c s) with (String c EmptyString ++ s) at 1.
  rewrite rev_append, rev_append, IH. reflexivity.
Qed.

(** The last code unit of a text, first in its reverse. *)
Lemma rev_last (a : string) (c : ascii) :
  JsString.rev (a ++ String c EmptyString) = String c (JsString.rev a).
Proof. now rewrite rev_append. Qed.

Lemma braced_last (txt : string) :
  braced txt -> exists a, txt = a ++ "}".
Proof.
  intros (inner & ->). exists ("{" ++ inner). now rewrite append_assoc.
Qed.

Lemma trim_braced (txt : string) : braced txt -> JsString.trim txt = txt.
Proof.
  intros H. destruct (braced_last _ H) as (a & Ha). destruct H as (inner & ->).
  unfold JsString.trim, JsString.trimEnd.
  cbn [append JsString.trimStart].
  change (JsString.isSpace "{") with false. cbv iota.
  change (String "{" (inner ++ "}")) with ("{" ++ inner ++ "}").
  rewrite Ha, rev_last. cbn [JsString.trimStart].
  change (JsString.isSpace "}") with false. cbv iota.
  rewrite <- rev_last. apply rev_involutive.
Qed.

(** A pattern anchored at the start matches at the start only. *)
Lemma search_Bos_later (r : regex) :
  forall s n, n <> 0%nat -> search (Cat Bos r) n s = None.
Proof.
  induction s as [|c s IH]; intros n Hn; cbn [search run].
  - destruct (Nat.eqb_spec (pos (MState n EmptyString None)) 0) as [E|_];
      [cbn in E; contradiction|reflexivity].
  - destruct (Nat.eqb_spec (pos (MState n (String c s) None)) 0) as [E|_];
      [cbn in E; contradiction|].
    apply IH. discriminate.
Qed.

(** A pattern that must begin with a grave accent at the start of the
    text does not match a text that begins with a brace. *)
Lemma replace_leading_fence (ic : bool) (lit : string) (r : regex)
  (inner : string) :
  replaceEmpty ("{" ++ inner) (Cat Bos (Cat (Lit ic (String "`" lit)) r))
  = "{" ++ inner.
Proof.
  unfold replaceEmpty. cbn [append search run matchLit pos rest Nat.eqb].
  replace (sameChar ic "`" "{") with false by (destruct ic; reflexivity).
  now rewrite search_Bos_later.
Qed.

(** A text that ends with a brace has no code fence at its end. *)
Lemma no_trailing_fence (a : string) :
  forall n s, JsString.drop n (a ++ "}") = s ->
    forall m, search (cats [Star JsString.isSpace; Lit false fence; Eos]) m s = None.
Proof.
  intros n s Hs m.
  destruct (search _ m s) as [[[b e] cap]|] eqn:E; [exfalso|reflexivity].
  apply search_found in E. destruct E as (skipped & res & _ & Hrun & _).
  cbn [cats] in Hrun.
  change (run (Cat ?x ?y) ?st ?k) with (run x st (fun st' => run y st' k)) in Hrun.
  apply run_matches in Hrun.
  destruct Hrun as (t1 & a1 & c1 & Hr1 & _ & Hrun & _). cbn [rest pos] in *.
  change (run (Cat ?x ?y) ?st ?k) with (run x st (fun st' => run y st' k)) in Hrun.
  apply run_matches in Hrun.
  destruct Hrun as (t2 & a2 & c2 & Hr2 & Hm2 & Hrun & _). cbn [rest pos] in *.
  cbn [matches] in Hm2. apply litMatches_exact in Hm2. subst t2.
  cbn [run rest] in Hrun.
  destruct a2 as [|x a2]; [|discriminate Hrun].
  subst a1. rewrite <- Hs in Hr1.
  destruct (drop_suffix skipped (JsString.drop n (a ++ "}"))) as (p1 & H1).
  destruct (drop_suffix n (a ++ "}")) as (p2 & H2).
  rewrite Hr1 in H1. rewrite H1 in H2.
  assert (H3 : a ++ "}" = (p2 ++ p1 ++ t1) ++ fence).
  { rewrite H2 at 1. rewrite append_empty_r, !append_assoc. reflexivity. }
  apply (f_equal JsString.rev) in H3.
  rewrite rev_last, rev_append in H3.
  discriminate H3.
Qed.

(** The cleanup leaves a braced text as it is. *)
Lemma cleanJson_braced (txt : string) : braced txt -> cleanJson txt = txt.
Proof.
  intros H. unfold cleanJson. rewrite (trim_braced _ H).
  destruct (braced_last _ H) as (a & Ha). destruct H as (inner & ->).
  assert (H1 : replaceEmpty ("{" ++ inner ++ "}")
                 (cats [Bos; Lit true "```json"; Star JsString.isSpace])
               = "{" ++ inner ++ "}")
    by apply (replace_leading_fence true "``json" _ (inner ++ "}")).
  assert (H2 : replaceEmpty ("{" ++ inner ++ "}")
                 (cats [Bos; Lit false fence; Star JsString.isSpace])
               = "{" ++ inner ++ "}")
    by apply (replace_leading_fence false "``" _ (inner ++ "}")).
  cbv zeta. rewrite H1, H2. unfold replaceEmpty. rewrite Ha.
  now rewrite (no_trailing_fence a 0 (a ++ "}") eq_refl 0).
Qed.

Lemma cleanJson_empty : cleanJson EmptyString = EmptyString.
Proof. reflexivity. Qed.

Lemma codeBlockStrategy_braced (aiResponse s : string) :
  codeBlockStrategy aiResponse = Some s -> braced s.
Proof.
  unfold codeBlockStrategy, nonEmpty.
  destruct (match_ aiResponse codeBlockPattern) as [m|] eqn:E; [|discriminate].
  destruct (m1 m) as [g|] eqn:Eg; [|discriminate].
  destruct (JsString.isEmpty g); [discriminate|].
  intros H. injection H as <-. exact (codeBlockPattern_braced _ _ _ E Eg).
Qed.

Lemma jsonObjectStrategy_braced (aiResponse s : string) :
  jsonObjectStrategy aiResponse = Some s -> braced s.
Proof.
  unfold jsonObjectStrategy.
  destruct (match_ aiResponse jsonObjectPattern) as [m|] eqn:E; [|discriminate].
  intros H. injection H as <-.
  exact (jsonObjectPattern_braced _ (match_matches _ _ _ E)).
Qed.

Lemma anyJsonStrategy_braced (aiResponse s : string) :
  anyJsonStrategy aiResponse = Some s -> braced s.
Proof.
  unfold anyJsonStrategy.
  destruct (match_ aiResponse anyJsonPattern) as [m|] eqn:E; [|discriminate].
  intros H. injection H as <-.
  exact (anyJsonPattern_braced _ (match_matches _ _ _ E)).
Qed.

(** What the three patterns yield. *)
Lemma findJson_braced (aiResponse : string) :
  jsonString (findJson aiResponse) = EmptyString
  \/ braced (jsonString (findJson aiResponse)).
Proof.
  unfold findJson.
  rewrite tryAnyJson_jsonString, tryJsonObject_jsonString,
    tryCodeBlock_jsonString.
  cbn [jsonString notFound].
  pose proof (codeBlockStrategy_braced aiResponse) as H1.
  pose proof (jsonObjectStrategy_braced aiResponse) as H2.
  pose proof (anyJsonStrategy_braced aiResponse) as H3.
  destruct (codeBlockStrategy aiResponse) as [s1|].
  - destruct (H1 s1 eq_refl) as (inner & ->). cbn [append JsString.isEmpty].
    right. now exists inner.
  - cbn [JsString.isEmpty].
    destruct (jsonObjectStrategy aiResponse) as [s2|].
    + destruct (H2 s2 eq_refl) as (inner & ->). cbn [append JsString.isEmpty].
      right. now exists inner.
    + cbn [JsString.isEmpty].
      destruct (anyJsonStrategy aiResponse) as [s3|]; [right|now left].
      now apply H3.
Qed.

End CleanupFacts.

(** X18. Whatever text the extractor takes from a reply, by any of its
    three patterns, opens with a brace and closes with a brace (or there is
    no text at all, when no pattern matches). *)
Theorem found_text_is_braced (aiResponse : string) :
  jsonString (findJson aiResponse) = EmptyString
  \/ exists inner, jsonString (findJson aiResponse) = "{" ++ inner ++ "}".
Proof.
  destruct (findJson_braced aiResponse) as [H|H]; [now left|right].
  exact H.
Qed.

(** X19. The cleanup before parsing (the trimming and the three
    replacements that remove code-block markers) never changes the text the
    patterns found: what is parsed is the text as it was matched. *)
Theorem cleanup_never_changes_the_found_text (aiResponse : string) :
  cleanJson (jsonString (findJson aiResponse)) = jsonString (findJson aiResponse).
Proof.
  destruct (findJson_braced aiResponse) as [H|H].
  - rewrite H. apply cleanJson_empty.
  - now apply cleanJson_braced.
Qed.

(** * The second pattern *)

Section LazyFacts.

Import Regex Matching.

(** A lazy repetition before a closing brace stops at the first closing
    brace. *)
Lemma lazy_until_brace :
  forall s n cap res,
    matchLazyStar JsString.anyChar (fun st' => matchLit false "}" st' Some)
      n s cap = Some res ->
    exists txt after,
      s = txt ++ "}" ++ after
      /\ allChars notClosingBrace txt
      /\ res = MState (n + String.length txt + 1) after cap.
Proof.
  induction s as [|c s IH]; intros n cap res; cbn [matchLazyStar matchLit rest].
  - discriminate.
  - unfold sameChar. cbn [pos capture].
    destruct (Ascii.eqb "}" c) eqn:E.
    + apply Ascii.eqb_eq in E. subst c. intros H. injection H as <-.
      exists EmptyString, s. cbn. split; [reflexivity|]. split; [exact I|].
      f_equal. lia.
    + cbn [JsString.anyChar]. intros H. apply IH in H.
      destruct H as (txt & after & -> & Ha & ->).
      exists (String c txt), after. split; [reflexivity|].
      split.
      * split; [|exact Ha]. unfold notClosingBrace.
        rewrite Ascii.eqb_sym, E. reflexivity.
      * f_equal. cbn [String.length]. lia.
Qed.


(** X20. The text the second pattern takes from a reply ends at the first
    closing brace that follows the key ["recommendations"]: between the key
    and the last code unit of the text there is no closing brace, so an
    object inside the array is never taken in whole. *)
Theorem second_pattern_stops_at_first_closing_brace (aiResponse : string)
  (m : Regex.MatchArray) :
  Regex.match_ aiResponse jsonObjectPattern = Some m ->
  exists before after,
    Regex.m0 m
    = "{" ++ before ++ JsString.q "'recommendations'" ++ after ++ "}"
    /\ Matching.allChars Matching.notClosingBrace after.
Proof.
  unfold match_.
  destruct (search jsonObjectPattern 0 aiResponse) as [[[b e] cap]|] eqn:E; [|discriminate].
  intros H. injection H as <-. cbn [m0].
  apply search_found in E. destruct E as (skipped & res & -> & Hrun & -> & _).
  unfold jsonObjectPattern in Hrun. cbn [cats Nat.add] in Hrun.
  change (run (Cat ?x ?y) ?st ?k) with (run x st (fun st' => run y st' k)) in Hrun.
  apply run_matches in Hrun.
  destruct Hrun as (t1 & a1 & c1 & Hr1 & Hm1 & Hrun & Hc1).
  cbn [rest pos capture matches] in *. apply litMatches_exact in Hm1. subst t1.
  change (run (Cat ?x ?y) ?st ?k) with (run x st (fun st' => run y st' k)) in Hrun.
  apply run_matches in Hrun.
  destruct Hrun as (t2 & a2 & c2 & Hr2 & _ & Hrun & _).
  cbn [rest pos capture] in *.
  change (run (Cat ?x ?y) ?st ?k) with (run x st (fun st' => run y st' k)) in Hrun.
  apply run_matches in Hrun.
  destruct Hrun as (t3 & a3 & c3 & Hr3 & Hm3 & Hrun & _).
  cbn [rest pos capture matches] in *. apply litMatches_exact in Hm3. subst t3.
  cbn [run rest pos capture] in Hrun.
  apply lazy_until_brace in Hrun.
  destruct Hrun as (t4 & after & Hr4 & Ha & ->). cbn [pos].
  exists t2, t4. split; [|exact Ha].
  assert (Hd : JsString.drop skipped aiResponse
               = ("{" ++ t2 ++ JsString.q "'recommendations'" ++ t4 ++ "}")
                 ++ after).
  { rewrite Hr1, Hr2, Hr3, Hr4. rewrite !append_assoc. reflexivity. }
  rewrite <- (slice_found _ _ _ _ Hd). f_equal.
  rewrite !length_append. cbn [String.length]. lia.
Qed.

End LazyFacts.

(** * The rows of the table *)

Section RowFacts.

Context {R : Runtime}.

Lemma toLowerCase_differs (a b : string) :
  String.eqb (JsString.toLowerCase a) (JsString.toLowerCase b) = false ->
  String.eqb a b = false.
Proof.
  intros H. destruct (String.eqb a b) eqn:E; [|reflexivity].
  apply String.eqb_eq in E. subst b. now rewrite String.eqb_refl in H.
Qed.

Lemma normalizeDate_dateToJSON (d : option Z) :
  (forall t, d = Some t -> Date_parse (Wire.toISOString t) = Some t) ->
  Page.normalizeDate (Wire.dateToJSON d) = option_map JsDate.isoDate d.
Proof.
  intros H. unfold Page.normalizeDate, Wire.dateToJSON.
  destruct d as [t|]; [|reflexivity].
  cbn [truthy Date_new]. rewrite toISOString_nonEmpty. cbn [negb].
  now rewrite (H t eq_refl).
Qed.

Lemma propOf_recommendationToJSON_current (r : TaskRecommendation) :
  propOf (Wire.recommendationToJSON r) "currentDueDate"
  = Wire.dateToJSON (currentDueDate r)
  /\ propOf (Wire.recommendationToJSON r) "currentPriority"
     = VStr (currentPriority r).
Proof.
  unfold Wire.recommendationToJSON. destruct (suggestedPriority r); split; reflexivity.
Qed.

(** A recommendation that proposes a change is shown as one. *)
Lemma proposesChange_hasChanges (r : TaskRecommendation) :
  proposesChange r = true ->
  (forall t, currentDueDate r = Some t ->
             Date_parse (Wire.toISOString t) = Some t) ->
  (forall t, suggestedDueDate r = Some t ->
             Date_parse (Wire.toISOString t) = Some t) ->
  suggestedPriority r <> Some EmptyString ->
  Page.hasChanges (Wire.recommendationToJSON r) = true.
Proof.
  intros Hc Hcur Hsug Hne.
  destruct (propOf_recommendationToJSON r) as (_ & Hd & Hp).
  destruct (propOf_recommendationToJSON_current r) as (Hcd & Hcp).
  unfold Page.hasChanges, Page.dueDateChanged, Page.priorityChanged.
  rewrite Hd, Hp, Hcd, Hcp.
  rewrite (normalizeDate_dateToJSON _ Hcur), (normalizeDate_dateToJSON _ Hsug).
  unfold proposesChange in Hc. apply orb_prop in Hc.
  destruct Hc as [Hc|Hc]; [rewrite Hc; reflexivity|].
  apply orb_true_iff. right.
  destruct (suggestedPriority r) as [p|]; [|discriminate Hc].
  destruct p as [|c p]; [now destruct Hne|].
  cbn [truthy JsString.isEmpty negb andb String_].
  apply negb_true_iff in Hc. apply toLowerCase_differs in Hc. now rewrite Hc.
Qed.

End RowFacts.

(** X21. The page shows as changed what the service returns as a change:
    for every recommendation an optimisation returns, the row of the table
    has [hasChanges] set (it shows the arrow between before and after), with
    [dueDateChanged] set whenever the dates differ by day. (The runtime reads
    back the ISO dates that were sent, and the suggested priority is not the
    empty string.) *)
Theorem returned_recommendation_is_shown_as_change (R : Runtime)
  (aiResponse : string) (pendingTasks : list TaskContext)
  (result : WorkloadOptimizationResult) (r : TaskRecommendation) :
  extractRecommendations aiResponse pendingTasks = inr result ->
  In r (recommendations result) ->
  (forall t, currentDueDate r = Some t ->
             Date_parse (Wire.toISOString t) = Some t) ->
  (forall t, suggestedDueDate r = Some t ->
             Date_parse (Wire.toISOString t) = Some t) ->
  suggestedPriority r <> Some EmptyString ->
  Page.hasChanges (Wire.recommendationToJSON r) = true
  /\ Page.dueDateChanged (Wire.recommendationToJSON r)
     = negb (optionString_eqb (option_map JsDate.isoDate (currentDueDate r))
                              (option_map JsDate.isoDate (suggestedDueDate r))).
Proof.
  intros Hres Hr Hcur Hsug Hne.
  assert (Hc : proposesChange r = true).
  { destruct (extractRecommendations_cases aiResponse pendingTasks)
      as [H | (jsonData & entries & recs & _ & _ & Hmap & H)];
      rewrite H in Hres; injection Hres as <-; cbn in Hr; [destruct Hr|].
    destruct (mapRecommendations_In _ _ _ _ Hmap Hr) as (entry & _ & _ & Hto).
    apply toRecommendation_kept in Hto. tauto. }
  split; [now apply proposesChange_hasChanges|].
  destruct (propOf_recommendationToJSON r) as (_ & Hd & _).
  destruct (propOf_recommendationToJSON_current r) as (Hcd & _).
  unfold Page.dueDateChanged. rewrite Hd, Hcd.
  now rewrite (normalizeDate_dateToJSON _ Hcur), (normalizeDate_dateToJSON _ Hsug).
Qed.

(** * The route [POST /chat] *)

(** X22. A chat request whose [temperature] is 0, or any other value that
    is not truthy, is served as a request without temperature: the handler
    leaves the option out, so that a request through OpenRouter asks for the
    default 0.7 and one through LangChain passes no temperature at all. *)
Theorem chat_request_for_temperature_zero_gets_default (R : Runtime)
  (O : Apply.Odm) (ObjectId_isValid : string -> bool)
  (asPriority : string -> TaskPriority) (clock : nat -> Z)
  (parseFloat parseInt : string -> Gateway.Number) (w : Gateway.World)
  (userId : option string) (body : value) (c : Gateway.ProviderCall) :
  truthy (propOf body "temperature") = false ->
  In c (snd (Routes.chat ObjectId_isValid asPriority clock parseFloat parseInt
               w userId body)) ->
  match c with
  | Gateway.ViaLangchain _ _ temperature => temperature = None
  | Gateway.ViaOpenRouter request =>
      Gateway.requestTemperature request = Gateway.Finite (7 # 10)
  end.
Proof.
  intros Hfalsy. unfold Routes.chat.
  destruct userId as [user|]; [|intros []].
  pose proof (chatWithOrganizer_calls ObjectId_isValid asPriority clock w user
                (String_ (propOf body "message"))
                (Routes.chatOptions parseFloat parseInt body) c) as Hcalls.
  destruct (Gateway.runAgent _ _ _ _ _) as [[e|response] calls];
    cbn [snd] in *; intros Hin;
    destruct (Hcalls Hin) as (_ & context & _ & _ & _ & _ & Hpar);
    assert (Hnone : match Routes.chatOptions parseFloat parseInt body with
                    | Some o => Gateway.withTemperature o
                    | None => None
                    end = None)
      by (unfold Routes.chatOptions; cbv zeta; rewrite Hfalsy;
          destruct (_ || _ || _); reflexivity);
    rewrite Hnone in Hpar;
    destruct c as [s m t|request]; [exact Hpar|apply Hpar|exact Hpar|apply Hpar].
Qed.

(** * The scenario *)

Section ScenarioFacts.

Import Examples Reference Scenario.

#[local] Existing Instance Apply.odm.

(** Alice's three tasks, the completed one first: it is the newest. *)
Lemma retrieved_tasks_are_the_users_newest_first_witness :
  exists oid,
    Apply.castObjectId (VStr alice) = Some oid
    /\ Permutation (map id aliceTasks)
         (map Apply._id (filter (fun t => String.eqb (Apply.userId t) oid)
                     (Service.taskDocs db)))
    /\ StronglySorted (fun a b => createdAt b <= createdAt a)
         aliceTasks.
Proof.
  apply (retrieved_tasks_are_the_users_newest_first Apply.odm Apply.isObjectIdString
           priorityOf noon db alice aliceTasks).
  vm_compute. reflexivity.
Defined.

(** The pending task that was due at midnight is the third that is looked
    at: by then midnight has passed, and the task is overdue, which it was
    not yet when the first task was looked at. *)
Lemma overdue_flag_needs_due_date_and_open_task_witness :
  Service.retrieveUserTasks Apply.isObjectIdString priorityOf ticking db alice
  = inr [Service.toTaskContext priorityOf ticking 0 doc4;
         Service.toTaskContext priorityOf ticking 1 doc3;
         Service.toTaskContext priorityOf ticking 2 doc1]
  /\ isOverdue (Service.toTaskContext priorityOf ticking 2 doc1) = Some true
  /\ dueDate (Service.toTaskContext priorityOf ticking 2 doc1) = Some jan1
  /\ jan1 < ticking 2
  /\ ~ jan1 < ticking 0.
Proof.
  split; [vm_compute; reflexivity|].
  split; [|split; [reflexivity|split; [reflexivity|vm_compute; discriminate]]].
  apply (proj1 (overdue_flag_needs_due_date_and_open_task Apply.odm
                  Apply.isObjectIdString priorityOf ticking db alice
                  [Service.toTaskContext priorityOf ticking 0 doc4;
                   Service.toTaskContext priorityOf ticking 1 doc3;
                   Service.toTaskContext priorityOf ticking 2 doc1]
                  2%nat (Service.toTaskContext priorityOf ticking 2 doc1)
                  ltac:(vm_compute; reflexivity) eq_refl)).
  exists jan1. split; [reflexivity|]. split; [reflexivity|discriminate].
Defined.

Lemma context_statistics_are_consistent_witness :
  Service.retrieveCompleteContext Apply.isObjectIdString priorityOf noon db alice
    = inr aliceContext
  /\ Service.totalTasks (Service.stats aliceContext)
     = List.length (Service.tasks aliceContext)
  /\ (Service.pendingTasks (Service.stats aliceContext)
      + Service.inProgressTasks (Service.stats aliceContext)
      + Service.completedTasks (Service.stats aliceContext)
      <= Service.totalTasks (Service.stats aliceContext))%nat
  /\ (Service.overdueTasks (Service.stats aliceContext)
      + Service.completedTasks (Service.stats aliceContext)
      <= Service.totalTasks (Service.stats aliceContext))%nat.
Proof.
  split; [vm_compute; reflexivity|].
  apply (context_statistics_are_consistent Apply.odm Apply.isObjectIdString priorityOf noon
           db alice aliceContext).
  vm_compute. reflexivity.
Defined.



(** An empty key is no key. For a user the store does not know the error
    is that of the retrieval. *)
Lemma chat_without_provider_sends_nothing_witness :
  chat noKeys None
  = (inl "No AI provider configured. Please set either DEEPSEEK_API_KEY or OPENROUTER_API_KEY",
     [])
  /\ Gateway.runAgent Apply.isObjectIdString priorityOf noon (world noKeys)
       (Gateway.chatWithOrganizer noKeys bob "What should I do first?" None)
     = (inl "User not found", []).
Proof.
  split.
  - exact (chat_without_provider_sends_nothing Apply.odm Apply.isObjectIdString priorityOf
             noon (world noKeys) alice "What should I do first?" None
             eq_refl eq_refl eq_refl).
  - exact (chat_without_provider_sends_nothing Apply.odm Apply.isObjectIdString priorityOf
             noon (world noKeys) bob "What should I do first?" None
             eq_refl eq_refl eq_refl).
Defined.

Lemma openrouter_reply_is_never_empty_witness :
  fst (chat openrouterOnly None) = inr reply
  /\ reply <> EmptyString
  /\ Gateway.completionContent (world openrouterOnly)
       (requestOf (firstCall (snd (chat openrouterOnly None))))
     = inr (Some reply).
Proof.
  split; [vm_compute; reflexivity|].
  apply (openrouter_reply_is_never_empty Apply.odm Apply.isObjectIdString priorityOf noon
           (world openrouterOnly) alice "What should I do first?" None reply
           (requestOf (firstCall (snd (chat openrouterOnly None))))
           (snd (chat openrouterOnly None))).
  - vm_compute. reflexivity.
  - vm_compute. left. reflexivity.
Defined.

Lemma optimization_sends_one_request_witness :
  fst (optimization openrouterOnly None) = inr result
  /\ snd (optimization openrouterOnly None)
     = [firstCall (snd (optimization openrouterOnly None))]
  /\ exists ts,
       Service.retrieveUserTasks Apply.isObjectIdString priorityOf noon db alice
         = inr ts
       /\ selectCandidates ts (numberOr None maxTasks 15) <> []
       /\ Gateway.callUserMessage
            (firstCall (snd (optimization openrouterOnly None)))
          = prompt (selectCandidates ts (numberOr None maxTasks 15))
              (numberOr None days 7)
       /\ Gateway.callTemperature
            (firstCall (snd (optimization openrouterOnly None)))
          = Some (Gateway.Finite (2 # 10))
       /\ (forall request,
             firstCall (snd (optimization openrouterOnly None))
               = Gateway.ViaOpenRouter request ->
             Gateway.max_tokens request = Gateway.Finite (inject_Z 2000)).
Proof.
  split; [vm_compute; reflexivity|].
  apply (optimization_sends_one_request runtime Apply.odm Apply.isObjectIdString priorityOf
           noon (world openrouterOnly) alice None
           (firstCall (snd (optimization openrouterOnly None)))).
  vm_compute. left. reflexivity.
Defined.

(** The completed task is no candidate and is not in the user message; the
    two open tasks are in the system prompt. *)
Lemma optimization_context_lists_every_open_task_witness :
  Prompt.occursIn ("Task " ++ id3)
    (Gateway.callSystemPrompt
       (firstCall (snd (optimization openrouterOnly
                          (Some {| provider := None; days := None;
                                   maxTasks := Some 1 |})))))
  /\ map id (selectCandidates aliceTasks 1) = [id3].
Proof.
  split; [|vm_compute; reflexivity].
  apply (optimization_context_lists_every_open_task runtime Apply.odm
           Apply.isObjectIdString priorityOf noon (world openrouterOnly) alice
           (Some {| provider := None; days := None; maxTasks := Some 1 |})
           (firstCall (snd (optimization openrouterOnly
                              (Some {| provider := None; days := None;
                                       maxTasks := Some 1 |}))))
           aliceTasks
           (Service.toTaskContext priorityOf noon 1 doc3)).
  - vm_compute. left. reflexivity.
  - vm_compute. reflexivity.
  - right. left. reflexivity.
  - right. reflexivity.
Defined.


(** Both recommendations of the scenario are applied: two tasks updated,
    no error. *)
Lemma extracted_recommendations_apply_without_error_witness :
  exists store',
    Apply.applyWorkloadOptimization (Some alice) received
      {| Apply.docs := Service.taskDocs db; Apply.writes := 0 |}
    = (Apply.Success 2 None "Successfully updated 2 task(s)", store')
    /\ map Apply._id (Apply.docs store') = map Apply._id (Service.taskDocs db).
Proof.
  apply (extracted_recommendations_apply_without_error runtime Apply.odm
           Apply.isObjectIdString priorityOf noon db alice reply 15 aliceTasks result).
  - vm_compute. reflexivity.
  - vm_compute. reflexivity.
  - reflexivity.
  - intros d [<-|[<-|[<-|[<-|[]]]]]; reflexivity.
  - intros p. reflexivity.
  - intros r d [<-|[<-|[]]] H; [|discriminate H].
    injection H as <-. vm_compute. reflexivity.
Defined.

(** Task 1 of Alice gets the due date 2024-01-05 and the priority high. *)
Lemma applied_recommendation_reaches_the_task_witness :
  exists st' before task after,
    Apply.applyOne alice (Wire.recommendationToJSON recommendation1)
      {| Apply.store := {| Apply.docs := Service.taskDocs db; Apply.writes := 0 |};
         Apply.updatedTasks := [];
         Apply.errors_list := [] |} = inr st'
    /\ Service.taskDocs db = (before ++ task :: after)%list
    /\ Apply._id task = id1
    /\ Apply.userId task = alice
    /\ Apply.dueDate task = Some jan1
    /\ Apply.docs (Apply.store st')
       = (before ++ Apply.setFields task (Some jan5) (Some "high") :: after)%list
    /\ Apply.errors_list st' = [].
Proof.
  apply (applied_recommendation_reaches_the_task runtime Apply.odm Apply.isObjectIdString
           priorityOf noon db alice reply 15 aliceTasks result recommendation1).
  - vm_compute. reflexivity.
  - vm_compute. reflexivity.
  - left. reflexivity.
  - reflexivity.
  - intros d [<-|[<-|[<-|[<-|[]]]]]; reflexivity.
  - intros p. reflexivity.
  - intros d H. injection H as <-. vm_compute. reflexivity.
  - vm_compute. repeat constructor; cbn; intuition discriminate.
Defined.

Lemma untouched_selection_posts_every_recommendation_witness :
  Page.recommendationsToApply (Page.handleOptimize received) = Some received
  /\ Page.error (Page.handleOptimize received) = None.
Proof.
  apply (untouched_selection_posts_every_recommendation runtime received).
  discriminate.
Defined.

Lemma deselected_task_is_not_posted_witness :
  Page.recommendationsToApply
    (Page.handleToggleRecommendation (Page.handleOptimize received) id1)
  = Some [Wire.recommendationToJSON recommendation3].
Proof.
  exact (deselected_task_is_not_posted runtime received
           (Wire.recommendationToJSON recommendation1)
           (or_introl eq_refl)).
Defined.

Lemma toggling_twice_restores_the_request_witness :
  Page.recommendationsToApply
    (Page.handleToggleRecommendation
       (Page.handleToggleRecommendation (Page.handleOptimize received) id3) id3)
  = Some received.
Proof.
  rewrite (toggling_twice_restores_the_request runtime
             (Page.handleOptimize received) id3).
  reflexivity.
Defined.

(** The handler updated two tasks and says so; the page says 0. *)
Lemma page_reports_zero_updated_tasks_witness :
  Page.successMessage
    (Wire.applyResponseBody
       (Apply.Success 2 None "Successfully updated 2 task(s)"))
  = "Successfully updated 0 task(s)"
  /\ "Successfully updated 2 task(s)"
     = "Successfully updated " ++ Z_toString (Z.of_nat 2) ++ " task(s)".
Proof.
  apply (page_reports_zero_updated_tasks runtime Apply.odm (Some alice) received
           {| Apply.docs := Service.taskDocs db; Apply.writes := 0 |}
           (snd (Apply.applyWorkloadOptimization (Some alice) received
                   {| Apply.docs := Service.taskDocs db; Apply.writes := 0 |}))
           2 None "Successfully updated 2 task(s)").
  vm_compute. reflexivity.
Defined.

(** [maxTasks=0] in the query. *)
Lemma request_without_limit_offers_fifteen_tasks_witness :
  exists candidates,
    Gateway.callUserMessage
      (firstCall
         (snd (optimization openrouterOnly
                 (Some (Routes.optimizationOptions parseDecimal None (Some "0"))))))
    = prompt candidates 7
    /\ (1 <= List.length candidates <= 15)%nat.
Proof.
  apply (request_without_limit_offers_fifteen_tasks runtime Apply.odm
           Apply.isObjectIdString priorityOf noon parseDecimal (world openrouterOnly)
           alice (Some "0")).
  - right. right. reflexivity.
  - vm_compute. left. reflexivity.
Defined.

(** The reply of the scenario holds its JSON in a code block. *)
Lemma found_text_is_braced_witness :
  exists inner, jsonString (findJson reply) = "{" ++ inner ++ "}".
Proof.
  destruct (found_text_is_braced reply) as [H|H]; [|exact H].
  vm_compute in H. discriminate H.
Defined.

Lemma cleanup_never_changes_the_found_text_witness :
  cleanJson (jsonString (findJson reply)) = jsonString (findJson reply)
  /\ cleanJson (jsonString (findJson replyBare)) = jsonString (findJson replyBare).
Proof.
  split.
  - exact (cleanup_never_changes_the_found_text reply).
  - exact (cleanup_never_changes_the_found_text replyBare).
Defined.

(** A reply that is the JSON and nothing else is cut before the bracket
    that closes the array. *)
Lemma second_pattern_stops_at_first_closing_brace_witness :
  exists before after,
    JsString.q "{'recommendations':[{'taskId':'A','suggestedDueDate':'2024-01-05'}"
    = "{" ++ before ++ JsString.q "'recommendations'" ++ after ++ "}"
    /\ Matching.allChars Matching.notClosingBrace after.
Proof.
  apply (second_pattern_stops_at_first_closing_brace replyBare
           {| Regex.m0 :=
                JsString.q "{'recommendations':[{'taskId':'A','suggestedDueDate':'2024-01-05'}";
              Regex.m1 := None |}).
  vm_compute. reflexivity.
Defined.

(** The two recommendations of the scenario are shown with the arrow; the
    first changes the date, the second does not. *)
Lemma returned_recommendation_is_shown_as_change_witness :
  Page.hasChanges (Wire.recommendationToJSON recommendation1) = true
  /\ Page.dueDateChanged (Wire.recommendationToJSON recommendation1)
     = negb (optionString_eqb
               (option_map JsDate.isoDate (currentDueDate recommendation1))
               (option_map JsDate.isoDate (suggestedDueDate recommendation1))).
Proof.
  apply (returned_recommendation_is_shown_as_change runtime reply candidates
           result recommendation1).
  - vm_compute. reflexivity.
  - left. reflexivity.
  - intros t H. injection H as <-. vm_compute. reflexivity.
  - intros t H. injection H as <-. vm_compute. reflexivity.
  - discriminate.
Defined.

(** The request for temperature 0 reaches OpenRouter with 0.7. *)
Lemma chat_request_for_temperature_zero_gets_default_witness :
  map Gateway.callTemperature (snd (chatRoute openrouterOnly coldRequest))
  = [Some (Gateway.Finite (7 # 10))]
  /\ match firstCall (snd (chatRoute openrouterOnly coldRequest)) with
     | Gateway.ViaLangchain _ _ temperature => temperature = None
     | Gateway.ViaOpenRouter request =>
         Gateway.requestTemperature request = Gateway.Finite (7 # 10)
     end.
Proof.
  split; [vm_compute; reflexivity|].
  apply (chat_request_for_temperature_zero_gets_default runtime Apply.odm
           Apply.isObjectIdString priorityOf noon numberOf numberOf
           (world openrouterOnly) (Some alice) coldRequest).
  - reflexivity.
  - vm_compute. left. reflexivity.
Defined.

End ScenarioFacts.
